(** * Chess customization service: validation, persistence gateway, handlers

    A shallow embedding of the CRUD pipeline of [problem5_crud_server]:
    - [Js]: the untyped request values the validators inspect ([data: any]);
    - [Validation]: [utils/validation.ts];
    - [Errors], [ErrorHandler]: [utils/errors.ts], [middleware/errorHandler.ts];
    - [Models]: [models/ChessCustomization.ts];
    - [Pg]: the two tables of [schema.sql] and the statements issued on them;
    - [Storage]: [storage/PostgreSQLChessCustomizationStorage.ts];
    - [Controller]: [controllers/customizationController.ts] (the PUT handler).

    Strings are sequences of code units in the range 0..255. *)

From Stdlib Require Import List String Ascii Bool Arith ZArith QArith Lia.
From Stdlib Require Import DecimalString DecimalNat Sorted.
Import ListNotations.

Local Close Scope Q_scope.
Local Open Scope list_scope.
Local Open Scope string_scope.
Local Open Scope nat_scope.

(* ------------------------------------------------------------------ *)
(** ** Exceptions raised by the language itself *)

Module Exc.

(** A [TypeError] is what property access on [undefined]/[null], calling a
    missing method, or [in] on a primitive raises. *)
Inductive JsError : Type :=
| TypeError (msg : string).

Definition Exc (A : Type) : Type := (JsError + A)%type.

Definition ret {A} (a : A) : Exc A := inr a.
Definition throw {A} (e : JsError) : Exc A := inl e.
Definition bind {A B} (m : Exc A) (k : A -> Exc B) : Exc B :=
  match m with
  | inl e => inl e
  | inr a => k a
  end.

End Exc.
Import Exc.

Declare Scope exc_scope.
Delimit Scope exc_scope with exc.
Notation "x <- m ;; k" := (Exc.bind m (fun x => k))
  (at level 61, m at next level, right associativity) : exc_scope.

(* ------------------------------------------------------------------ *)
(** ** Untyped values *)

Module Js.

(** What [JSON.parse] can produce, plus [undefined] for absent properties.
    Of a number only its truthiness and its [typeof] are ever observed. *)
#[warnings="-register-all"] Inductive JsVal : Type :=
| JUndefined
| JNull
| JBool (b : bool)
| JNum (n : Z)
| JStr (s : string)
| JArr (items : list JsVal)
| JObj (fields : list (string * JsVal)).

(** [!v] is [negb (truthy v)]. *)
Definition truthy (v : JsVal) : bool :=
  match v with
  | JUndefined | JNull => false
  | JBool b => b
  | JNum n => negb (n =? 0)%Z
  | JStr s => negb (String.eqb s EmptyString)
  | JArr _ | JObj _ => true
  end.

Definition typeof (v : JsVal) : string :=
  match v with
  | JUndefined => "undefined"
  | JNull => "object"
  | JBool _ => "boolean"
  | JNum _ => "number"
  | JStr _ => "string"
  | JArr _ | JObj _ => "object"
  end.

(** Own property lookup of a parsed object: the first binding of the key. *)
Fixpoint lookup (fields : list (string * JsVal)) (k : string) : option JsVal :=
  match fields with
  | [] => None
  | (k', v) :: rest => if String.eqb k' k then Some v else lookup rest k
  end.

(** [v.k] for the property names the service reads (none of them is
    inherited from a prototype). *)
Definition getProp (v : JsVal) (k : string) : Exc JsVal :=
  match v with
  | JUndefined => throw (TypeError "Cannot read properties of undefined")
  | JNull => throw (TypeError "Cannot read properties of null")
  | JObj fields =>
      match lookup fields k with
      | Some x => ret x
      | None => ret JUndefined
      end
  | JBool _ | JNum _ | JStr _ | JArr _ => ret JUndefined
  end.

(** [k in v]. *)
Definition hasProp (k : string) (v : JsVal) : Exc bool :=
  match v with
  | JObj fields =>
      match lookup fields k with
      | Some _ => ret true
      | None => ret false
      end
  | JArr _ => ret false
  | _ => throw (TypeError "Cannot use 'in' operator")
  end.

Definition isArray (v : JsVal) : bool :=
  match v with
  | JArr _ => true
  | _ => false
  end.

(** [v !== undefined] *)
Definition isDefined (v : JsVal) : bool :=
  match v with
  | JUndefined => false
  | _ => true
  end.

(** White space and line terminators removed by [String.prototype.trim]
    (those below 256). *)
Definition isWhiteSpace (c : ascii) : bool :=
  let n := nat_of_ascii c in
  ((9 <=? n) && (n <=? 13)) || (n =? 32) || (n =? 160).

Fixpoint trimStart (s : string) : string :=
  match s with
  | EmptyString => EmptyString
  | String c rest => if isWhiteSpace c then trimStart rest else s
  end.

Fixpoint trimEnd (s : string) : string :=
  match s with
  | EmptyString => EmptyString
  | String c rest =>
      match trimEnd rest with
      | EmptyString => if isWhiteSpace c then EmptyString else String c EmptyString
      | t => String c t
      end
  end.

Definition trimString (s : string) : string := trimEnd (trimStart s).

(** [v.trim()]: only strings have the method. *)
Definition trim (v : JsVal) : Exc string :=
  match v with
  | JStr s => ret (trimString s)
  | JUndefined | JNull => throw (TypeError "Cannot read properties of undefined")
  | _ => throw (TypeError "trim is not a function")
  end.

(** [list.includes(v)] for a list of string literals. *)
Definition includes (l : list string) (v : JsVal) : bool :=
  match v with
  | JStr s => existsb (String.eqb s) l
  | _ => false
  end.

(** [list.join(sep)] *)
Fixpoint join (sep : string) (l : list string) : string :=
  match l with
  | [] => EmptyString
  | [x] => x
  | x :: rest => x ++ sep ++ join sep rest
  end.

(** Decimal rendering of an index inside a template literal. *)
Definition showNat (n : nat) : string := NilEmpty.string_of_uint (Nat.to_uint n).

End Js.
Import Js.

(* ------------------------------------------------------------------ *)
(** ** [utils/validation.ts] *)

Module Validation.

Local Open Scope exc_scope.

Definition charIn (lo hi : nat) (c : ascii) : bool :=
  (lo <=? nat_of_ascii c) && (nat_of_ascii c <=? hi).

(** The class [[A-Za-z0-9+/]]. *)
Definition isBase64Char (c : ascii) : bool :=
  charIn 65 90 c || charIn 97 122 c || charIn 48 57 c
  || Ascii.eqb c "+" || Ascii.eqb c "/".

(** [dropPrefix p s] is the rest of [s] after the literal [p], if [s]
    starts with it. *)
Fixpoint dropPrefix (p s : string) : option string :=
  match p, s with
  | EmptyString, _ => Some s
  | String a p', String b s' => if Ascii.eqb a b then dropPrefix p' s' else None
  | String _ _, EmptyString => None
  end.

(** The longest run matched by [[^;]*]: what is left after it. *)
Fixpoint skipNonSemicolon (s : string) : string :=
  match s with
  | EmptyString => EmptyString
  | String c rest => if Ascii.eqb c ";" then s else skipNonSemicolon rest
  end.

(** [str.replace(/^data:[^;]+;base64,/, '')].  The class [[^;]] cannot
    give back a [';'], so the only candidate match takes the whole run of
    non-semicolons after ["data:"]. *)
Definition stripDataUrlPrefix (str : string) : string :=
  match dropPrefix "data:" str with
  | None => str
  | Some rest =>
      let after := skipNonSemicolon rest in
      if String.length after <? String.length rest then
        match dropPrefix ";base64," after with
        | Some base64Data => base64Data
        | None => str
        end
      else str
  end.

Fixpoint skipBase64Chars (s : string) : string :=
  match s with
  | EmptyString => EmptyString
  | String c rest => if isBase64Char c then skipBase64Chars rest else s
  end.

(** [/^[A-Za-z0-9+/]*={0,2}$/.test(s)]: the star takes every leading
    alphabet character (['='] is not one), then at most two ['='] must end
    the input. *)
Definition base64Regex_test (s : string) : bool :=
  let tail := skipBase64Chars s in
  String.eqb tail EmptyString || String.eqb tail "=" || String.eqb tail "==".

(** *** [Buffer.from(s, 'base64')]

    The decoder of the runtime never raises on a string: it reads the
    sextets of the characters of either base64 alphabet up to the first
    padding character, passing over anything else, and packs them into
    bytes. *)
Definition sextetOf (c : ascii) : option N :=
  let n := N_of_ascii c in
  if charIn 65 90 c then Some (n - 65)%N
  else if charIn 97 122 c then Some (n - 71)%N
  else if charIn 48 57 c then Some (n + 4)%N
  else if Ascii.eqb c "+" || Ascii.eqb c "-" then Some 62%N
  else if Ascii.eqb c "/" || Ascii.eqb c "_" then Some 63%N
  else None.

Fixpoint sextets (s : string) : list N :=
  match s with
  | EmptyString => []
  | String c rest =>
      if Ascii.eqb c "=" then []
      else match sextetOf c with
           | Some v => v :: sextets rest
           | None => sextets rest
           end
  end.

Fixpoint packSextets (l : list N) : list N :=
  match l with
  | a :: b :: c :: d :: rest =>
      (N.lor (N.shiftl a 2) (N.shiftr b 4))
        :: (N.lor (N.shiftl (N.land b 15) 4) (N.shiftr c 2))
        :: (N.lor (N.shiftl (N.land c 3) 6) d)
        :: packSextets rest
  | [a; b; c] =>
      [N.lor (N.shiftl a 2) (N.shiftr b 4);
       N.lor (N.shiftl (N.land b 15) 4) (N.shiftr c 2)]
  | [a; b] => [N.lor (N.shiftl a 2) (N.shiftr b 4)]
  | _ => []
  end.

Definition Buffer_from_base64 (s : string) : list N := packSextets (sextets s).

(** Validates if a string is valid base64 format *)
Definition isValidBase64 (str : JsVal) : bool :=
  if negb (truthy str) || negb (String.eqb (typeof str) "string") then false
  else
    match str with
    | JStr s =>
        let base64Data := stripDataUrlPrefix s in
        if negb (base64Regex_test base64Data) then false
        else if negb (String.length base64Data mod 4 =? 0) then false
        else
          (* try { Buffer.from(base64Data, 'base64'); return true } *)
          let _decoded := Buffer_from_base64 base64Data in
          true
    | _ => false
    end.

(** [(base64Data.length * 3) / 4]: a quotient of small integers by a
    power of two, which the double arithmetic of the runtime computes
    exactly; kept here as a rational. *)
Definition sizeInBytes (base64Data : string) : Q :=
  (inject_Z (Z.of_nat (String.length base64Data) * 3) / inject_Z 4)%Q.

Definition maxSizeInBytes : Q := inject_Z (100 * 1024).

(** Validates SVG size limit (100KB max) *)
Definition isValidSvgSize (base64Svg : JsVal) : bool :=
  if negb (truthy base64Svg) || negb (String.eqb (typeof base64Svg) "string") then false
  else
    match base64Svg with
    | JStr s =>
        let base64Data := stripDataUrlPrefix s in
        Qle_bool (sizeInBytes base64Data) maxSizeInBytes
    | _ => false
    end.

Record ValidationResult : Type := mkResult {
  isValid : bool;
  errors : list string
}.

Definition validTypes : list string :=
  ["pawn"; "rook"; "knight"; "bishop"; "queen"; "king"].
Definition validColors : list string := ["white"; "black"].

(** [errors.push(msg)] and [errors.push(...more)] *)
Definition push (errors : list string) (msg : string) : list string :=
  (errors ++ [msg])%list.
Definition pushAll (errors more : list string) : list string :=
  (errors ++ more)%list.

(** [if (c) errors.push(msg)] *)
Definition pushIf (c : bool) (errors : list string) (msg : string) : list string :=
  if c then push errors msg else errors.

(** Validates a single chess piece *)
Definition validateChessPiece (piece : JsVal) (index : nat) : Exc (list string) :=
  let errors : list string := [] in
  let prefix := "Piece at index " ++ showNat index ++ ":" in
  if negb (truthy piece) || negb (String.eqb (typeof piece) "object") then
    ret (push errors (prefix ++ " must be an object"))
  else
    type <- getProp piece "type" ;;
    let errors :=
      pushIf (negb (truthy type) || negb (includes validTypes type)) errors
        (prefix ++ " type must be one of: " ++ join ", " validTypes) in
    color <- getProp piece "color" ;;
    let errors :=
      pushIf (negb (truthy color) || negb (includes validColors color)) errors
        (prefix ++ " color must be one of: " ++ join ", " validColors) in
    svgData <- getProp piece "svgData" ;;
    let errors :=
      if negb (truthy svgData) || negb (String.eqb (typeof svgData) "string") then
        push errors (prefix ++ " svgData is required and must be a string")
      else
        let errors :=
          pushIf (negb (isValidBase64 svgData)) errors
            (prefix ++ " svgData must be valid base64 format") in
        pushIf (negb (isValidSvgSize svgData)) errors
          (prefix ++ " svgData exceeds maximum size limit of 100KB")
    in
    ret errors.

(** [pieces.forEach((piece, index) => errors.push(...validateChessPiece(piece, index)))] *)
Fixpoint forEachPiece (pieces : list JsVal) (index : nat) (errors : list string)
  : Exc (list string) :=
  match pieces with
  | [] => ret errors
  | piece :: rest =>
      pieceErrors <- validateChessPiece piece index ;;
      forEachPiece rest (S index) (pushAll errors pieceErrors)
  end.

(** The board image block, shared verbatim by both validators. *)
Definition validateBoardSvg (boardSvg : JsVal) (errors : list string) : list string :=
  if isDefined boardSvg then
    if negb (String.eqb (typeof boardSvg) "string") then
      push errors ("Board SVG must be a string if provided")
    else
      let errors :=
        pushIf (negb (isValidBase64 boardSvg)) errors
          "Board SVG must be valid base64 format" in
      pushIf (negb (isValidSvgSize boardSvg)) errors
        "Board SVG exceeds maximum size limit of 100KB"
  else errors.

(** [typeof name !== 'string' || name.trim().length === 0] *)
Definition isNotAName (name : JsVal) : Exc bool :=
  if negb (String.eqb (typeof name) "string") then ret true
  else trimmed <- trim name ;; ret (String.length trimmed =? 0).

(** [!name || typeof name !== 'string' || name.trim().length === 0] *)
Definition isMissingName (name : JsVal) : Exc bool :=
  if negb (truthy name) then ret true else isNotAName name.

(** Validates required fields for creating a chess customization *)
Definition validateCreateCustomization (data : JsVal) : Exc ValidationResult :=
  let errors : list string := [] in
  if negb (truthy data) || negb (String.eqb (typeof data) "object") then
    ret (mkResult false ["Request body is required"])
  else
    name <- getProp data "name" ;;
    nameMissing <- isMissingName name ;;
    let errors :=
      pushIf nameMissing errors "Name is required and must be a non-empty string" in
    pieces <- getProp data "pieces" ;;
    errors <-
      match pieces with
      | JArr [] => ret (push errors ("At least one chess piece is required"))
      | JArr items => forEachPiece items 0 errors
      | _ => ret (push errors ("Pieces must be an array"))
      end ;;
    description <- getProp data "description" ;;
    let errors :=
      pushIf (isDefined description && negb (String.eqb (typeof description) "string"))
        errors "Description must be a string if provided" in
    boardSvg <- getProp data "boardSvg" ;;
    let errors := validateBoardSvg boardSvg errors in
    ret (mkResult (List.length errors =? 0) errors).

(** Validates required fields for updating a chess customization *)
Definition validateUpdateCustomization (data : JsVal) : Exc ValidationResult :=
  let errors : list string := [] in
  if negb (truthy data) || negb (String.eqb (typeof data) "object") then
    ret (mkResult false ["Request body is required"])
  else
    name <- getProp data "name" ;;
    description <- getProp data "description" ;;
    boardSvg <- getProp data "boardSvg" ;;
    pieces <- getProp data "pieces" ;;
    let hasValidField :=
      isDefined name || isDefined description || isDefined boardSvg || isDefined pieces in
    let errors :=
      pushIf (negb hasValidField) errors
        "At least one field (name, description, boardSvg, or pieces) must be provided for update" in
    nameBad <- (if isDefined name then isNotAName name else ret false) ;;
    let errors := pushIf nameBad errors "Name must be a non-empty string if provided" in
    let errors :=
      pushIf (isDefined description && negb (String.eqb (typeof description) "string"))
        errors "Description must be a string if provided" in
    let errors := validateBoardSvg boardSvg errors in
    errors <-
      (if isDefined pieces then
         match pieces with
         | JArr [] =>
             ret (push errors ("At least one chess piece is required if pieces array is provided"))
         | JArr items => forEachPiece items 0 errors
         | _ => ret (push errors ("Pieces must be an array if provided"))
         end
       else ret errors) ;;
    ret (mkResult (List.length errors =? 0) errors).

End Validation.

(* ------------------------------------------------------------------ *)
(** ** [models/ChessCustomization.ts] *)

Module Models.

Inductive PieceType : Type := pawn | rook | knight | bishop | queen | king.
Inductive PieceColor : Type := white | black.

Record ChessPiece : Type := mkPiece {
  type : PieceType;
  color : PieceColor;
  svgData : string
}.

(** Milliseconds since the epoch. *)
Definition Date : Type := nat.

(** [description] and [boardSvg] come back from the store as a string or
    [null] ([None]). *)
Record ChessCustomization : Type := mkCustomization {
  id : string;
  name : string;
  description : option string;
  boardSvg : option string;
  pieces : list ChessPiece;
  createdAt : Date;
  updatedAt : Date
}.

(** Optional members: [None] is an absent ([undefined]) member. *)
Record CreateChessCustomizationRequest : Type := mkCreateRequest {
  create_name : string;
  create_description : option string;
  create_boardSvg : option string;
  create_pieces : list ChessPiece
}.

Record UpdateChessCustomizationRequest : Type := mkUpdateRequest {
  update_name : option string;
  update_description : option string;
  update_boardSvg : option string;
  update_pieces : option (list ChessPiece)
}.

Definition pieceTypeName (t : PieceType) : string :=
  match t with
  | pawn => "pawn" | rook => "rook" | knight => "knight"
  | bishop => "bishop" | queen => "queen" | king => "king"
  end.

Definition pieceColorName (c : PieceColor) : string :=
  match c with
  | white => "white" | black => "black"
  end.

Definition pieceTypeOf (v : JsVal) : option PieceType :=
  match v with
  | JStr s =>
      find (fun t => String.eqb (pieceTypeName t) s)
        [pawn; rook; knight; bishop; queen; king]
  | _ => None
  end.

Definition pieceColorOf (v : JsVal) : option PieceColor :=
  match v with
  | JStr s => find (fun c => String.eqb (pieceColorName c) s) [white; black]
  | _ => None
  end.

(** *** The typed view of a request body

    [const createData: CreateChessCustomizationRequest = req.body] checks
    nothing at run time; the functions below read a body at the declared
    type, and are defined exactly on the bodies that have it. *)
Definition field (v : JsVal) (k : string) : JsVal :=
  match getProp v k with
  | inr x => x
  | inl _ => JUndefined
  end.

Definition asOptionalString (v : JsVal) : option (option string) :=
  match v with
  | JUndefined => Some None
  | JStr s => Some (Some s)
  | _ => None
  end.

Definition asChessPiece (v : JsVal) : option ChessPiece :=
  match v with
  | JObj _ =>
      match pieceTypeOf (field v "type"), pieceColorOf (field v "color"),
            field v "svgData" with
      | Some t, Some c, JStr s => Some (mkPiece t c s)
      | _, _, _ => None
      end
  | _ => None
  end.

Fixpoint asChessPieces (items : list JsVal) : option (list ChessPiece) :=
  match items with
  | [] => Some []
  | v :: rest =>
      match asChessPiece v, asChessPieces rest with
      | Some p, Some ps => Some (p :: ps)
      | _, _ => None
      end
  end.

Definition asPieceArray (v : JsVal) : option (list ChessPiece) :=
  match v with
  | JArr items => asChessPieces items
  | _ => None
  end.

Definition asCreateRequest (body : JsVal) : option CreateChessCustomizationRequest :=
  match body with
  | JObj _ =>
      match field body "name", asOptionalString (field body "description"),
            asOptionalString (field body "boardSvg"),
            asPieceArray (field body "pieces") with
      | JStr n, Some d, Some b, Some ps => Some (mkCreateRequest n d b ps)
      | _, _, _, _ => None
      end
  | _ => None
  end.

Definition asUpdateRequest (body : JsVal) : option UpdateChessCustomizationRequest :=
  match body with
  | JObj _ =>
      match asOptionalString (field body "name"),
            asOptionalString (field body "description"),
            asOptionalString (field body "boardSvg") with
      | Some n, Some d, Some b =>
          match field body "pieces" with
          | JUndefined => Some (mkUpdateRequest n d b None)
          | pieces =>
              match asPieceArray pieces with
              | Some ps => Some (mkUpdateRequest n d b (Some ps))
              | None => None
              end
          end
      | _, _, _ => None
      end
  | _ => None
  end.

(** The body a typed piece or request is the view of. *)
Definition pieceToJs (p : ChessPiece) : JsVal :=
  JObj [("type", JStr (pieceTypeName (type p)));
        ("color", JStr (pieceColorName (color p)));
        ("svgData", JStr (svgData p))].

End Models.
Import Models.

(* ------------------------------------------------------------------ *)
(** ** [utils/errors.ts] *)

Module Errors.

Record AppError : Type := mkAppError {
  app_name : string;
  app_message : string;
  app_statusCode : Z;
  app_isOperational : bool
}.

(** [new C(message, statusCode)] for [C] the class [AppError] or one of
    its subclasses: [this.name = this.constructor.name]. *)
Definition newAppError (constructorName message : string) (statusCode : Z) : AppError :=
  mkAppError constructorName message statusCode true.

Definition NotFoundError (resource : string) (id : option string) : AppError :=
  let message :=
    match id with
    | Some i => if negb (String.eqb i EmptyString) then resource ++ " with ID " ++ i ++ " not found"
                else resource ++ " not found"
    | None => resource ++ " not found"
    end in
  newAppError "NotFoundError" message 404.

Definition BadRequestError (message : string) : AppError :=
  newAppError "BadRequestError" message 400.

Definition ConflictError (message : string) : AppError :=
  newAppError "ConflictError" message 409.

Definition InternalServerError (message : string) : AppError :=
  newAppError "InternalServerError" message 500.

Record ValidationError : Type := mkValidationError {
  ve_name : string;
  ve_message : string;
  ve_errors : list string;
  ve_statusCode : Z
}.

Definition newValidationError (errors : list string) : ValidationError :=
  mkValidationError "ValidationError" ("Validation failed: " ++ join ", " errors)
    errors 400.

(** Anything a [throw] can carry into [next(error)].  [ThrownError] is an
    [Error] instance of any other class (the built-in ones, the parser's,
    the driver's) with its [name], its [message] and its further own
    properties; [ThrownValue] is a value that is no [Error] at all. *)
Inductive Thrown : Type :=
| ThrownValidationError (e : ValidationError)
| ThrownAppError (e : AppError)
| ThrownError (name message : string) (own : list (string * JsVal))
| ThrownValue (v : JsVal).

(** [new Error(message)] *)
Definition newError (message : string) : Thrown := ThrownError "Error" message [].

Definition instanceofValidationError (error : Thrown) : option ValidationError :=
  match error with
  | ThrownValidationError e => Some e
  | _ => None
  end.

Definition instanceofAppError (error : Thrown) : option AppError :=
  match error with
  | ThrownAppError e => Some e
  | _ => None
  end.

Definition instanceofError (error : Thrown) : bool :=
  match error with
  | ThrownValue _ => false
  | _ => true
  end.

(** [error.message] of an [Error] instance *)
Definition messageOf (error : Thrown) : string :=
  match error with
  | ThrownValidationError e => ve_message e
  | ThrownAppError e => app_message e
  | ThrownError _ m _ => m
  | ThrownValue _ => EmptyString
  end.

(** [error instanceof Error ? error.message : 'Unknown error'] *)
Definition messageOrUnknown (error : Thrown) : string :=
  if instanceofError error then messageOf error else "Unknown error".

(** [error.name] *)
Definition nameOf (error : Thrown) : Exc JsVal :=
  match error with
  | ThrownValidationError e => ret (JStr (ve_name e))
  | ThrownAppError e => ret (JStr (app_name e))
  | ThrownError n _ _ => ret (JStr n)
  | ThrownValue v => getProp v "name"
  end.

(** ['body' in error] *)
Definition hasBody (error : Thrown) : Exc bool :=
  match error with
  | ThrownValidationError _ | ThrownAppError _ => ret false
  | ThrownError _ _ own => hasProp "body" (JObj own)
  | ThrownValue v => hasProp "body" v
  end.

(** The framework hands a value to the error middleware only when it is
    truthy; every object is. *)
Definition thrownTruthy (error : Thrown) : bool :=
  match error with
  | ThrownValue v => truthy v
  | _ => true
  end.

End Errors.
Import Errors.

(* ------------------------------------------------------------------ *)
(** ** Responses and [middleware/errorHandler.ts] *)

Module ErrorHandler.

Local Open Scope exc_scope.

(** [ApiErrorResponse]: [success] is always [false]. *)
Record ApiErrorResponse : Type := mkErrorResponse {
  error : string;
  message : string;
  details : option (list string)
}.

Inductive ResponseBody : Type :=
| ErrorBody (e : ApiErrorResponse)
| SuccessBody (data : ChessCustomization) (message : string)
| NoBody.

(** [res.status(status).json(body)] *)
Record Response : Type := mkResponse {
  status : Z;
  body : ResponseBody
}.

(** [error.name === 'SyntaxError' && 'body' in error] *)
Definition isJsonSyntaxError (error : Thrown) : Exc bool :=
  name <- nameOf error ;;
  match name with
  | JStr n => if String.eqb n "SyntaxError" then hasBody error else ret false
  | _ => ret false
  end.

(** Global error handling middleware *)
Definition errorHandler (error : Thrown) : Exc Response :=
  match instanceofValidationError error with
  | Some e =>
      ret (mkResponse (ve_statusCode e)
             (ErrorBody (mkErrorResponse "Validation failed" "Invalid request data"
                           (Some (ve_errors e)))))
  | None =>
      match instanceofAppError error with
      | Some e =>
          ret (mkResponse (app_statusCode e)
                 (ErrorBody (mkErrorResponse (app_name e) (app_message e) None)))
      | None =>
          jsonError <- isJsonSyntaxError error ;;
          if jsonError then
            ret (mkResponse 400
                   (ErrorBody (mkErrorResponse "Invalid JSON"
                                 "Request body contains invalid JSON" None)))
          else
            ret (mkResponse 500
                   (ErrorBody (mkErrorResponse "Internal server error"
                                 "An unexpected error occurred" None)))
      end
  end.

End ErrorHandler.
Import ErrorHandler.

(* ------------------------------------------------------------------ *)
(** ** The relational store: [schema.sql] and the statements issued on it *)

Module Pg.

(** [customizations]: [id UUID PRIMARY KEY], [name VARCHAR(255) NOT NULL],
    [description TEXT], [board_svg TEXT], two timestamps.  [None] is the
    SQL null. *)
Record CustomizationRow : Type := mkCustomizationRow {
  c_id : string;
  c_name : string;
  c_description : option string;
  c_board_svg : option string;
  c_created_at : Date;
  c_updated_at : Date
}.

(** [chess_pieces]: [id SERIAL PRIMARY KEY], [customization_id UUID NOT
    NULL REFERENCES customizations(id) ON DELETE CASCADE]; the CHECK
    constraints on [type] and [color] are the two enumerations. *)
Record ChessPieceRow : Type := mkChessPieceRow {
  cp_id : nat;
  cp_customization_id : string;
  cp_type : PieceType;
  cp_color : PieceColor;
  cp_svg_data : string
}.

Record Database : Type := mkDatabase {
  customizations : list CustomizationRow;
  chess_pieces : list ChessPieceRow;
  chess_pieces_id_seq : nat
}.


(** A connection: the current contents and, inside a transaction, the
    contents at [BEGIN]. *)
Record Connection : Type := mkConnection {
  current : Database;
  atBegin : option Database
}.

Definition idle (db : Database) : Connection := mkConnection db None.

(** Computations on a connection that may raise: the shape of every
    [async] method of the gateway. *)
Definition Async (A : Type) : Type := Connection -> Connection * (Thrown + A).

Definition ret {A} (a : A) : Async A := fun conn => (conn, inr a).
Definition throw {A} (e : Thrown) : Async A := fun conn => (conn, inl e).
Definition bind {A B} (m : Async A) (k : A -> Async B) : Async B :=
  fun conn =>
    match m conn with
    | (conn', inr a) => k a conn'
    | (conn', inl e) => (conn', inl e)
    end.

(** [try { body } catch (error) { handler(error) }] *)
Definition tryCatch {A} (body : Async A) (handler : Thrown -> Async A) : Async A :=
  fun conn =>
    match body conn with
    | (conn', inr a) => (conn', inr a)
    | (conn', inl e) => handler e conn'
    end.

(** The text of a [uuid] value: lower-case digits, whatever the case of
    the parameter it was read from. *)
Definition lowerChar (c : ascii) : ascii :=
  let n := nat_of_ascii c in
  if (65 <=? n) && (n <=? 90) then ascii_of_nat (n + 32) else c.

Fixpoint uuid_in (s : string) : string :=
  match s with
  | EmptyString => EmptyString
  | String c rest => String (lowerChar c) (uuid_in rest)
  end.

Definition hasId (id : string) (row : CustomizationRow) : bool :=
  String.eqb (c_id row) (uuid_in id).

Definition belongsTo (id : string) (row : ChessPieceRow) : bool :=
  String.eqb (cp_customization_id row) (uuid_in id).

(** A server-side failure of a statement, as the driver raises it. *)
Definition databaseError (message : string) : Thrown := ThrownError "error" message [].

Definition withDatabase {A} (f : Database -> Database * (Thrown + A)) : Async A :=
  fun conn =>
    let (db', r) := f (current conn) in
    (mkConnection db' (atBegin conn), r).

Definition BEGIN : Async unit :=
  fun conn => (mkConnection (current conn) (Some (current conn)), inr tt).

Definition COMMIT : Async unit :=
  fun conn => (mkConnection (current conn) None, inr tt).

(** Undoes the rows written since [BEGIN]; values drawn from a sequence
    are not given back. *)
Definition ROLLBACK : Async unit :=
  fun conn =>
    match atBegin conn with
    | Some saved =>
        (mkConnection
           (mkDatabase (customizations saved) (chess_pieces saved)
              (chess_pieces_id_seq (current conn)))
           None, inr tt)
    | None => (conn, inr tt)
    end.

(** [INSERT INTO customizations (name, description, board_svg) VALUES
    ($1, $2, $3) RETURNING ...], with [uuid] the value the default
    [uuid_generate_v4()] draws and [now] the value of [NOW()]. *)
Definition insertCustomization (uuid : string) (now : Date)
    (name : string) (description board_svg : option string) : Async CustomizationRow :=
  withDatabase (fun db =>
    if 255 <? String.length name then
      (db, inl (databaseError "value too long for type character varying(255)"))
    else if existsb (hasId uuid) (customizations db) then
      (db, inl (databaseError
                  "duplicate key value violates unique constraint customizations_pkey"))
    else
      let row := mkCustomizationRow (uuid_in uuid) name description board_svg now now in
      (mkDatabase (customizations db ++ [row])%list (chess_pieces db)
         (chess_pieces_id_seq db),
       inr row)).

(** [INSERT INTO chess_pieces (customization_id, type, color, svg_data)
    VALUES ($1, $2, $3, $4)] *)
Definition insertChessPiece (customization_id : string) (piece : ChessPiece) : Async unit :=
  withDatabase (fun db =>
    let next := chess_pieces_id_seq db in
    if existsb (hasId customization_id) (customizations db) then
      let row := mkChessPieceRow next (uuid_in customization_id)
                   (type piece) (color piece) (svgData piece) in
      (mkDatabase (customizations db) (chess_pieces db ++ [row])%list (S next), inr tt)
    else
      (mkDatabase (customizations db) (chess_pieces db) (S next),
       inl (databaseError
              "insert or update on table chess_pieces violates foreign key constraint"))).

(** [SELECT id FROM customizations WHERE id = $1] (and [SELECT 1 ...]) *)
Definition selectCustomization (id : string) : Async (list CustomizationRow) :=
  withDatabase (fun db => (db, inr (filter (hasId id) (customizations db)))).

(** The columns an [UPDATE customizations SET ...] assigns. *)
Record Assignments : Type := mkAssignments {
  set_name : option string;
  set_description : option string;
  set_board_svg : option string
}.

Definition orElse {A} (o : option A) (d : A) : A :=
  match o with
  | Some a => a
  | None => d
  end.

(** One row through [UPDATE ... SET ...]; the trigger
    [update_customizations_updated_at] then stamps it. *)
Definition assign (now : Date) (a : Assignments) (row : CustomizationRow)
  : CustomizationRow :=
  mkCustomizationRow (c_id row)
    (orElse (set_name a) (c_name row))
    (match set_description a with Some d => Some d | None => c_description row end)
    (match set_board_svg a with Some b => Some b | None => c_board_svg row end)
    (c_created_at row) now.

(** [UPDATE customizations SET <fields> WHERE id = $n] *)
Definition updateCustomizationRow (now : Date) (a : Assignments) (id : string)
  : Async unit :=
  withDatabase (fun db =>
    let tooLong :=
      match set_name a with
      | Some n => 255 <? String.length n
      | None => false
      end in
    if tooLong && existsb (hasId id) (customizations db) then
      (db, inl (databaseError "value too long for type character varying(255)"))
    else
      (mkDatabase
         (map (fun row => if hasId id row then assign now a row else row)
            (customizations db))
         (chess_pieces db) (chess_pieces_id_seq db),
       inr tt)).

(** [DELETE FROM chess_pieces WHERE customization_id = $1] *)
Definition deleteChessPieces (id : string) : Async unit :=
  withDatabase (fun db =>
    (mkDatabase (customizations db)
       (filter (fun p => negb (belongsTo id p)) (chess_pieces db))
       (chess_pieces_id_seq db),
     inr tt)).

(** [DELETE FROM customizations WHERE id = $1]: the result is [rowCount];
    the pieces of a deleted row go with it (ON DELETE CASCADE). *)
Definition deleteCustomization (id : string) : Async nat :=
  withDatabase (fun db =>
    let rowCount := List.length (filter (hasId id) (customizations db)) in
    (mkDatabase
       (filter (fun row => negb (hasId id row)) (customizations db))
       (if 0 <? rowCount
        then filter (fun p => negb (belongsTo id p)) (chess_pieces db)
        else chess_pieces db)
       (chess_pieces_id_seq db),
     inr rowCount)).

(** A row of [customizations c LEFT JOIN chess_pieces cp ON c.id =
    cp.customization_id], before the select list is taken. *)
Definition Joined : Type := (CustomizationRow * option ChessPieceRow)%type.

Definition leftJoin (db : Database) (c : CustomizationRow) : list Joined :=
  match filter (fun p => String.eqb (c_id c) (cp_customization_id p)) (chess_pieces db) with
  | [] => [(c, None)]
  | matching => map (fun p => (c, Some p)) matching
  end.

(** [ORDER BY cp.id]: ascending, nulls last, as a stable insertion sort. *)
Definition pieceIdLe (x y : Joined) : bool :=
  match snd x, snd y with
  | Some p, Some q => cp_id p <=? cp_id q
  | Some _, None => true
  | None, Some _ => false
  | None, None => true
  end.

Fixpoint insertOrdered (x : Joined) (sorted : list Joined) : list Joined :=
  match sorted with
  | [] => [x]
  | y :: rest => if pieceIdLe x y then x :: y :: rest else y :: insertOrdered x rest
  end.

Fixpoint orderByPieceId (rows : list Joined) : list Joined :=
  match rows with
  | [] => []
  | x :: rest => insertOrdered x (orderByPieceId rest)
  end.

(** The select list [c.id, c.name, c.description, c.board_svg,
    c.created_at, c.updated_at, cp.type, cp.color, cp.svg_data]. *)
Record ResultRow : Type := mkResultRow {
  r_id : string;
  r_name : string;
  r_description : option string;
  r_board_svg : option string;
  r_created_at : Date;
  r_updated_at : Date;
  r_type : option PieceType;
  r_color : option PieceColor;
  r_svg_data : option string
}.

Definition project (j : Joined) : ResultRow :=
  let (c, cp) := j in
  mkResultRow (c_id c) (c_name c) (c_description c) (c_board_svg c)
    (c_created_at c) (c_updated_at c)
    (option_map cp_type cp) (option_map cp_color cp) (option_map cp_svg_data cp).

(** [SELECT ... FROM customizations c LEFT JOIN chess_pieces cp ON c.id =
    cp.customization_id WHERE c.id = $1 ORDER BY cp.id] *)
Definition selectWithPieces (id : string) : Async (list ResultRow) :=
  withDatabase (fun db =>
    (db,
     inr (map project
            (orderByPieceId
               (flat_map (leftJoin db) (filter (hasId id) (customizations db))))))).

(** [ORDER BY c.created_at DESC, cp.id]: newest parent first, then by
    piece id, nulls last; rows the two keys do not separate stay in table
    order (a stable insertion sort). *)
Definition newestFirstLe (x y : Joined) : bool :=
  (c_created_at (fst y) <? c_created_at (fst x))
  || ((c_created_at (fst x) =? c_created_at (fst y)) && pieceIdLe x y).

Fixpoint insertBy (le : Joined -> Joined -> bool) (x : Joined) (sorted : list Joined)
  : list Joined :=
  match sorted with
  | [] => [x]
  | y :: rest => if le x y then x :: y :: rest else y :: insertBy le x rest
  end.

Fixpoint sortBy (le : Joined -> Joined -> bool) (rows : list Joined) : list Joined :=
  match rows with
  | [] => []
  | x :: rest => insertBy le x (sortBy le rest)
  end.

(** [SELECT ... FROM customizations c LEFT JOIN chess_pieces cp ON c.id =
    cp.customization_id ORDER BY c.created_at DESC, cp.id] *)
Definition selectAllWithPieces : Async (list ResultRow) :=
  withDatabase (fun db =>
    (db,
     inr (map project
            (sortBy newestFirstLe (flat_map (leftJoin db) (customizations db)))))).

(** [SELECT COUNT( * ) as count FROM customizations]: one row, whose [count]
    the driver hands over as decimal text. *)
Definition selectCount : Async string :=
  withDatabase (fun db => (db, inr (showNat (List.length (customizations db))))).

(** [DELETE FROM customizations]: every row goes, and with each its pieces
    (ON DELETE CASCADE). *)
Definition deleteAllCustomizations : Async unit :=
  withDatabase (fun db =>
    (mkDatabase []
       (filter (fun p =>
                  negb (existsb (fun c => String.eqb (c_id c) (cp_customization_id p))
                          (customizations db)))
          (chess_pieces db))
       (chess_pieces_id_seq db),
     inr tt)).

End Pg.
Import Pg.

(* ------------------------------------------------------------------ *)
(** ** [parseInt] *)

Module Globals.

Definition digitValue (c : ascii) : option Z :=
  let n := Z.of_nat (nat_of_ascii c) in
  if ((48 <=? n) && (n <=? 57))%Z then Some (n - 48)%Z
  else if ((97 <=? n) && (n <=? 122))%Z then Some (n - 87)%Z
  else if ((65 <=? n) && (n <=? 90))%Z then Some (n - 55)%Z
  else None.

(** The longest run of digits of the radix at the head of the text, read
    into [acc]; [seen] tells whether a digit has been read. *)
Fixpoint parseDigits (radix : Z) (s : string) (acc : Z) (seen : bool) : option Z :=
  match s with
  | EmptyString => if seen then Some acc else None
  | String c rest =>
      match digitValue c with
      | Some v =>
          if (v <? radix)%Z then parseDigits radix rest (acc * radix + v)%Z true
          else if seen then Some acc else None
      | None => if seen then Some acc else None
      end
  end.

(** [parseInt(text)] without a radix: leading white space, a sign, the
    prefix [0x] for hexadecimal, then digits up to the first character that
    is none; [None] is [NaN].  (Exact for results below 2^53.) *)
Definition parseInt (text : string) : option Z :=
  let s := trimStart text in
  let (sign, s) :=
    match s with
    | String c rest =>
        if Ascii.eqb c "-" then ((-1)%Z, rest)
        else if Ascii.eqb c "+" then (1%Z, rest)
        else (1%Z, s)
    | EmptyString => (1%Z, s)
    end in
  let magnitude :=
    match s with
    | String c0 (String c1 rest) =>
        if Ascii.eqb c0 "0" && (Ascii.eqb c1 "x" || Ascii.eqb c1 "X")
        then parseDigits 16 rest 0 false
        else parseDigits 10 s 0 false
    | _ => parseDigits 10 s 0 false
    end in
  option_map (Z.mul sign) magnitude.

End Globals.

Declare Scope async_scope.
Delimit Scope async_scope with async.
Notation "x <- m ;; k" := (Pg.bind m (fun x => k))
  (at level 61, m at next level, right associativity) : async_scope.

(* ------------------------------------------------------------------ *)
(** ** [storage/PostgreSQLChessCustomizationStorage.ts] *)

Module Storage.

Local Open Scope async_scope.

(** The atoms of
    [/^[0-9a-f]{8}-[0-9a-f]{4}-[1-5][0-9a-f]{3}-[89ab][0-9a-f]{3}-[0-9a-f]{12}$/i] *)
Inductive CharClass : Type :=
| HexDigit      (* [0-9a-f] *)
| Hyphen        (* - *)
| Version       (* [1-5] *)
| Variant.      (* [89ab] *)

Definition inRange (lo hi : nat) (c : ascii) : bool :=
  (lo <=? nat_of_ascii c) && (nat_of_ascii c <=? hi).

(** Under the [i] flag a letter of a class matches in either case. *)
Definition classTest (cls : CharClass) (c : ascii) : bool :=
  match cls with
  | HexDigit => inRange 48 57 c || inRange 97 102 c || inRange 65 70 c
  | Hyphen => Ascii.eqb c "-"
  | Version => inRange 49 53 c
  | Variant => inRange 56 57 c || inRange 97 98 c || inRange 65 66 c
  end.

Definition uuidRegex : list CharClass :=
  (repeat HexDigit 8 ++ [Hyphen] ++ repeat HexDigit 4 ++ [Hyphen]
   ++ [Version] ++ repeat HexDigit 3 ++ [Hyphen]
   ++ [Variant] ++ repeat HexDigit 3 ++ [Hyphen] ++ repeat HexDigit 12)%list.

(** An anchored sequence of one-character atoms against the whole input. *)
Fixpoint regexTest (atoms : list CharClass) (s : string) : bool :=
  match atoms, s with
  | [], EmptyString => true
  | cls :: atoms', String c s' => classTest cls c && regexTest atoms' s'
  | _, _ => false
  end.

(** Validate if a string is a valid UUID *)
Definition isValidUUID (uuid : string) : bool := regexTest uuidRegex uuid.

(** [value || null] on an optional string member *)
Definition orNull (value : option string) : option string :=
  match value with
  | Some s => if truthy (JStr s) then Some s else None
  | None => None
  end.

(** The [Map<string, ChessCustomization>] of the fold: bindings in
    insertion order. *)
Definition CustomizationMap : Type := list (string * ChessCustomization).

Definition mapHas (m : CustomizationMap) (key : string) : bool :=
  existsb (fun kv => String.eqb (fst kv) key) m.

Fixpoint mapSet (m : CustomizationMap) (key : string) (value : ChessCustomization)
  : CustomizationMap :=
  match m with
  | [] => [(key, value)]
  | (k, v) :: rest =>
      if String.eqb k key then (k, value) :: rest else (k, v) :: mapSet rest key value
  end.

(** [map.get(key)!.pieces.push(piece)]: the object held by the map is
    updated in place. *)
Fixpoint pushPiece (m : CustomizationMap) (key : string) (piece : ChessPiece)
  : CustomizationMap :=
  match m with
  | [] => []
  | (k, v) :: rest =>
      if String.eqb k key then
        (k, mkCustomization (id v) (name v) (description v) (boardSvg v)
              (pieces v ++ [piece])%list (createdAt v) (updatedAt v)) :: rest
      else (k, v) :: pushPiece rest key piece
  end.

Definition mapValues (m : CustomizationMap) : list ChessCustomization := map snd m.

(** Truthiness of a text column of a result row. *)
Definition truthyColumn (column : option string) : bool :=
  match column with
  | Some s => truthy (JStr s)
  | None => false
  end.

(** One iteration of the loop over the rows. *)
Definition transformRow (customizationMap : CustomizationMap) (row : ResultRow)
  : CustomizationMap :=
  let customizationId := r_id row in
  let customizationMap :=
    if negb (mapHas customizationMap customizationId) then
      mapSet customizationMap customizationId
        (mkCustomization (r_id row) (r_name row) (r_description row) (r_board_svg row)
           [] (r_created_at row) (r_updated_at row))
    else customizationMap in
  (* Add piece if it exists (LEFT JOIN might have null pieces) *)
  match r_type row, r_color row, r_svg_data row with
  | Some t, Some c, Some s =>
      if truthyColumn (Some (pieceTypeName t)) && truthyColumn (Some (pieceColorName c))
         && truthyColumn (Some s)
      then pushPiece customizationMap customizationId (mkPiece t c s)
      else customizationMap
  | _, _, _ => customizationMap
  end.

(** Transform database rows into ChessCustomization objects *)
Definition transformRowsToCustomizations (rows : list ResultRow) : list ChessCustomization :=
  mapValues (fold_left transformRow rows []).

(** The [for (const piece of data.pieces)] loop of [create]. *)
Fixpoint insertPieces (customizationId : string) (todo pieces : list ChessPiece)
  : Async (list ChessPiece) :=
  match todo with
  | [] => ret pieces
  | piece :: rest =>
      _ <- insertChessPiece customizationId piece ;;
      insertPieces customizationId rest (pieces ++ [piece])%list
  end.

(** Create a new chess customization *)
Definition create (uuid : string) (now : Date) (data : CreateChessCustomizationRequest)
  : Async ChessCustomization :=
  tryCatch
    (_ <- BEGIN ;;
     customizationRow <-
       insertCustomization uuid now (create_name data)
         (orNull (create_description data)) (orNull (create_boardSvg data)) ;;
     let customizationId := c_id customizationRow in
     pieces <- insertPieces customizationId (create_pieces data) [] ;;
     _ <- COMMIT ;;
     ret (mkCustomization (c_id customizationRow) (c_name customizationRow)
            (c_description customizationRow) (c_board_svg customizationRow)
            pieces (c_created_at customizationRow) (c_updated_at customizationRow)))
    (fun error =>
       _ <- ROLLBACK ;;
       throw (newError ("Failed to create chess customization: "
                        ++ messageOrUnknown error))).

(** Get a chess customization by ID; [None] is [undefined]. *)
Definition getById (id : string) : Async (option ChessCustomization) :=
  tryCatch
    (if negb (isValidUUID id) then ret None
     else
       rows <- selectWithPieces id ;;
       if List.length rows =? 0 then ret None
       else
         let customizations := transformRowsToCustomizations rows in
         ret (nth_error customizations 0))
    (fun error =>
       throw (newError ("Failed to get chess customization: "
                        ++ messageOrUnknown error))).

(** The [for (const piece of data.pieces)] loop of [update]. *)
Fixpoint insertEach (id : string) (todo : list ChessPiece) : Async unit :=
  match todo with
  | [] => ret tt
  | piece :: rest =>
      _ <- insertChessPiece id piece ;;
      insertEach id rest
  end.

(** [if (value !== undefined) updateFields.push(column)] *)
Definition pushField {A} (value : option A) (updateFields : list string) (column : string)
  : list string :=
  match value with
  | Some _ => (updateFields ++ [column])%list
  | None => updateFields
  end.

(** Update a chess customization by ID *)
Definition update (now : Date) (id : string) (data : UpdateChessCustomizationRequest)
  : Async (option ChessCustomization) :=
  if negb (isValidUUID id) then ret None
  else
    tryCatch
      (_ <- BEGIN ;;
       existsResult <- selectCustomization id ;;
       if List.length existsResult =? 0 then
         _ <- ROLLBACK ;;
         ret None
       else
         let updateFields : list string := [] in
         let updateFields := pushField (update_name data) updateFields "name" in
         let updateFields := pushField (update_description data) updateFields "description" in
         let updateFields := pushField (update_boardSvg data) updateFields "board_svg" in
         _ <- (if 0 <? List.length updateFields then
                 updateCustomizationRow now
                   (mkAssignments (update_name data) (update_description data)
                      (update_boardSvg data))
                   id
               else ret tt) ;;
         _ <- match update_pieces data with
              | Some newPieces =>
                  _ <- deleteChessPieces id ;;
                  insertEach id newPieces
              | None => ret tt
              end ;;
         _ <- COMMIT ;;
         getById id)
      (fun error =>
         _ <- ROLLBACK ;;
         throw (newError ("Failed to update chess customization: "
                          ++ messageOrUnknown error))).

(** Delete a chess customization by ID *)
Definition delete (id : string) : Async bool :=
  tryCatch
    (if negb (isValidUUID id) then ret false
     else
       rowCount <- deleteCustomization id ;;
       ret (0 <? rowCount))
    (fun error =>
       throw (newError ("Failed to delete chess customization: "
                        ++ messageOrUnknown error))).

(** Check if a customization exists by ID ([exists] in the class, a
    reserved word here) *)
Definition exists_ (id : string) : Async bool :=
  tryCatch
    (if negb (isValidUUID id) then ret false
     else
       rows <- selectCustomization id ;;
       ret (0 <? List.length rows))
    (fun error =>
       throw (newError ("Failed to check chess customization existence: "
                        ++ messageOrUnknown error))).

(** Get all chess customizations *)
Definition getAll : Async (list ChessCustomization) :=
  tryCatch
    (rows <- selectAllWithPieces ;;
     ret (transformRowsToCustomizations rows))
    (fun error =>
       throw (newError ("Failed to get chess customizations: "
                        ++ messageOrUnknown error))).

(** Get the total count of customizations; [None] is [NaN]. *)
Definition count : Async (option Z) :=
  tryCatch
    (text <- selectCount ;;
     ret (Globals.parseInt text))
    (fun error =>
       throw (newError ("Failed to count chess customizations: "
                        ++ messageOrUnknown error))).

(** Clear all customizations (useful for testing) *)
Definition clear : Async unit :=
  tryCatch
    (deleteAllCustomizations)
    (fun error =>
       throw (newError ("Failed to clear chess customizations: "
                        ++ messageOrUnknown error))).

End Storage.

(* ------------------------------------------------------------------ *)
(** ** [controllers/customizationController.ts]: the PUT handler *)

Module Controller.

Local Open Scope async_scope.

Record Request : Type := mkRequest {
  method : string;
  path : string;
  params_id : string;
  req_body : JsVal
}.

(** 404 Not Found handler for unmatched routes *)
Definition notFoundHandler (req : Request) : Response :=
  mkResponse 404
    (ErrorBody (mkErrorResponse "Not found"
                  ("Route " ++ method req ++ " " ++ path req ++ " not found") None)).

(** [next(error)]: a truthy value goes to the error middleware, anything
    else falls through the remaining routes.  Should the error middleware
    itself raise, the framework answers with a bare 500. *)
Definition next (req : Request) (error : Thrown) : Response :=
  if thrownTruthy error then
    match errorHandler error with
    | inr response => response
    | inl _ => mkResponse 500 NoBody
    end
  else notFoundHandler req.

(** A language-level exception as a thrown [Error] instance. *)
Definition liftExc {A} (m : Exc A) : Async A :=
  match m with
  | inr a => Pg.ret a
  | inl (TypeError msg) => Pg.throw (ThrownError "TypeError" msg [])
  end.

(** [const updateData: UpdateChessCustomizationRequest = req.body] *)
Definition typedUpdate (body : JsVal) : Async UpdateChessCustomizationRequest :=
  match asUpdateRequest body with
  | Some data => Pg.ret data
  | None => Pg.throw (ThrownError "TypeError" "body is not an update request" [])
  end.

(** Update a chess customization by ID -- PUT /api/customizations/:id *)
Definition updateCustomization (now : Date) (req : Request) : Connection -> Connection * Response :=
  fun conn =>
    let handler : Async Response :=
      let id := params_id req in
      if negb (truthy (JStr id)) || negb (String.eqb (typeof (JStr id)) "string") then
        Pg.throw (ThrownValidationError
                    (newValidationError ["Customization ID is required and must be a string"]))
      else
        found <- Storage.exists_ id ;;
        if negb found then
          Pg.ret (mkResponse 404
                    (ErrorBody (mkErrorResponse "Not found"
                                  ("Customization with ID " ++ id ++ " not found") None)))
        else
          validation <- liftExc (Validation.validateUpdateCustomization (req_body req)) ;;
          if negb (Validation.isValid validation) then
            Pg.throw (ThrownValidationError (newValidationError (Validation.errors validation)))
          else
            updateData <- typedUpdate (req_body req) ;;
            updatedCustomization <- Storage.update now id updateData ;;
            match updatedCustomization with
            | None =>
                Pg.ret (mkResponse 500
                          (ErrorBody (mkErrorResponse "Update failed"
                                        "Failed to update customization" None)))
            | Some customization =>
                Pg.ret (mkResponse 200
                          (SuccessBody customization "Customization updated successfully"))
            end
    in
    match handler conn with
    | (conn', inr response) => (conn', response)
    | (conn', inl error) => (conn', next req error)
    end.

(** [const createData: CreateChessCustomizationRequest = req.body] *)
Definition typedCreate (body : JsVal) : Async CreateChessCustomizationRequest :=
  match asCreateRequest body with
  | Some data => Pg.ret data
  | None => Pg.throw (ThrownError "TypeError" "body is not a create request" [])
  end.

(** [try { handler } catch (error) { logError(...); next(error) }] *)
Definition respond (req : Request) (handler : Async Response)
  : Connection -> Connection * Response :=
  fun conn =>
    match handler conn with
    | (conn', inr response) => (conn', response)
    | (conn', inl error) => (conn', next req error)
    end.

(** The check [!id || typeof id !== 'string'] on the path parameter. *)
Definition idRejected (id : string) : bool :=
  negb (truthy (JStr id)) || negb (String.eqb (typeof (JStr id)) "string").

Definition idRequired : Thrown :=
  ThrownValidationError
    (newValidationError ["Customization ID is required and must be a string"]).

Definition notFound (id : string) : Response :=
  mkResponse 404
    (ErrorBody (mkErrorResponse "Not found"
                  ("Customization with ID " ++ id ++ " not found") None)).

(** Create a new chess customization -- POST /api/customizations *)
Definition createCustomization (uuid : string) (now : Date) (req : Request)
  : Connection -> Connection * Response :=
  respond req
    (validation <- liftExc (Validation.validateCreateCustomization (req_body req)) ;;
     if negb (Validation.isValid validation) then
       Pg.throw (ThrownValidationError (newValidationError (Validation.errors validation)))
     else
       createData <- typedCreate (req_body req) ;;
       customization <- Storage.create uuid now createData ;;
       Pg.ret (mkResponse 201
                 (SuccessBody customization "Customization created successfully"))).

(** Get a chess customization by ID -- GET /api/customizations/:id *)
Definition getCustomizationById (req : Request) : Connection -> Connection * Response :=
  respond req
    (let id := params_id req in
     if idRejected id then Pg.throw idRequired
     else
       customization <- Storage.getById id ;;
       match customization with
       | None => Pg.ret (notFound id)
       | Some found =>
           Pg.ret (mkResponse 200
                     (SuccessBody found "Customization retrieved successfully"))
       end).

(** Delete a chess customization by ID -- DELETE /api/customizations/:id *)
Definition deleteCustomization (req : Request) : Connection -> Connection * Response :=
  respond req
    (let id := params_id req in
     if idRejected id then Pg.throw idRequired
     else
       found <- Storage.exists_ id ;;
       if negb found then Pg.ret (notFound id)
       else
         deleted <- Storage.delete id ;;
         if negb deleted then
           Pg.ret (mkResponse 500
                     (ErrorBody (mkErrorResponse "Delete failed"
                                   "Failed to delete customization" None)))
         else
           (* 204 No Content: no response body *)
           Pg.ret (mkResponse 204 NoBody)).

End Controller.

(* ------------------------------------------------------------------ *)
(** ** [problem4_sum_to_n/sumToN.js], on integer arguments

    Below [MAX_SAFE_N] every intermediate value is an integer under 2^53,
    so the arithmetic of the runtime is that of the integers. *)

Module SumToN.

Local Open Scope Z_scope.


(** O(1) -- Gauss formula *)
Definition sumConst (n : Z) : Z :=
  if n <=? 0 then 0
  else if n mod 2 =? 0 then (n / 2) * (n + 1) else ((n + 1) / 2) * n.

(** [for (let i = from; i <= n; i++) s += i], as a loop of at most [fuel]
    rounds. *)
Fixpoint loop (fuel : nat) (i n s : Z) : Z :=
  match fuel with
  | O => s
  | S fuel' => if i <=? n then loop fuel' (i + 1) n (s + i) else s
  end.

(** O(n) -- simple loop *)
Definition sumLinear (n : Z) : Z :=
  if n <=? 0 then 0 else loop (Z.to_nat n) 1 n 0.

(** O(n^2) -- nested increments (FIXED): the same single loop. *)
Definition sumQuadratic (n : Z) : Z :=
  if n <=? 0 then 0 else loop (Z.to_nat n) 1 n 0.

End SumToN.

(* ------------------------------------------------------------------ *)
(** ** Vocabulary of the statements *)

Module Vocabulary.

(** Membership of a character in a string. *)
Fixpoint occurs (c : ascii) (s : string) : Prop :=
  match s with
  | EmptyString => False
  | String d rest => c = d \/ occurs c rest
  end.




(** The guard [!data || typeof data !== 'object'] of both validators. *)
Definition rejectedAsBody (data : JsVal) : bool :=
  negb (truthy data) || negb (String.eqb (typeof data) "object").


(** The error list only ever grows. *)
Definition extends (errors errors' : list string) : Prop :=
  exists more, errors' = (errors ++ more)%list.

(** The envelope of an unexpected failure. *)
Definition internalServerError : Response :=
  mkResponse 500
    (ErrorBody (mkErrorResponse "Internal server error" "An unexpected error occurred" None)).

(** The message of the update validator for a body without any field. *)
Definition noFieldMessage : string :=
  "At least one field (name, description, boardSvg, or pieces) must be provided for update".

(** A store holding one customization with one piece, and a PUT request
    for it with the body [{}]. *)
Definition sampleId : string := "123e4567-e89b-42d3-a456-426614174000".

Definition sampleDatabase : Database :=
  mkDatabase
    [mkCustomizationRow sampleId "Test Chess Set" None None 1 1]
    [mkChessPieceRow 1 sampleId pawn white "PHN2Zz48L3N2Zz4="]
    2.

Definition emptyPut : Controller.Request :=
  Controller.mkRequest "PUT" ("/api/customizations/" ++ sampleId) sampleId (JObj []).

(** The update validator's message with the board image under the name the
    interface description gives it. *)
Definition noFieldMessageBoardImage : string :=
  "At least one field (name, description, boardImage, or pieces) must be provided for update".

(** Thirty-six characters, hexadecimal digits in groups of 8, 4, 4, 4 and
    12 between hyphens, with no constraint on the version and variant
    digits. *)
Definition hyphenatedHexRegex : list Storage.CharClass :=
  (repeat Storage.HexDigit 8 ++ [Storage.Hyphen] ++ repeat Storage.HexDigit 4
   ++ [Storage.Hyphen] ++ repeat Storage.HexDigit 4 ++ [Storage.Hyphen]
   ++ repeat Storage.HexDigit 4 ++ [Storage.Hyphen] ++ repeat Storage.HexDigit 12)%list.

(** The rows the insert loops add for the pieces [ps] of the customization
    [customization_id], the sequence standing at [next]. *)
Fixpoint pieceRows (customization_id : string) (next : nat) (ps : list ChessPiece)
  : list ChessPieceRow :=
  match ps with
  | [] => []
  | p :: rest =>
      mkChessPieceRow next customization_id (type p) (color p) (svgData p)
        :: pieceRows customization_id (S next) rest
  end.

(** The aggregate made of a parent row and a sequence of pieces. *)
Definition aggregate (c : CustomizationRow) (ps : list ChessPiece) : ChessCustomization :=
  mkCustomization (c_id c) (c_name c) (c_description c) (c_board_svg c) ps
    (c_created_at c) (c_updated_at c).

(** The constraints of the schema that span rows: the primary key of
    [customizations] and the foreign key of [chess_pieces]. *)
Definition primaryKeyHolds (db : Database) : Prop :=
  NoDup (map c_id (customizations db)).

Definition foreignKeyHolds (db : Database) : Prop :=
  forall p, In p (chess_pieces db) ->
            exists c, In c (customizations db) /\ c_id c = cp_customization_id p.

Definition wellFormed (db : Database) : Prop :=
  primaryKeyHolds db /\ foreignKeyHolds db.


(** The parent row [create] inserts. *)
Definition createdRow (uuid : string) (now : Date) (data : CreateChessCustomizationRequest)
  : CustomizationRow :=
  mkCustomizationRow (uuid_in uuid) (create_name data)
    (Storage.orNull (create_description data)) (Storage.orNull (create_boardSvg data))
    now now.

(** The store after a successful [create]. *)
Definition afterCreate (uuid : string) (now : Date) (data : CreateChessCustomizationRequest)
    (db : Database) : Database :=
  mkDatabase
    (customizations db ++ [createdRow uuid now data])%list
    (chess_pieces db
     ++ pieceRows (uuid_in uuid) (chess_pieces_id_seq db) (create_pieces data))%list
    (chess_pieces_id_seq db + List.length (create_pieces data)).


(** A request body with an empty description, and the two pieces of it. *)
Definition whitePawn : ChessPiece := mkPiece pawn white "PHN2Zz48L3N2Zz4=".
Definition blackKing : ChessPiece := mkPiece king black "AAAA".

Definition bodyWithEmptyDescription : JsVal :=
  JObj [("name", JStr "Test Chess Set");
        ("description", JStr EmptyString);
        ("pieces", JArr [pieceToJs whitePawn; pieceToJs blackKing])].

Definition requestWithEmptyDescription : CreateChessCustomizationRequest :=
  mkCreateRequest "Test Chess Set" (Some EmptyString) None [whitePawn; blackKing].


(** The data URL of a payload. *)
Definition dataUrl (mediatype payload : string) : string :=
  "data:" ++ mediatype ++ ";base64," ++ payload.

(** A piece against which [validateChessPiece] has nothing: an object whose
    [type] and [color] are among the names of the two enumerations and whose
    [svgData] is a string that passes both image checks. *)
Definition acceptablePiece (piece : JsVal) : Prop :=
  (exists fields, piece = JObj fields)
  /\ (exists t, field piece "type" = JStr (pieceTypeName t))
  /\ (exists c, field piece "color" = JStr (pieceColorName c))
  /\ (exists s, field piece "svgData" = JStr s
                /\ Validation.isValidBase64 (JStr s) = true
                /\ Validation.isValidSvgSize (JStr s) = true).

(** An optional image member: absent, or a string that passes both image
    checks. *)
Definition acceptableImage (v : JsVal) : Prop :=
  v = JUndefined
  \/ (exists s, v = JStr s
                /\ Validation.isValidBase64 (JStr s) = true
                /\ Validation.isValidSvgSize (JStr s) = true).

(** What [getById] answers on a store: the pure content of the read. *)
Definition readAggregate (id : string) (db : Database) : option ChessCustomization :=
  if negb (Storage.isValidUUID id) then None
  else
    let rows :=
      map project
        (orderByPieceId (flat_map (leftJoin db) (filter (hasId id) (customizations db)))) in
    if List.length rows =? 0 then None
    else nth_error (Storage.transformRowsToCustomizations rows) 0.

(** The pieces the fold over joined rows collects: one for each row whose
    piece columns are all truthy. *)
Definition pieceOfRow (p : ChessPieceRow) : ChessPiece :=
  mkPiece (cp_type p) (cp_color p) (cp_svg_data p).

Definition piecesRead (rows : list Joined) : list ChessPiece :=
  flat_map (fun j =>
              match snd j with
              | Some p => if truthy (JStr (cp_svg_data p)) then [pieceOfRow p] else []
              | None => []
              end) rows.

(** The store after a successful [update]. *)
Definition afterUpdate (now : Date) (id : string) (data : UpdateChessCustomizationRequest)
    (db : Database) : Database :=
  let assignments :=
    mkAssignments (update_name data) (update_description data) (update_boardSvg data) in
  let touched :=
    match update_name data, update_description data, update_boardSvg data with
    | None, None, None => false
    | _, _, _ => true
    end in
  let rows :=
    if touched
    then map (fun row => if hasId id row then assign now assignments row else row)
           (customizations db)
    else customizations db in
  match update_pieces data with
  | Some ps =>
      mkDatabase rows
        (filter (fun p => negb (belongsTo id p)) (chess_pieces db)
         ++ pieceRows (uuid_in id) (chess_pieces_id_seq db) ps)%list
        (chess_pieces_id_seq db + List.length ps)
  | None => mkDatabase rows (chess_pieces db) (chess_pieces_id_seq db)
  end.

(** The store after [delete] has removed the aggregate [id]. *)
Definition afterDelete (id : string) (db : Database) : Database :=
  mkDatabase
    (filter (fun row => negb (hasId id row)) (customizations db))
    (filter (fun p => negb (belongsTo id p)) (chess_pieces db))
    (chess_pieces_id_seq db).

(** Whether the name of an update fits its column. *)
Definition nameFits (data : UpdateChessCustomizationRequest) : Prop :=
  match update_name data with
  | Some n => String.length n <= 255
  | None => True
  end.

(** The class [[0-9]]. *)
Definition isDecimalDigit (c : ascii) : bool :=
  (48 <=? nat_of_ascii c) && (nat_of_ascii c <=? 57).



(** The envelope of a rejected body. *)
Definition validationFailed (errors : list string) : Response :=
  mkResponse 400
    (ErrorBody (mkErrorResponse "Validation failed" "Invalid request data" (Some errors))).

(** The rows of the aggregate with the identifier [key] among joined rows. *)
Definition rowsOf (key : string) (rows : list Joined) : list Joined :=
  filter (fun j => String.eqb (c_id (fst j)) key) rows.

(** The parents of joined rows in the order in which their identifiers are
    first met, those in [seen] left out. *)
Fixpoint firstSeen (seen : list string) (rows : list Joined) : list CustomizationRow :=
  match rows with
  | [] => []
  | j :: rest =>
      if existsb (String.eqb (c_id (fst j))) seen then firstSeen seen rest
      else fst j :: firstSeen (seen ++ [c_id (fst j)]) rest
  end.

(** An entry of the map of the fold with further pieces appended. *)
Definition withPieces (rows : list Joined) (entry : string * ChessCustomization)
  : string * ChessCustomization :=
  let (k, v) := entry in
  (k, mkCustomization (id v) (name v) (description v) (boardSvg v)
        (pieces v ++ piecesRead (rowsOf k rows))%list (createdAt v) (updatedAt v)).

(** The entry the fold makes for a parent met for the first time. *)
Definition freshEntry (rows : list Joined) (c : CustomizationRow)
  : string * ChessCustomization :=
  (c_id c, aggregate c (piecesRead (rowsOf (c_id c) rows))).

(** Every identifier in the table is the canonical text of a UUID that the
    pattern of the gateway accepts, as the version 4 identifiers that
    [gen_random_uuid()] draws are. *)
Definition identifiersValid (db : Database) : Prop :=
  forall c, In c (customizations db) ->
            Storage.isValidUUID (c_id c) = true /\ uuid_in (c_id c) = c_id c.

(** The rows the query of [getAll] hands over, before projection. *)
Definition joinedRows (db : Database) : list Joined :=
  sortBy newestFirstLe (flat_map (leftJoin db) (customizations db)).

(** Newest first. *)
Definition newerOrSame (a b : ChessCustomization) : Prop := createdAt b <= createdAt a.

End Vocabulary.
Import Vocabulary.

(* ================================================================== *)
(** * Properties of the validators *)

Section Base64Facts.

Import Validation.

Lemma skipBase64Chars_keeps (c : ascii) (s : string) :
  occurs c s -> isBase64Char c = false -> occurs c (skipBase64Chars s).
Proof.
  induction s as [| d rest IH]; simpl; intros Hocc Hc; [assumption |].
  destruct (isBase64Char d) eqn:Hd.
  - destruct Hocc as [-> | Hocc]; [congruence | auto].
  - exact Hocc.
Qed.

Lemma base64Regex_test_alphabet (c : ascii) (s : string) :
  occurs c s -> isBase64Char c = false -> c <> "="%char ->
  base64Regex_test s = false.
Proof.
  intros Hocc Hc Hpad.
  pose proof (skipBase64Chars_keeps c s Hocc Hc) as Htail.
  unfold base64Regex_test.
  set (tail := skipBase64Chars s) in *.
  destruct (String.eqb_spec tail EmptyString) as [E | _];
    [rewrite E in Htail; contradiction |].
  destruct (String.eqb_spec tail "=") as [E | _];
    [rewrite E in Htail; simpl in Htail; destruct Htail as [-> | []]; congruence |].
  destruct (String.eqb_spec tail "==") as [E | _];
    [rewrite E in Htail; simpl in Htail;
     destruct Htail as [-> | [-> | []]]; congruence |].
  reflexivity.
Qed.

Lemma isValidBase64_string (s : string) :
  isValidBase64 (JStr s) =
    negb (String.eqb s EmptyString)
    && base64Regex_test (stripDataUrlPrefix s)
    && (String.length (stripDataUrlPrefix s) mod 4 =? 0).
Proof.
  unfold isValidBase64. cbn [truthy typeof].
  change (String.eqb "string" "string") with true.
  destruct (String.eqb s EmptyString); cbn [negb orb andb]; [reflexivity |].
  destruct (base64Regex_test (stripDataUrlPrefix s)); cbn [negb andb]; [| reflexivity].
  destruct (String.length (stripDataUrlPrefix s) mod 4 =? 0); reflexivity.
Qed.

Lemma isValidBase64_non_string (v : JsVal) :
  typeof v <> "string" -> isValidBase64 v = false.
Proof.
  destruct v; simpl; intros H; try reflexivity.
  - destruct b; reflexivity.
  - unfold isValidBase64. simpl. destruct (n =? 0)%Z; reflexivity.
  - congruence.
Qed.

End Base64Facts.


Section SizeFacts.

Import Validation.




Lemma size_check_integral (d : string) :
  Qle_bool (sizeInBytes d) maxSizeInBytes
  = (Z.of_nat (String.length d) * 3 <=? 4 * 102400)%Z.
Proof.
  apply eq_true_iff_eq.
  rewrite Qle_bool_iff, Z.leb_le.
  unfold sizeInBytes, maxSizeInBytes, Qle, Qdiv, Qmult, Qinv, inject_Z.
  simpl Qnum. simpl Qden.
  change (100 * 1024)%Z with 102400%Z.
  lia.
Qed.

Lemma isValidSvgSize_string (s : string) :
  isValidSvgSize (JStr s) =
    negb (String.eqb s EmptyString)
    && (Z.of_nat (String.length (stripDataUrlPrefix s)) * 3 <=? 4 * 102400)%Z.
Proof.
  unfold isValidSvgSize. cbn [truthy typeof].
  change (String.eqb "string" "string") with true.
  rewrite size_check_integral.
  destruct (String.eqb s EmptyString); reflexivity.
Qed.

End SizeFacts.

Section Base64Claims.

Import Validation.

(** C5.  [isValidBase64] returns false for every string whose length, once
    the optional data-URL prefix is removed, is not a multiple of 4, and for
    every string whose remainder holds a character that is neither in the
    base64 alphabet nor the padding sign; it returns false for the empty
    string, for [null], for [undefined] and for every value that is not a
    string. *)
Theorem isValidBase64_rejects :
  (forall s : string,
      String.length (stripDataUrlPrefix s) mod 4 <> 0 ->
      isValidBase64 (JStr s) = false)
  /\ (forall (s : string) (c : ascii),
         occurs c (stripDataUrlPrefix s) ->
         isBase64Char c = false -> c <> "="%char ->
         isValidBase64 (JStr s) = false)
  /\ isValidBase64 (JStr EmptyString) = false
  /\ isValidBase64 JNull = false
  /\ isValidBase64 JUndefined = false
  /\ (forall v : JsVal, typeof v <> "string" -> isValidBase64 v = false).
Proof.
  repeat split.
  - intros s Hlen. rewrite isValidBase64_string.
    apply Nat.eqb_neq in Hlen. rewrite Hlen.
    apply andb_false_r.
  - intros s c Hocc Hc Hpad. rewrite isValidBase64_string.
    rewrite (base64Regex_test_alphabet c _ Hocc Hc Hpad).
    rewrite andb_false_r. reflexivity.
  - exact isValidBase64_non_string.
Qed.

Lemma isValidBase64_rejects_witness :
  isValidBase64 (JStr "abc") = false
  /\ isValidBase64 (JStr "data:image/svg+xml;base64,ab!d") = false
  /\ isValidBase64 (JNum 123) = false.
Proof.
  destruct isValidBase64_rejects as (Hlen & Halpha & _ & _ & _ & Hother).
  split; [| split].
  - apply Hlen. vm_compute. discriminate.
  - apply (Halpha _ "!"%char).
    + vm_compute. right. right. left. reflexivity.
    + reflexivity.
    + discriminate.
  - apply Hother. simpl. discriminate.
Defined.




End Base64Claims.

Section ValidatorFacts.

Import Validation.

Lemma rejectedAsBody_cases (data : JsVal) :
  rejectedAsBody data = match data with
                        | JArr _ | JObj _ => false
                        | _ => true
                        end.
Proof.
  destruct data as [| | b | n | s | items | fields]; try reflexivity.
  - destruct b; reflexivity.
  - unfold rejectedAsBody. cbn [truthy typeof]. destruct (n =? 0)%Z; reflexivity.
  - unfold rejectedAsBody. cbn [truthy typeof].
    destruct (String.eqb s EmptyString); reflexivity.
Qed.

Lemma getProp_object (data : JsVal) (k : string) :
  rejectedAsBody data = false -> getProp data k = inr (field data k).
Proof.
  rewrite rejectedAsBody_cases.
  destruct data; intros H; try discriminate; unfold field; simpl.
  - reflexivity.
  - destruct (lookup fields k); reflexivity.
Qed.

Lemma isNotAName_total (name : JsVal) : exists b, isNotAName name = inr b.
Proof.
  destruct name; unfold isNotAName; simpl; eauto.
Qed.

Lemma isMissingName_total (name : JsVal) : exists b, isMissingName name = inr b.
Proof.
  unfold isMissingName. destruct (negb (truthy name)); [eexists; reflexivity |].
  apply isNotAName_total.
Qed.

Lemma extends_refl (errors : list string) : extends errors errors.
Proof. exists []. symmetry. apply app_nil_r. Qed.

Lemma extends_trans (a b c : list string) : extends a b -> extends b c -> extends a c.
Proof.
  intros [m1 ->] [m2 ->]. exists (m1 ++ m2)%list. symmetry. apply app_assoc.
Qed.


Lemma extends_nil (a b : list string) : extends a b -> b = [] -> a = [].
Proof. intros [m ->] H. apply app_eq_nil in H. tauto. Qed.

Lemma push_extends (errors : list string) (msg : string) : extends errors (push errors msg).
Proof. exists [msg]. reflexivity. Qed.


Lemma pushIf_extends (c : bool) (errors : list string) (msg : string) :
  extends errors (pushIf c errors msg).
Proof. destruct c; [apply push_extends | apply extends_refl]. Qed.

Lemma pushIf_nil (c : bool) (errors : list string) (msg : string) :
  pushIf c errors msg = [] -> c = false /\ errors = [].
Proof.
  destruct c; simpl; [| tauto].
  unfold push. intros H. apply app_eq_nil in H as [_ H]. discriminate.
Qed.

Lemma validateBoardSvg_extends (boardSvg : JsVal) (errors : list string) :
  extends errors (validateBoardSvg boardSvg errors).
Proof.
  unfold validateBoardSvg.
  destruct (isDefined boardSvg); [| apply extends_refl].
  destruct (negb (String.eqb (typeof boardSvg) "string")); [apply push_extends |].
  eapply extends_trans; apply pushIf_extends.
Qed.

Lemma validateChessPiece_total (piece : JsVal) (index : nat) :
  exists pieceErrors, validateChessPiece piece index = inr pieceErrors.
Proof.
  unfold validateChessPiece.
  fold (rejectedAsBody piece).
  destruct (rejectedAsBody piece) eqn:Hguard; [eexists; reflexivity |].
  rewrite !(getProp_object piece _ Hguard). cbn [Exc.bind].
  eexists. reflexivity.
Qed.

Lemma forEachPiece_total (pieces : list JsVal) :
  forall (index : nat) (errors : list string),
  exists errors', forEachPiece pieces index errors = inr errors' /\ extends errors errors'.
Proof.
  induction pieces as [| piece rest IH]; intros index errors; simpl.
  - exists errors. split; [reflexivity | apply extends_refl].
  - destruct (validateChessPiece_total piece index) as [pieceErrors ->].
    cbn [Exc.bind].
    destruct (IH (S index) (pushAll errors pieceErrors)) as (errors' & -> & Hext).
    exists errors'. split; [reflexivity |].
    eapply extends_trans; [| exact Hext]. exists pieceErrors. reflexivity.
Qed.

End ValidatorFacts.

Section ValidatorClaims.

Import Validation.

Lemma rejectedAsBody_non_object (data : JsVal) :
  data = JUndefined \/ data = JNull \/ typeof data <> "object" ->
  rejectedAsBody data = true.
Proof.
  rewrite rejectedAsBody_cases.
  intros [-> | [-> | Htype]]; try reflexivity.
  destruct data; try reflexivity; simpl in Htype; congruence.
Qed.

Lemma validateCreateCustomization_total (data : JsVal) :
  exists result, validateCreateCustomization data = inr result.
Proof.
  unfold validateCreateCustomization. fold (rejectedAsBody data).
  destruct (rejectedAsBody data) eqn:Hguard; [eexists; reflexivity |].
  rewrite !(getProp_object data _ Hguard). cbn [Exc.bind].
  destruct (isMissingName_total (field data "name")) as [missing ->].
  cbn [Exc.bind].
  destruct (field data "pieces") as [| | | | | [| piece rest] |];
    cbn [Exc.bind Exc.ret]; try (eexists; reflexivity).
  destruct (forEachPiece_total (piece :: rest) 0
              (pushIf missing [] "Name is required and must be a non-empty string"))
    as (errors' & -> & _).
  eexists. reflexivity.
Qed.

Lemma validateUpdateCustomization_total (data : JsVal) :
  exists result, validateUpdateCustomization data = inr result.
Proof.
  unfold validateUpdateCustomization. fold (rejectedAsBody data).
  destruct (rejectedAsBody data) eqn:Hguard; [eexists; reflexivity |].
  rewrite !(getProp_object data _ Hguard). cbn [Exc.bind].
  assert (Hname : exists bad,
             (if isDefined (field data "name") then isNotAName (field data "name")
              else Exc.ret false) = inr bad).
  { destruct (isDefined (field data "name"));
      [apply isNotAName_total | eexists; reflexivity]. }
  destruct Hname as [bad ->]. cbn [Exc.bind].
  destruct (isDefined (field data "pieces")); cbn [Exc.bind Exc.ret];
    [| eexists; reflexivity].
  destruct (field data "pieces") as [| | | | | [| piece rest] |];
    cbn [Exc.bind Exc.ret]; try (eexists; reflexivity).
  match goal with
  | |- context [forEachPiece ?items ?i ?errs] =>
      destruct (forEachPiece_total items i errs) as (errors' & -> & _)
  end.
  eexists. reflexivity.
Qed.

(** C7.  For an absent body, a [null] body and every body that is not an
    object, both validators return the result [{isValid: false, errors:
    ['Request body is required']}]; and neither validator raises, whatever
    the input. *)
Theorem validators_require_a_body :
  (forall data : JsVal,
      data = JUndefined \/ data = JNull \/ typeof data <> "object" ->
      validateCreateCustomization data = inr (mkResult false ["Request body is required"])
      /\ validateUpdateCustomization data
         = inr (mkResult false ["Request body is required"]))
  /\ (forall data : JsVal, exists result, validateCreateCustomization data = inr result)
  /\ (forall data : JsVal, exists result, validateUpdateCustomization data = inr result).
Proof.
  split; [| split].
  - intros data Hdata.
    apply rejectedAsBody_non_object in Hdata.
    unfold validateCreateCustomization, validateUpdateCustomization.
    fold (rejectedAsBody data). rewrite Hdata. split; reflexivity.
  - exact validateCreateCustomization_total.
  - exact validateUpdateCustomization_total.
Qed.

Lemma validators_require_a_body_witness :
  validateCreateCustomization (JStr "name") = inr (mkResult false ["Request body is required"])
  /\ validateUpdateCustomization JNull = inr (mkResult false ["Request body is required"]).
Proof.
  destruct validators_require_a_body as (Hbody & _ & _).
  split.
  - apply (Hbody (JStr "name")). right. right. simpl. discriminate.
  - apply (Hbody JNull). right. left. reflexivity.
Defined.



End ValidatorClaims.

Section ErrorHandlerClaims.

Lemma isJsonSyntaxError_total (error : Thrown) :
  thrownTruthy error = true -> exists b, isJsonSyntaxError error = inr b.
Proof.
  intros Htruthy. unfold isJsonSyntaxError.
  destruct error as [e | e | name message own | v]; cbn [nameOf hasBody Exc.bind Exc.ret].
  - destruct (String.eqb (ve_name e) "SyntaxError"); eexists; reflexivity.
  - destruct (String.eqb (app_name e) "SyntaxError"); eexists; reflexivity.
  - destruct (String.eqb name "SyntaxError"); [| eexists; reflexivity].
    unfold hasProp. destruct (lookup own "body"); eexists; reflexivity.
  - destruct v as [| | b | n | s | items | fields]; simpl in Htruthy; try discriminate;
      cbn [getProp Exc.bind Exc.ret]; try (eexists; reflexivity).
    destruct (lookup fields "name") as [[| | | | n | |] |]; cbn [Exc.bind Exc.ret];
      try (eexists; reflexivity).
    destruct (String.eqb n "SyntaxError"); [| eexists; reflexivity].
    unfold hasProp. destruct (lookup fields "body"); eexists; reflexivity.
Qed.

(** C9.  An error that reaches the error middleware and is neither a
    [ValidationError], nor an [AppError], nor a JSON [SyntaxError] (a value
    named ['SyntaxError'] that has a [body]) is answered with status 500 and
    the envelope [{success: false, error: 'Internal server error', message:
    'An unexpected error occurred'}], whether it is an [Error] instance or
    any other thrown value. *)
Theorem errorHandler_unexpected (error : Thrown) :
  thrownTruthy error = true ->
  instanceofValidationError error = None ->
  instanceofAppError error = None ->
  isJsonSyntaxError error <> inr true ->
  errorHandler error = inr internalServerError.
Proof.
  intros Htruthy Hval Happ Hjson.
  unfold errorHandler. rewrite Hval, Happ.
  destruct (isJsonSyntaxError_total error Htruthy) as [b Hb].
  rewrite Hb in *. cbn [Exc.bind].
  destruct b; [congruence | reflexivity].
Qed.

Lemma errorHandler_unexpected_witness :
  errorHandler (ThrownValue (JStr "boom")) = inr internalServerError
  /\ errorHandler (newError "Failed to update chess customization: timeout")
     = inr internalServerError
  /\ errorHandler (ThrownError "SyntaxError" "Unexpected token" []) = inr internalServerError.
Proof.
  split; [| split].
  - apply (errorHandler_unexpected (ThrownValue (JStr "boom")));
      [reflexivity | reflexivity | reflexivity | discriminate].
  - apply (errorHandler_unexpected
             (newError "Failed to update chess customization: timeout"));
      [reflexivity | reflexivity | reflexivity | discriminate].
  - apply (errorHandler_unexpected (ThrownError "SyntaxError" "Unexpected token" []));
      [reflexivity | reflexivity | reflexivity | discriminate].
Defined.

End ErrorHandlerClaims.

Section IdentifierClaims.

Import Storage.

Lemma regexTest_length (atoms : list CharClass) :
  forall s, regexTest atoms s = true -> String.length s = List.length atoms.
Proof.
  induction atoms as [| cls atoms IH]; intros [| c s] H; simpl in *;
    try discriminate; try reflexivity.
  apply andb_true_iff in H as [_ H]. f_equal. apply IH. exact H.
Qed.

Lemma isValidUUID_length (id : string) :
  isValidUUID id = true -> String.length id = 36.
Proof. intros H. apply regexTest_length in H. exact H. Qed.

Lemma classTest_hex (cls : CharClass) (c : ascii) :
  classTest cls c = true -> cls <> Hyphen -> classTest HexDigit c = true.
Proof.
  destruct cls; intros H Hcls; try congruence; simpl in *; unfold inRange in *.
  - apply orb_true_iff. left. apply orb_true_iff. left.
    apply andb_true_iff in H as [H1 H2]. apply Nat.leb_le in H1, H2.
    apply andb_true_iff. split; apply Nat.leb_le; lia.
  - apply orb_true_iff in H as [H | H]; [apply orb_true_iff in H as [H | H] |];
      apply andb_true_iff in H as [H1 H2]; apply Nat.leb_le in H1, H2;
      rewrite !orb_true_iff, !andb_true_iff, !Nat.leb_le; lia.
Qed.

(** Every identifier the pattern of the gateway accepts is a hyphenated
    36-character hexadecimal one, so the ones that are not are refused by
    the gateway's pattern too. *)
Lemma isValidUUID_hyphenated_hex (id : string) :
  isValidUUID id = true -> regexTest hyphenatedHexRegex id = true.
Proof.
  assert (Hweaker : Forall2 (fun a b => forall c, classTest a c = true -> classTest b c = true)
                      uuidRegex hyphenatedHexRegex).
  { unfold uuidRegex, hyphenatedHexRegex. cbn [repeat app].
    repeat (constructor;
            [intros c H; first [exact H | apply (classTest_hex _ _ H); discriminate] |]).
    constructor. }
  unfold isValidUUID. revert id.
  induction Hweaker as [| a b atoms atoms' Hab _ IH]; intros [| c s]; cbn [regexTest];
    try discriminate; try reflexivity.
  intros H. apply andb_true_iff in H as [Hc Hs].
  rewrite (Hab c Hc), (IH s Hs). reflexivity.
Qed.

(** C6.  For an identifier that does not match the UUID pattern the gateway
    answers as for an absent aggregate and raises nothing: [getById] and
    [update] return [undefined], [delete] and [exists] return [false], and
    the store is not touched. *)
Theorem malformed_id_is_absent
    (id : string) (now : Date) (data : UpdateChessCustomizationRequest) (conn : Connection) :
  isValidUUID id = false ->
  getById id conn = (conn, inr None)
  /\ update now id data conn = (conn, inr None)
  /\ delete id conn = (conn, inr false)
  /\ exists_ id conn = (conn, inr false).
Proof.
  intros Hid.
  unfold getById, update, delete, exists_, tryCatch.
  rewrite Hid. cbn [negb]. repeat split.
Qed.

Lemma malformed_id_is_absent_witness :
  getById "not-a-uuid" (idle sampleDatabase) = (idle sampleDatabase, inr None)
  /\ update 5 "not-a-uuid" (mkUpdateRequest (Some "x") None None None) (idle sampleDatabase)
     = (idle sampleDatabase, inr None)
  /\ delete "not-a-uuid" (idle sampleDatabase) = (idle sampleDatabase, inr false)
  /\ exists_ "not-a-uuid" (idle sampleDatabase) = (idle sampleDatabase, inr false).
Proof.
  apply malformed_id_is_absent. reflexivity.
Defined.

End IdentifierClaims.

Section HandlerClaims.

Import Storage Controller.

Lemma withDatabase_read {A} (f : Database -> A) (conn : Connection) :
  withDatabase (fun db => (db, inr (f db))) conn = (conn, inr (f (current conn))).
Proof. destruct conn. reflexivity. Qed.

Lemma exists_spec (id : string) (conn : Connection) :
  exists_ id conn
  = (conn,
     inr (isValidUUID id
          && (0 <? List.length (filter (hasId id) (customizations (current conn)))))).
Proof.
  unfold exists_, tryCatch.
  destruct (isValidUUID id); cbn [negb andb]; [| reflexivity].
  unfold Pg.bind, selectCustomization.
  rewrite (withDatabase_read (fun db => filter (hasId id) (customizations db))).
  reflexivity.
Qed.

Lemma isValidUUID_nonempty (id : string) :
  isValidUUID id = true -> truthy (JStr id) = true.
Proof.
  intros H. apply isValidUUID_length in H.
  destruct id; [discriminate | reflexivity].
Qed.

(** C4, as the code has it.  A PUT for an existing aggregate with the body
    [{}] is answered with status 400 and the envelope of a validation
    failure whose [details] are the one message ['At least one field (name,
    description, boardSvg, or pieces) must be provided for update']; the
    store is left as it was. *)
Theorem updateCustomization_empty_body (now : Date) (req : Request) (db : Database) :
  req_body req = JObj [] ->
  snd (exists_ (params_id req) (idle db)) = inr true ->
  updateCustomization now req (idle db)
  = (idle db,
     mkResponse 400
       (ErrorBody (mkErrorResponse "Validation failed" "Invalid request data"
                     (Some [noFieldMessage])))).
Proof.
  intros Hbody Hexists.
  rewrite exists_spec in Hexists. cbn [snd] in Hexists.
  assert (Hfound : isValidUUID (params_id req)
                   && (0 <? List.length (filter (hasId (params_id req))
                                           (customizations (current (idle db))))) = true)
    by congruence.
  pose proof Hfound as Hvalid. apply andb_true_iff in Hvalid as [Hvalid _].
  unfold updateCustomization.
  rewrite (isValidUUID_nonempty _ Hvalid).
  cbn [typeof negb orb]. change (String.eqb "string" "string") with true. cbn [negb].
  unfold Pg.bind at 1. rewrite exists_spec, Hfound. cbn [negb].
  rewrite Hbody. reflexivity.
Qed.

Lemma updateCustomization_empty_body_witness :
  updateCustomization 7 emptyPut (idle sampleDatabase)
  = (idle sampleDatabase,
     mkResponse 400
       (ErrorBody (mkErrorResponse "Validation failed" "Invalid request data"
                     (Some [noFieldMessage])))).
Proof.
  apply updateCustomization_empty_body; reflexivity.
Defined.

(** C4, the message as the claim words it, refuted: the [details] of the
    answer to the PUT with body [{}] do not contain it. *)
Lemma updateCustomization_empty_body_wording :
  snd (exists_ (params_id emptyPut) (idle sampleDatabase)) = inr true
  /\ exists details,
       snd (updateCustomization 7 emptyPut (idle sampleDatabase))
       = mkResponse 400
           (ErrorBody (mkErrorResponse "Validation failed" "Invalid request data"
                         (Some details)))
       /\ ~ In noFieldMessageBoardImage details.
Proof.
  split; [reflexivity |].
  exists [noFieldMessage]. split; [reflexivity |].
  intros [H | []]. discriminate H.
Qed.

End HandlerClaims.

Section StoreFacts.

Import Storage.

Lemma lowerChar_idempotent (c : ascii) : lowerChar (lowerChar c) = lowerChar c.
Proof.
  destruct c as [[] [] [] [] [] [] [] []]; reflexivity.
Qed.

Lemma uuid_in_idempotent (id : string) : uuid_in (uuid_in id) = uuid_in id.
Proof.
  induction id as [| c rest IH]; simpl; [reflexivity |].
  rewrite lowerChar_idempotent, IH. reflexivity.
Qed.





Lemma filter_none {A} (f : A -> bool) (l : list A) :
  existsb f l = false -> filter f l = [].
Proof.
  induction l as [| x l IH]; simpl; [reflexivity |].
  intros H. apply orb_false_iff in H as [Hx Hl]. rewrite Hx. auto.
Qed.

Lemma filter_all {A} (f : A -> bool) (l : list A) :
  forallb f l = true -> filter f l = l.
Proof.
  induction l as [| x l IH]; simpl; [reflexivity |].
  intros H. apply andb_true_iff in H as [Hx Hl]. rewrite Hx, IH; auto.
Qed.

Lemma pieceRows_belong (cid : string) (ps : list ChessPiece) :
  forall next,
    forallb (fun p => String.eqb cid (cp_customization_id p)) (pieceRows cid next ps) = true.
Proof.
  induction ps as [| p rest IH]; intros next; simpl; [reflexivity |].
  rewrite String.eqb_refl, IH. reflexivity.
Qed.

Lemma pieceRows_length (cid : string) (ps : list ChessPiece) :
  forall next, List.length (pieceRows cid next ps) = List.length ps.
Proof. induction ps; intros next; simpl; auto. Qed.

Lemma pieceRows_app (cid : string) (ps qs : list ChessPiece) :
  forall next,
    pieceRows cid next (ps ++ qs)
    = (pieceRows cid next ps ++ pieceRows cid (next + List.length ps) qs)%list.
Proof.
  induction ps as [| p rest IH]; intros next; simpl.
  - rewrite Nat.add_0_r. reflexivity.
  - rewrite IH. do 3 f_equal. lia.
Qed.


Lemma truthyColumn_pieceTypeName (t : PieceType) :
  truthyColumn (Some (pieceTypeName t)) = true.
Proof. destruct t; reflexivity. Qed.

Lemma truthyColumn_pieceColorName (c : PieceColor) :
  truthyColumn (Some (pieceColorName c)) = true.
Proof. destruct c; reflexivity. Qed.

Lemma transformRow_first_none (c : CustomizationRow) :
  transformRow [] (project (c, None)) = [(c_id c, aggregate c [])].
Proof. reflexivity. Qed.





End StoreFacts.

Section ReadBack.

Import Storage.



Lemma insertChessPiece_ok (id : string) (piece : ChessPiece) (conn : Connection) :
  existsb (hasId id) (customizations (current conn)) = true ->
  insertChessPiece id piece conn
  = (mkConnection
       (mkDatabase (customizations (current conn))
          (chess_pieces (current conn)
           ++ pieceRows (uuid_in id) (chess_pieces_id_seq (current conn)) [piece])%list
          (S (chess_pieces_id_seq (current conn))))
       (atBegin conn),
     inr tt).
Proof.
  intros Hrow. unfold insertChessPiece, withDatabase. rewrite Hrow. reflexivity.
Qed.

(** The insert loop of [update]. *)
Lemma insertEach_ok (id : string) (ps : list ChessPiece) :
  forall conn : Connection,
    existsb (hasId id) (customizations (current conn)) = true ->
    insertEach id ps conn
    = (mkConnection
         (mkDatabase (customizations (current conn))
            (chess_pieces (current conn)
             ++ pieceRows (uuid_in id) (chess_pieces_id_seq (current conn)) ps)%list
            (chess_pieces_id_seq (current conn) + List.length ps))
         (atBegin conn),
       inr tt).
Proof.
  induction ps as [| p rest IH]; intros conn Hrow.
  - destruct conn as [[cs cps next] saved]. cbn.
    rewrite app_nil_r, Nat.add_0_r. reflexivity.
  - cbn [insertEach]. unfold Pg.bind.
    rewrite (insertChessPiece_ok id p conn Hrow).
    rewrite IH by exact Hrow.
    cbn [current atBegin customizations chess_pieces chess_pieces_id_seq
         pieceRows List.length].
    rewrite <- app_assoc. cbn [app].
    replace (S (chess_pieces_id_seq (current conn)) + List.length rest)
      with (chess_pieces_id_seq (current conn) + S (List.length rest)) by lia.
    reflexivity.
Qed.

(** The insert loop of [create], which also collects the pieces. *)
Lemma insertPieces_ok (id : string) (ps : list ChessPiece) :
  forall (conn : Connection) (acc : list ChessPiece),
    existsb (hasId id) (customizations (current conn)) = true ->
    insertPieces id ps acc conn
    = (mkConnection
         (mkDatabase (customizations (current conn))
            (chess_pieces (current conn)
             ++ pieceRows (uuid_in id) (chess_pieces_id_seq (current conn)) ps)%list
            (chess_pieces_id_seq (current conn) + List.length ps))
         (atBegin conn),
       inr (acc ++ ps)%list).
Proof.
  induction ps as [| p rest IH]; intros conn acc Hrow.
  - destruct conn as [[cs cps next] saved]. cbn.
    rewrite !app_nil_r, Nat.add_0_r. reflexivity.
  - cbn [insertPieces]. unfold Pg.bind.
    rewrite (insertChessPiece_ok id p conn Hrow).
    rewrite IH by exact Hrow.
    cbn [current atBegin customizations chess_pieces chess_pieces_id_seq
         pieceRows List.length].
    rewrite <- !app_assoc. cbn [app].
    replace (S (chess_pieces_id_seq (current conn)) + List.length rest)
      with (chess_pieces_id_seq (current conn) + S (List.length rest)) by lia.
    reflexivity.
Qed.

End ReadBack.

Section TypedView.

Import Validation.

Lemma push_not_nil (errors : list string) (msg : string) : push errors msg <> [].
Proof. unfold push. destruct errors; discriminate. Qed.

(** Closes a goal whose hypothesis [H] says that a list just pushed onto
    is empty. *)
Ltac absurd_push H :=
  unfold Exc.ret in H; injection H as H; exact (False_ind _ (push_not_nil _ _ H)).

Lemma includes_validTypes (v : JsVal) :
  includes validTypes v = true -> exists t, pieceTypeOf v = Some t.
Proof.
  destruct v as [| | | | s | |]; try discriminate.
  unfold includes, validTypes, pieceTypeOf. cbn [existsb find pieceTypeName].
  rewrite (String.eqb_sym "pawn" s), (String.eqb_sym "rook" s),
    (String.eqb_sym "knight" s), (String.eqb_sym "bishop" s),
    (String.eqb_sym "queen" s), (String.eqb_sym "king" s).
  destruct (String.eqb s "pawn"); [eauto |].
  destruct (String.eqb s "rook"); [eauto |].
  destruct (String.eqb s "knight"); [eauto |].
  destruct (String.eqb s "bishop"); [eauto |].
  destruct (String.eqb s "queen"); [eauto |].
  destruct (String.eqb s "king"); [eauto | discriminate].
Qed.

Lemma includes_validColors (v : JsVal) :
  includes validColors v = true -> exists c, pieceColorOf v = Some c.
Proof.
  destruct v as [| | | | s | |]; try discriminate.
  unfold includes, validColors, pieceColorOf. cbn [existsb find pieceColorName].
  rewrite (String.eqb_sym "white" s), (String.eqb_sym "black" s).
  destruct (String.eqb s "white"); [eauto |].
  destruct (String.eqb s "black"); [eauto | discriminate].
Qed.

Lemma truthy_string (v : JsVal) :
  truthy v = true -> String.eqb (typeof v) "string" = true ->
  exists s, v = JStr s /\ truthy (JStr s) = true.
Proof.
  destruct v; simpl; try discriminate. eauto.
Qed.





Lemma isMissingName_typed (name : JsVal) :
  isMissingName name = inr false ->
  exists s, name = JStr s /\ trimString s <> EmptyString.
Proof.
  unfold isMissingName, isNotAName.
  destruct name as [| | b | n | s | |]; cbn [truthy typeof negb]; try discriminate.
  - destruct b; cbn; discriminate.
  - destruct (negb (n =? 0)%Z); cbn; discriminate.
  - destruct (negb (String.eqb s EmptyString)); cbn [negb]; [| discriminate].
    change (String.eqb "string" "string") with true. cbn [negb trim Exc.bind Exc.ret].
    intros H. exists s. split; [reflexivity |].
    intros E. rewrite E in H. discriminate H.
Qed.


End TypedView.

Section CreateFacts.

Import Storage.


Lemma hasId_createdRow (uuid : string) (now : Date) (data : CreateChessCustomizationRequest) :
  hasId (uuid_in uuid) (createdRow uuid now data) = true.
Proof.
  unfold hasId, createdRow. cbn [c_id]. rewrite uuid_in_idempotent. apply String.eqb_refl.
Qed.

(** [create] succeeds whenever the store accepts the parent row: the name
    fits its column and the generated identifier is not taken. *)
Lemma create_ok (uuid : string) (now : Date) (data : CreateChessCustomizationRequest)
    (db : Database) :
  String.length (create_name data) <= 255 ->
  existsb (hasId uuid) (customizations db) = false ->
  create uuid now data (idle db)
  = (idle (afterCreate uuid now data db),
     inr (aggregate (createdRow uuid now data) (create_pieces data))).
Proof.
  intros Hname Hfresh.
  unfold create, tryCatch, Pg.bind at 1, BEGIN. cbn [idle current].
  unfold Pg.bind at 1, insertCustomization, withDatabase. cbn [current atBegin].
  replace (255 <? String.length (create_name data)) with false
    by (symmetry; apply Nat.ltb_ge; exact Hname).
  rewrite Hfresh.
  fold (createdRow uuid now data).
  cbn [c_id]. unfold Pg.bind at 1.
  rewrite insertPieces_ok.
  - cbn [current atBegin customizations chess_pieces chess_pieces_id_seq].
    change (c_id (createdRow uuid now data)) with (uuid_in uuid).
    rewrite uuid_in_idempotent. reflexivity.
  - cbn [current customizations]. rewrite existsb_app. cbn [existsb].
    change (c_id (createdRow uuid now data)) with (uuid_in uuid).
    rewrite hasId_createdRow. rewrite orb_true_r. reflexivity.
Qed.

Lemma orNull_empty : orNull (Some EmptyString) = None.
Proof. reflexivity. Qed.

End CreateFacts.

Section CreateClaims.

Import Storage.








End CreateClaims.

Section UpdateClaims.

Import Storage.

Lemma filter_primary_key (cs : list CustomizationRow) (key : string) :
  NoDup (map c_id cs) ->
  forall c, In c cs -> c_id c = key ->
            filter (fun row => String.eqb (c_id row) key) cs = [c].
Proof.
  induction cs as [| x rest IH]; intros Hnodup c Hin Hkey; [contradiction |].
  inversion Hnodup as [| ? ? Hnotin Hrest]; subst.
  cbn [filter]. destruct Hin as [-> | Hin].
  - rewrite String.eqb_refl. f_equal.
    apply filter_none.
    destruct (existsb _ rest) eqn:Hex; [| reflexivity].
    apply existsb_exists in Hex as (y & Hy & Heq). apply String.eqb_eq in Heq.
    exfalso. apply Hnotin. rewrite <- Heq. apply in_map. exact Hy.
  - destruct (String.eqb_spec (c_id x) (c_id c)) as [Heq | _].
    + exfalso. apply Hnotin. rewrite Heq. apply in_map. exact Hin.
    + apply IH; auto.
Qed.

Lemma existing_row (id : string) (db : Database) :
  primaryKeyHolds db ->
  snd (exists_ id (idle db)) = inr true ->
  isValidUUID id = true
  /\ exists c, filter (hasId id) (customizations db) = [c] /\ c_id c = uuid_in id.
Proof.
  intros Hpk Hexists. rewrite exists_spec in Hexists. cbn [snd idle current] in Hexists.
  assert (Hboth : isValidUUID id
                  && (0 <? List.length (filter (hasId id) (customizations db))) = true)
    by congruence.
  apply andb_true_iff in Hboth as [Hvalid Hfound]. split; [exact Hvalid |].
  destruct (filter (hasId id) (customizations db)) as [| c rest] eqn:Hfilter;
    [discriminate |].
  assert (Hc : In c (filter (hasId id) (customizations db)))
    by (rewrite Hfilter; left; reflexivity).
  apply filter_In in Hc as [Hin Hid]. unfold hasId in Hid. apply String.eqb_eq in Hid.
  exists c. split; [| exact Hid].
  rewrite <- Hfilter. apply (filter_primary_key _ _ Hpk c Hin Hid).
Qed.









End UpdateClaims.

(* ================================================================== *)
(** * Further properties *)

Section SumToNFacts.

Import SumToN.
Local Open Scope Z_scope.

Lemma loop_sum (fuel : nat) :
  forall i n s,
    1 <= i -> i <= n + 1 -> Z.of_nat fuel = n + 1 - i ->
    2 * loop fuel i n s = 2 * s + n * (n + 1) - (i - 1) * i.
Proof.
  induction fuel as [| fuel IH]; intros i n s Hi Hin Hfuel; cbn [loop].
  - assert (i = n + 1) by lia. subst i. ring.
  - destruct (Z.leb_spec i n) as [Hle | Hgt]; [| lia].
    rewrite IH by lia. ring.
Qed.

Lemma sumLinear_closed (n : Z) : 0 < n -> 2 * sumLinear n = n * (n + 1).
Proof.
  intros Hn. unfold sumLinear.
  destruct (Z.leb_spec n 0) as [H | _]; [lia |].
  rewrite (loop_sum (Z.to_nat n) 1 n 0) by lia. ring.
Qed.

Lemma sumConst_closed (n : Z) : 0 < n -> 2 * sumConst n = n * (n + 1).
Proof.
  intros Hn. unfold sumConst.
  destruct (Z.leb_spec n 0) as [H | _]; [lia |].
  destruct (Z.eqb_spec (n mod 2) 0) as [Heven | Hodd].
  - pose proof (Z.div_mod n 2 ltac:(lia)) as Hdiv. rewrite Heven in Hdiv.
    remember (n / 2) as q eqn:Hq. clear Hq.
    assert (Hn2 : n = 2 * q) by lia.
    transitivity ((2 * q) * (n + 1)); [ring | rewrite <- Hn2; reflexivity].
  - pose proof (Z.div_mod (n + 1) 2 ltac:(lia)) as Hdiv.
    pose proof (Z.mod_pos_bound n 2 ltac:(lia)) as Hbound.
    assert (Hone : n mod 2 = 1) by lia.
    assert (Hnext : (n + 1) mod 2 = 0).
    { rewrite Z.add_mod, Hone by lia. reflexivity. }
    rewrite Hnext in Hdiv.
    remember ((n + 1) / 2) as q eqn:Hq. clear Hq.
    assert (Hn2 : n + 1 = 2 * q) by lia.
    transitivity ((2 * q) * n); [ring | rewrite <- Hn2; ring].
Qed.

(** X1.  On every integer up to 134217727, the range in which all the
    numbers met are exact, the three sums agree: each is [n (n + 1) / 2]
    for a positive [n] and [0] otherwise. *)
Theorem sums_agree (n : Z) :
  n <= 134217727 ->
  sumConst n = sumLinear n
  /\ sumLinear n = sumQuadratic n
  /\ (0 < n -> 2 * sumConst n = n * (n + 1))
  /\ (n <= 0 -> sumConst n = 0).
Proof.
  intros _. repeat apply conj.
  - destruct (Z.leb_spec n 0) as [Hle | Hgt].
    + unfold sumConst, sumLinear.
      destruct (Z.leb_spec n 0); [reflexivity | lia].
    + pose proof (sumLinear_closed n Hgt). pose proof (sumConst_closed n Hgt). lia.
  - reflexivity.
  - apply sumConst_closed.
  - intros Hn. unfold sumConst. destruct (Z.leb_spec n 0); [reflexivity | lia].
Qed.

Lemma sums_agree_witness :
  100000 <= 134217727
  /\ sumConst 100000 = sumLinear 100000
  /\ sumLinear 100000 = sumQuadratic 100000
  /\ (0 < 100000 -> 2 * sumConst 100000 = 100000 * (100000 + 1))
  /\ (100000 <= 0 -> sumConst 100000 = 0).
Proof.
  split; [lia |]. apply (sums_agree 100000). lia.
Defined.



End SumToNFacts.

Section DataUrlFacts.

Import Validation.

Lemma dropPrefix_app (p s : string) : dropPrefix p (p ++ s) = Some s.
Proof.
  induction p as [| c p IH]; simpl; [reflexivity |].
  rewrite Ascii.eqb_refl. exact IH.
Qed.

Lemma skipNonSemicolon_app (mediatype rest : string) :
  (forall c, occurs c mediatype -> c <> ";"%char) ->
  skipNonSemicolon (mediatype ++ String ";" rest) = String ";" rest.
Proof.
  induction mediatype as [| c m IH]; intros Hfree; simpl.
  - reflexivity.
  - destruct (Ascii.eqb_spec c ";") as [Heq | _].
    + exfalso. apply (Hfree c); [left; reflexivity | exact Heq].
    + apply IH. intros c' Hc'. apply Hfree. right. exact Hc'.
Qed.

Lemma string_length_app (a b : string) :
  String.length (a ++ b) = String.length a + String.length b.
Proof. induction a as [| c a IH]; simpl; [reflexivity | rewrite IH; reflexivity]. Qed.

Lemma stripDataUrlPrefix_dataUrl (mediatype payload : string) :
  mediatype <> EmptyString ->
  (forall c, occurs c mediatype -> c <> ";"%char) ->
  stripDataUrlPrefix (dataUrl mediatype payload) = payload.
Proof.
  intros Hne Hfree. unfold stripDataUrlPrefix, dataUrl.
  rewrite dropPrefix_app.
  change (";base64," ++ payload) with (String ";" ("base64," ++ payload)).
  rewrite (skipNonSemicolon_app mediatype _ Hfree).
  rewrite string_length_app.
  destruct mediatype as [| c m]; [congruence |].
  replace (String.length (String ";" ("base64," ++ payload))
           <? String.length (String c m) + String.length (String ";" ("base64," ++ payload)))
    with true by (symmetry; apply Nat.ltb_lt; simpl; lia).
  change (String ";" ("base64," ++ payload)) with (";base64," ++ payload).
  rewrite dropPrefix_app. reflexivity.
Qed.

(** X3.  A data URL with a media type that is not empty and holds no [';'] is
    judged by its payload alone: the text after the prefix must match the
    base64 pattern and have a length that is a multiple of 4, and its length
    times 3 over 4 must not exceed 102400.  The payload may be empty: the
    bare prefix passes both checks, although the empty string passes
    neither. *)
Theorem dataUrl_judged_by_payload (mediatype payload : string) :
  mediatype <> EmptyString ->
  (forall c, occurs c mediatype -> c <> ";"%char) ->
  isValidBase64 (JStr (dataUrl mediatype payload))
  = base64Regex_test payload && (String.length payload mod 4 =? 0)
  /\ isValidSvgSize (JStr (dataUrl mediatype payload))
     = (Z.of_nat (String.length payload) * 3 <=? 4 * 102400)%Z
  /\ isValidBase64 (JStr (dataUrl mediatype EmptyString)) = true
  /\ isValidSvgSize (JStr (dataUrl mediatype EmptyString)) = true
  /\ isValidBase64 (JStr EmptyString) = false
  /\ isValidSvgSize (JStr EmptyString) = false.
Proof.
  intros Hne Hfree.
  assert (Hbase : forall p, isValidBase64 (JStr (dataUrl mediatype p))
                            = base64Regex_test p && (String.length p mod 4 =? 0)).
  { intros p. rewrite isValidBase64_string, stripDataUrlPrefix_dataUrl by assumption.
    reflexivity. }
  assert (Hsize : forall p, isValidSvgSize (JStr (dataUrl mediatype p))
                            = (Z.of_nat (String.length p) * 3 <=? 4 * 102400)%Z).
  { intros p. rewrite isValidSvgSize_string, stripDataUrlPrefix_dataUrl by assumption.
    reflexivity. }
  split; [apply Hbase |]. split; [apply Hsize |].
  split; [rewrite Hbase; reflexivity |]. split; [rewrite Hsize; reflexivity |].
  split; reflexivity.
Qed.

Lemma dataUrl_judged_by_payload_witness :
  isValidBase64 (JStr "data:image/svg+xml;base64,") = true
  /\ isValidSvgSize (JStr "data:image/svg+xml;base64,") = true.
Proof.
  destruct (dataUrl_judged_by_payload "image/svg+xml" EmptyString)
    as (_ & _ & Hbase & Hsize & _).
  - discriminate.
  - intros c Hc Heq. subst c. vm_compute in Hc. intuition discriminate.
  - split; [exact Hbase | exact Hsize].
Defined.

End DataUrlFacts.

Section AcceptanceFacts.

Import Validation.

Ltac absurd_push H :=
  unfold Exc.ret in H; injection H as H; exact (False_ind _ (push_not_nil _ _ H)).

Lemma includes_pieceTypeName (t : PieceType) :
  includes validTypes (JStr (pieceTypeName t)) = true.
Proof. destruct t; reflexivity. Qed.

Lemma includes_pieceColorName (c : PieceColor) :
  includes validColors (JStr (pieceColorName c)) = true.
Proof. destruct c; reflexivity. Qed.

Lemma truthy_pieceTypeName (t : PieceType) : truthy (JStr (pieceTypeName t)) = true.
Proof. destruct t; reflexivity. Qed.

Lemma truthy_pieceColorName (c : PieceColor) : truthy (JStr (pieceColorName c)) = true.
Proof. destruct c; reflexivity. Qed.

Lemma pieceTypeOf_name (v : JsVal) (t : PieceType) :
  pieceTypeOf v = Some t -> v = JStr (pieceTypeName t).
Proof.
  destruct v as [| | | | s | |]; try discriminate.
  unfold pieceTypeOf. intros H. apply find_some in H as [_ H].
  apply String.eqb_eq in H. congruence.
Qed.

Lemma pieceColorOf_name (v : JsVal) (c : PieceColor) :
  pieceColorOf v = Some c -> v = JStr (pieceColorName c).
Proof.
  destruct v as [| | | | s | |]; try discriminate.
  unfold pieceColorOf. intros H. apply find_some in H as [_ H].
  apply String.eqb_eq in H. congruence.
Qed.

Lemma isValidBase64_truthy (s : string) :
  isValidBase64 (JStr s) = true -> truthy (JStr s) = true.
Proof.
  rewrite isValidBase64_string. intros H.
  apply andb_true_iff in H as [H _]. apply andb_true_iff in H as [H _]. exact H.
Qed.

(** When [validateChessPiece] reports nothing. *)
Lemma validateChessPiece_clean (piece : JsVal) (index : nat) :
  validateChessPiece piece index = inr [] <-> acceptablePiece piece.
Proof.
  split.
  - unfold validateChessPiece. fold (rejectedAsBody piece).
    destruct (rejectedAsBody piece) eqn:Hguard.
    { intros H. absurd_push H. }
    rewrite !(getProp_object piece _ Hguard). cbn [Exc.bind Exc.ret].
    intros H. injection H as Herrors.
    destruct (negb (truthy (field piece "svgData"))
              || negb (String.eqb (typeof (field piece "svgData")) "string")) eqn:Hsvg;
      [apply push_not_nil in Herrors; contradiction |].
    apply pushIf_nil in Herrors as [Hsize Herrors].
    apply pushIf_nil in Herrors as [Hbase Herrors].
    apply pushIf_nil in Herrors as [Hcolor Herrors].
    apply pushIf_nil in Herrors as [Htype _].
    apply negb_false_iff in Hsize, Hbase.
    apply orb_false_iff in Htype as [_ Htype]. apply negb_false_iff in Htype.
    apply orb_false_iff in Hcolor as [_ Hcolor]. apply negb_false_iff in Hcolor.
    apply orb_false_iff in Hsvg as [Hs1 Hs2]. apply negb_false_iff in Hs1, Hs2.
    destruct (includes_validTypes _ Htype) as [t Ht]. apply pieceTypeOf_name in Ht.
    destruct (includes_validColors _ Hcolor) as [c Hc]. apply pieceColorOf_name in Hc.
    destruct (truthy_string _ Hs1 Hs2) as (s & Hs & _).
    rewrite Hs in Hbase, Hsize.
    rewrite rejectedAsBody_cases in Hguard.
    destruct piece as [| | | | | items | fields]; try discriminate Hguard.
    + cbv in Ht. discriminate Ht.
    + repeat split; eauto.
  - intros ((fields & ->) & (t & Ht) & (c & Hc) & (s & Hs & Hbase & Hsize)).
    unfold validateChessPiece. fold (rejectedAsBody (JObj fields)).
    assert (Hguard : rejectedAsBody (JObj fields) = false) by reflexivity.
    rewrite Hguard. rewrite !(getProp_object _ _ Hguard). cbn [Exc.bind Exc.ret].
    rewrite Ht, Hc, Hs.
    rewrite truthy_pieceTypeName, includes_pieceTypeName.
    rewrite truthy_pieceColorName, includes_pieceColorName.
    rewrite (isValidBase64_truthy s Hbase), Hbase, Hsize.
    reflexivity.
Qed.

(** X4.  [validateChessPiece] reports nothing for a piece exactly when the piece
    is an object whose [type] and [color] are names of the enumerations and
    whose [svgData] is a string passing both image checks; the index plays
    no part in it. *)
Theorem validateChessPiece_accepts (piece : JsVal) (index : nat) :
  validateChessPiece piece index = inr [] <-> acceptablePiece piece.
Proof. exact (validateChessPiece_clean piece index). Qed.

Lemma validateChessPiece_accepts_witness :
  validateChessPiece (pieceToJs whitePawn) 3 = inr [].
Proof.
  apply (validateChessPiece_accepts (pieceToJs whitePawn) 3).
  split; [eexists; reflexivity |].
  split; [exists pawn; reflexivity |].
  split; [exists white; reflexivity |].
  exists "PHN2Zz48L3N2Zz4=". split; [reflexivity | split; reflexivity].
Defined.

Lemma forEachPiece_accepts (items : list JsVal) :
  forall (index : nat) (errors : list string),
    forEachPiece items index errors = inr []
    <-> errors = [] /\ Forall acceptablePiece items.
Proof.
  induction items as [| piece rest IH]; intros index errors; cbn [forEachPiece].
  - split.
    + intros H. injection H as ->. split; [reflexivity | constructor].
    + intros [-> _]. reflexivity.
  - destruct (validateChessPiece_total piece index) as [pieceErrors Hpiece].
    rewrite Hpiece. cbn [Exc.bind]. rewrite IH. unfold pushAll. split.
    + intros [Hnil Hrest]. apply app_eq_nil in Hnil as [-> ->].
      split; [reflexivity |]. constructor; [| exact Hrest].
      apply (validateChessPiece_clean piece index). exact Hpiece.
    + intros [-> Hall]. inversion Hall as [| ? ? Hp Hrest]; subst.
      apply (validateChessPiece_clean piece index) in Hp.
      rewrite Hp in Hpiece. injection Hpiece as <-.
      split; [reflexivity | exact Hrest].
Qed.

Lemma validateBoardSvg_accepts (boardSvg : JsVal) :
  validateBoardSvg boardSvg [] = [] <-> acceptableImage boardSvg.
Proof.
  unfold validateBoardSvg, acceptableImage. split.
  - destruct boardSvg as [| | | | s | |]; cbn [isDefined typeof];
      try (intros H; apply push_not_nil in H; contradiction).
    + intros _. left. reflexivity.
    + change (String.eqb "string" "string") with true. cbn [negb].
      intros H. apply pushIf_nil in H as [Hsize H]. apply pushIf_nil in H as [Hbase _].
      apply negb_false_iff in Hsize, Hbase. right. eauto.
  - intros [-> | (s & -> & Hbase & Hsize)]; [reflexivity |].
    cbn [isDefined typeof]. change (String.eqb "string" "string") with true.
    cbn [negb]. rewrite Hbase, Hsize. reflexivity.
Qed.

Lemma isMissingName_accepts (name : JsVal) :
  isMissingName name = inr false
  <-> exists s, name = JStr s /\ trimString s <> EmptyString.
Proof.
  split; [apply isMissingName_typed |].
  intros (s & -> & Htrim).
  unfold isMissingName, isNotAName. cbn [truthy typeof].
  assert (Hs : String.eqb s EmptyString = false).
  { apply String.eqb_neq. intros ->. apply Htrim. reflexivity. }
  rewrite Hs. change (String.eqb "string" "string") with true.
  cbn [negb trim Exc.bind Exc.ret].
  destruct (trimString s); [congruence | reflexivity].
Qed.

(** X5.  [validateCreateCustomization] accepts a body exactly when the body is an
    object with: a [name] that is a string and not blank; a [pieces] array
    that is not empty and holds acceptable pieces only; a [description] that
    is absent or a string; and a [boardSvg] that is absent or a string
    passing both image checks.  No bound is put on the length of the
    name. *)
Theorem validateCreateCustomization_accepts (body : JsVal) :
  validateCreateCustomization body = inr (mkResult true [])
  <-> (exists fields, body = JObj fields)
      /\ (exists n, field body "name" = JStr n /\ trimString n <> EmptyString)
      /\ (exists piece rest, field body "pieces" = JArr (piece :: rest)
                             /\ Forall acceptablePiece (piece :: rest))
      /\ (field body "description" = JUndefined
          \/ exists d, field body "description" = JStr d)
      /\ acceptableImage (field body "boardSvg").
Proof.
  unfold validateCreateCustomization. fold (rejectedAsBody body).
  destruct (rejectedAsBody body) eqn:Hguard.
  { split; [discriminate |].
    intros ((fields & ->) & _). discriminate Hguard. }
  rewrite !(getProp_object body _ Hguard). cbn [Exc.bind].
  destruct (isMissingName_total (field body "name")) as [missing Hmissing].
  rewrite Hmissing. cbn [Exc.bind].
  set (afterName := pushIf missing [] "Name is required and must be a non-empty string").
  split.
  - destruct (match field body "pieces" with
              | JArr [] => Exc.ret (push afterName "At least one chess piece is required")
              | JArr items => forEachPiece items 0 afterName
              | _ => Exc.ret (push afterName "Pieces must be an array")
              end) as [e | afterPieces] eqn:Hpieces; cbn [Exc.bind]; [discriminate |].
    intros H. injection H as Hvalid Hfinal. clear Hvalid.
    pose proof (extends_nil _ _ (validateBoardSvg_extends _ _) Hfinal) as Hdesc.
    rewrite Hdesc in Hfinal.
    apply pushIf_nil in Hdesc as [Hdesc Hafter]. subst afterPieces.
    apply validateBoardSvg_accepts in Hfinal.
    destruct (field body "pieces") as [| | | | | items |] eqn:Hp;
      try absurd_push Hpieces.
    destruct items as [| piece rest]; [absurd_push Hpieces |].
    apply forEachPiece_accepts in Hpieces as [Hname Hall].
    subst afterName. apply pushIf_nil in Hname as [-> _].
    apply isMissingName_accepts in Hmissing as (n & Hn & Htrim).
    split.
    { rewrite rejectedAsBody_cases in Hguard.
      destruct body; try discriminate Hguard; [cbv in Hn; discriminate Hn | eauto]. }
    split; [eauto |]. split; [eauto |]. split; [| exact Hfinal].
    destruct (field body "description"); try discriminate Hdesc; eauto.
  - intros (_ & Hname & (piece & rest & Hp & Hall) & Hdesc & Hboard).
    apply isMissingName_accepts in Hname. rewrite Hname in Hmissing.
    injection Hmissing as <-. subst afterName. cbn [pushIf].
    rewrite Hp.
    assert (Hloop : forEachPiece (piece :: rest) 0 [] = inr [])
      by (apply forEachPiece_accepts; split; [reflexivity | exact Hall]).
    rewrite Hloop. cbn [Exc.bind].
    assert (Hd : isDefined (field body "description")
                 && negb (String.eqb (typeof (field body "description")) "string") = false).
    { destruct Hdesc as [-> | (d & ->)]; reflexivity. }
    rewrite Hd. cbn [pushIf].
    apply validateBoardSvg_accepts in Hboard. rewrite Hboard. reflexivity.
Qed.

Lemma validateCreateCustomization_accepts_witness :
  validateCreateCustomization bodyWithEmptyDescription = inr (mkResult true []).
Proof.
  apply (validateCreateCustomization_accepts bodyWithEmptyDescription).
  split; [eexists; reflexivity |].
  split; [exists "Test Chess Set"; split; [reflexivity | discriminate] |].
  split.
  - exists (pieceToJs whitePawn), [pieceToJs blackKing]. split; [reflexivity |].
    constructor; [| constructor; [| constructor]].
    + split; [eexists; reflexivity |].
      split; [exists pawn; reflexivity |].
      split; [exists white; reflexivity |].
      exists "PHN2Zz48L3N2Zz4=". split; [reflexivity | split; reflexivity].
    + split; [eexists; reflexivity |].
      split; [exists king; reflexivity |].
      split; [exists black; reflexivity |].
      exists "AAAA". split; [reflexivity | split; reflexivity].
  - split; [right; eexists; reflexivity | left; reflexivity].
Defined.

Lemma isNotAName_accepts (name : JsVal) :
  isNotAName name = inr false
  <-> exists s, name = JStr s /\ trimString s <> EmptyString.
Proof.
  split.
  - unfold isNotAName.
    destruct name as [| | b | n | s | |]; cbn [typeof]; try discriminate.
    change (String.eqb "string" "string") with true. cbn [negb trim Exc.bind Exc.ret].
    intros H. exists s. split; [reflexivity |].
    intros E. rewrite E in H. discriminate H.
  - intros (s & -> & Htrim). unfold isNotAName. cbn [typeof].
    change (String.eqb "string" "string") with true. cbn [negb trim Exc.bind Exc.ret].
    destruct (trimString s); [congruence | reflexivity].
Qed.

(** When [validateUpdateCustomization] accepts. *)
Lemma validateUpdateCustomization_clean (body : JsVal) :
  validateUpdateCustomization body = inr (mkResult true [])
  <-> (exists fields, body = JObj fields)
      /\ (isDefined (field body "name") || isDefined (field body "description")
          || isDefined (field body "boardSvg") || isDefined (field body "pieces") = true)
      /\ (field body "name" = JUndefined
          \/ exists n, field body "name" = JStr n /\ trimString n <> EmptyString)
      /\ (field body "description" = JUndefined
          \/ exists d, field body "description" = JStr d)
      /\ acceptableImage (field body "boardSvg")
      /\ (field body "pieces" = JUndefined
          \/ exists piece rest, field body "pieces" = JArr (piece :: rest)
                                /\ Forall acceptablePiece (piece :: rest)).
Proof.
  unfold validateUpdateCustomization. fold (rejectedAsBody body).
  destruct (rejectedAsBody body) eqn:Hguard.
  { split; [discriminate |].
    intros ((fields & ->) & _). discriminate Hguard. }
  rewrite !(getProp_object body _ Hguard). cbn [Exc.bind].
  set (name := field body "name"). set (description := field body "description").
  set (boardSvg := field body "boardSvg"). set (pieces := field body "pieces").
  set (hasValidField := isDefined name || isDefined description
                        || isDefined boardSvg || isDefined pieces).
  assert (Hname : exists bad,
             (if isDefined name then isNotAName name else Exc.ret false) = inr bad
             /\ (bad = false <->
                 name = JUndefined
                 \/ exists n, name = JStr n /\ trimString n <> EmptyString)).
  { destruct (isNotAName_total name) as [bad Hbad].
    destruct (isDefined name) eqn:Hdef.
    - exists bad. split; [exact Hbad |]. split.
      + intros ->. right. apply isNotAName_accepts. exact Hbad.
      + intros [Hu | Hs]; [rewrite Hu in Hdef; discriminate |].
        apply isNotAName_accepts in Hs. congruence.
    - exists false. split; [reflexivity |]. split; [| reflexivity].
      intros _. left. destruct name; try discriminate; reflexivity. }
  destruct Hname as (bad & -> & Hbad). cbn [Exc.bind].
  set (e1 := pushIf (negb hasValidField) [] _).
  set (e2 := pushIf bad e1 _).
  set (e3 := pushIf _ e2 "Description must be a string if provided").
  set (e4 := validateBoardSvg boardSvg e3).
  assert (Hchain : e4 = [] <->
                   hasValidField = true /\ bad = false
                   /\ (description = JUndefined \/ exists d, description = JStr d)
                   /\ acceptableImage boardSvg).
  { split.
    - intros H4.
      pose proof (extends_nil _ _ (validateBoardSvg_extends _ _) H4) as H3.
      subst e4. rewrite H3 in H4. apply validateBoardSvg_accepts in H4.
      subst e3. apply pushIf_nil in H3 as [Hd H2].
      subst e2. apply pushIf_nil in H2 as [Hb H1].
      subst e1. apply pushIf_nil in H1 as [Hf _]. apply negb_false_iff in Hf.
      repeat split; try assumption.
      destruct description; try discriminate Hd; eauto.
    - intros (Hf & Hb & Hd & Himg).
      subst e4 e3 e2 e1. rewrite Hf, Hb. cbn [negb pushIf].
      replace (isDefined description && negb (String.eqb (typeof description) "string"))
        with false by (destruct Hd as [-> | (d & ->)]; reflexivity).
      cbn [pushIf]. apply validateBoardSvg_accepts. exact Himg. }
  assert (Hobject : hasValidField = true -> exists fields, body = JObj fields).
  { rewrite rejectedAsBody_cases in Hguard.
    destruct body; try discriminate Hguard; [discriminate | eauto]. }
  split.
  - destruct (isDefined pieces) eqn:Hdef; cbn [Exc.bind Exc.ret].
    + destruct pieces as [| | | | | items |] eqn:Hp; try discriminate Hdef;
        try (intros H; injection H as _ H; apply push_not_nil in H; contradiction).
      destruct items as [| piece rest];
        [intros H; injection H as _ H; apply push_not_nil in H; contradiction |].
      destruct (forEachPiece (piece :: rest) 0 e4) as [e | final] eqn:Hloop;
        cbn [Exc.bind]; [discriminate |].
      intros H. injection H as _ ->.
      apply forEachPiece_accepts in Hloop as [H4 Hall].
      apply Hchain in H4 as (Hf & Hb & Hd & Himg).
      split; [exact (Hobject Hf) |]. split; [exact Hf |].
      split; [apply Hbad; exact Hb |]. split; [exact Hd |]. split; [exact Himg |].
      right. eauto.
    + intros H. injection H as _ H4.
      apply Hchain in H4 as (Hf & Hb & Hd & Himg).
      split; [exact (Hobject Hf) |]. split; [exact Hf |].
      split; [apply Hbad; exact Hb |]. split; [exact Hd |]. split; [exact Himg |].
      left. destruct pieces; try discriminate Hdef; reflexivity.
  - intros (_ & Hf & Hn & Hd & Himg & Hp).
    assert (H4 : e4 = []).
    { apply Hchain. repeat split; try assumption. apply Hbad. exact Hn. }
    rewrite H4.
    destruct Hp as [-> | (piece & rest & -> & Hall)]; cbn [isDefined Exc.bind Exc.ret].
    + reflexivity.
    + assert (Hloop : forEachPiece (piece :: rest) 0 [] = inr [])
        by (apply forEachPiece_accepts; split; [reflexivity | exact Hall]).
      rewrite Hloop. reflexivity.
Qed.

(** X6.  [validateUpdateCustomization] accepts a body exactly when the body is an
    object in which at least one of [name], [description], [boardSvg] and
    [pieces] is present, and each one present is as a create request wants
    it: the name a string that is not blank, the description a string, the
    board image a string passing both image checks, the pieces a non-empty
    array of acceptable pieces. *)
Theorem validateUpdateCustomization_accepts (body : JsVal) :
  validateUpdateCustomization body = inr (mkResult true [])
  <-> (exists fields, body = JObj fields)
      /\ (isDefined (field body "name") || isDefined (field body "description")
          || isDefined (field body "boardSvg") || isDefined (field body "pieces") = true)
      /\ (field body "name" = JUndefined
          \/ exists n, field body "name" = JStr n /\ trimString n <> EmptyString)
      /\ (field body "description" = JUndefined
          \/ exists d, field body "description" = JStr d)
      /\ acceptableImage (field body "boardSvg")
      /\ (field body "pieces" = JUndefined
          \/ exists piece rest, field body "pieces" = JArr (piece :: rest)
                                /\ Forall acceptablePiece (piece :: rest)).
Proof. exact (validateUpdateCustomization_clean body). Qed.

Lemma validateUpdateCustomization_accepts_witness :
  validateUpdateCustomization (JObj [("description", JStr EmptyString)])
  = inr (mkResult true []).
Proof.
  apply (validateUpdateCustomization_accepts (JObj [("description", JStr EmptyString)])).
  split; [eexists; reflexivity |].
  split; [reflexivity |].
  split; [left; reflexivity |].
  split; [right; eexists; reflexivity |].
  split; [left; reflexivity | left; reflexivity].
Defined.

End AcceptanceFacts.

Section ErrorHandlerFacts.

(** X7.  The error middleware answers every value it is handed except
    [undefined] and [null], on which reading [error.name] raises; the answer
    carries [details] for a [ValidationError] only. *)
Theorem errorHandler_answers (error : Thrown) :
  ((exists response, errorHandler error = inr response)
   <-> error <> ThrownValue JUndefined /\ error <> ThrownValue JNull)
  /\ (forall response e,
         errorHandler error = inr response ->
         body response = ErrorBody e ->
         details e <> None ->
         exists v, error = ThrownValidationError v /\ details e = Some (ve_errors v)).
Proof.
  split.
  - split.
    + intros [response H]. split; intros ->; discriminate H.
    + intros [Hu Hn]. unfold errorHandler.
      destruct error as [e | e | name message own | v]; cbn [instanceofValidationError
        instanceofAppError]; try (eexists; reflexivity).
      * unfold isJsonSyntaxError. cbn [nameOf hasBody Exc.bind Exc.ret].
        destruct (String.eqb name "SyntaxError"); cbn [Exc.bind];
          [| eexists; reflexivity].
        unfold hasProp. destruct (lookup own "body"); cbn [Exc.bind Exc.ret];
          eexists; reflexivity.
      * unfold isJsonSyntaxError. cbn [nameOf hasBody].
        destruct v as [| | b | n | s | items | fields]; try congruence;
          cbn [getProp Exc.bind Exc.ret]; try (eexists; reflexivity).
        destruct (lookup fields "name") as [[| | | | n | |] |]; cbn [Exc.bind Exc.ret];
          try (eexists; reflexivity).
        destruct (String.eqb n "SyntaxError"); cbn [Exc.bind]; [| eexists; reflexivity].
        unfold hasProp. destruct (lookup fields "body"); cbn [Exc.bind Exc.ret];
          eexists; reflexivity.
  - intros response e Hrun Hbody Hdetails. unfold errorHandler in Hrun.
    destruct error as [v | a | name message own | v];
      cbn [instanceofValidationError instanceofAppError] in Hrun.
    + injection Hrun as <-. cbn in Hbody. injection Hbody as <-. eauto.
    + injection Hrun as <-. cbn in Hbody. injection Hbody as <-.
      exfalso. apply Hdetails. reflexivity.
    + destruct (isJsonSyntaxError (ThrownError name message own)) as [| []];
        cbn [Exc.bind Exc.ret] in Hrun; try discriminate Hrun;
        injection Hrun as <-; cbn in Hbody; injection Hbody as <-;
        exfalso; apply Hdetails; reflexivity.
    + destruct (isJsonSyntaxError (ThrownValue v)) as [| []];
        cbn [Exc.bind Exc.ret] in Hrun; try discriminate Hrun;
        injection Hrun as <-; cbn in Hbody; injection Hbody as <-;
        exfalso; apply Hdetails; reflexivity.
Qed.

Lemma errorHandler_answers_witness :
  (exists response, errorHandler (ThrownValue (JNum 0)) = inr response)
  /\ exists v,
       ThrownValidationError (newValidationError ["Name is required"])
       = ThrownValidationError v
       /\ Some ["Name is required"] = Some (ve_errors v).
Proof.
  split.
  - apply (errorHandler_answers (ThrownValue (JNum 0))). split; discriminate.
  - apply (proj2 (errorHandler_answers
                    (ThrownValidationError (newValidationError ["Name is required"])))
             (mkResponse 400
                (ErrorBody (mkErrorResponse "Validation failed" "Invalid request data"
                              (Some ["Name is required"]))))
             (mkErrorResponse "Validation failed" "Invalid request data"
                (Some ["Name is required"])));
      [reflexivity | reflexivity | discriminate].
Defined.

End ErrorHandlerFacts.

Section ReadFacts.

Import Storage.

Lemma getById_read (id : string) (conn : Connection) :
  getById id conn = (conn, inr (readAggregate id (current conn))).
Proof.
  unfold getById, readAggregate, tryCatch.
  destruct (isValidUUID id); cbn [negb]; [| reflexivity].
  unfold Pg.bind, selectWithPieces.
  rewrite (withDatabase_read
             (fun db => map project
                          (orderByPieceId
                             (flat_map (leftJoin db) (filter (hasId id) (customizations db)))))).
  destruct (List.length _ =? 0); reflexivity.
Qed.

End ReadFacts.

Section WriteFacts.

Import Storage.

Lemma database_eta (db : Database) :
  mkDatabase (customizations db) (chess_pieces db) (chess_pieces_id_seq db) = db.
Proof. destruct db; reflexivity. Qed.

Lemma existsb_filter_length {A} (f : A -> bool) (l : list A) :
  existsb f l = (0 <? List.length (filter f l)).
Proof.
  induction l as [| x l IH]; [reflexivity |].
  cbn [existsb filter]. destruct (f x); [reflexivity | exact IH].
Qed.

Lemma hasId_assign (id id' : string) (now : Date) (a : Assignments) (row : CustomizationRow) :
  hasId id (if hasId id' row then assign now a row else row) = hasId id row.
Proof. destruct (hasId id' row); reflexivity. Qed.

Lemma existsb_hasId_assign (id id' : string) (now : Date) (a : Assignments)
    (cs : list CustomizationRow) :
  existsb (hasId id) (map (fun row => if hasId id' row then assign now a row else row) cs)
  = existsb (hasId id) cs.
Proof.
  induction cs as [| c cs IH]; [reflexivity |].
  cbn [map existsb]. rewrite hasId_assign, IH. reflexivity.
Qed.

(** [create] fails, with the store as it was, when the name is longer than
    its column or the generated identifier is taken. *)
Lemma create_fails (uuid : string) (now : Date) (data : CreateChessCustomizationRequest)
    (db : Database) :
  255 < String.length (create_name data)
  \/ existsb (hasId uuid) (customizations db) = true ->
  exists reason,
    create uuid now data (idle db)
    = (idle db, inl (newError ("Failed to create chess customization: " ++ reason))).
Proof.
  intros Hwhy.
  unfold create, tryCatch, Pg.bind at 1, BEGIN. cbn [idle current].
  unfold Pg.bind at 1, insertCustomization, withDatabase. cbn [current atBegin].
  destruct (255 <? String.length (create_name data)) eqn:Hlong.
  - eexists. cbn. rewrite database_eta. reflexivity.
  - destruct Hwhy as [Hlen | Htaken]; [apply Nat.ltb_ge in Hlong; lia |].
    rewrite Htaken. eexists. cbn. rewrite database_eta. reflexivity.
Qed.

(** [update] of an aggregate that is not there: nothing is written. *)
Lemma update_absent (now : Date) (id : string) (data : UpdateChessCustomizationRequest)
    (db : Database) :
  existsb (hasId id) (customizations db) = false ->
  update now id data (idle db) = (idle db, inr None).
Proof.
  intros Habsent. unfold update.
  destruct (isValidUUID id); cbn [negb]; [| reflexivity].
  unfold tryCatch, Pg.bind at 1, BEGIN. cbn [idle current].
  unfold Pg.bind at 1, selectCustomization.
  rewrite (withDatabase_read (fun db => filter (hasId id) (customizations db))).
  cbn [current]. rewrite (filter_none _ _ Habsent). cbn. rewrite database_eta. reflexivity.
Qed.

(** [update] of an aggregate that is there, with a name that fits. *)
Lemma update_ok (now : Date) (id : string) (data : UpdateChessCustomizationRequest)
    (db : Database) :
  isValidUUID id = true ->
  existsb (hasId id) (customizations db) = true ->
  nameFits data ->
  update now id data (idle db)
  = (idle (afterUpdate now id data db),
     inr (readAggregate id (afterUpdate now id data db))).
Proof.
  intros Hvalid Hexists Hfits.
  unfold update. rewrite Hvalid. cbn [negb].
  unfold tryCatch, Pg.bind at 1, BEGIN. cbn [idle current].
  unfold Pg.bind at 1, selectCustomization.
  rewrite (withDatabase_read (fun db => filter (hasId id) (customizations db))).
  cbn [current].
  pose proof Hexists as Hlen. rewrite existsb_filter_length in Hlen.
  destruct (filter (hasId id) (customizations db)) as [| c0 found] eqn:Hfound;
    [discriminate Hlen |].
  cbn [List.length Nat.eqb]. clear Hlen.
  assert (Hstep1 :
    forall conn0 : Connection,
      current conn0 = db ->
      (if 0 <? List.length
                 (pushField (update_boardSvg data)
                    (pushField (update_description data)
                       (pushField (update_name data) [] "name") "description") "board_svg")
       then updateCustomizationRow now
              (mkAssignments (update_name data) (update_description data)
                 (update_boardSvg data)) id
       else Pg.ret tt) conn0
      = (mkConnection
           (mkDatabase (customizations (afterUpdate now id data db))
              (chess_pieces db) (chess_pieces_id_seq db))
           (atBegin conn0),
         inr tt)).
  { intros conn0 Hcur. unfold afterUpdate, nameFits in *.
    destruct (update_name data) as [n |], (update_description data) as [d |],
      (update_boardSvg data) as [b |];
      cbn [pushField List.length app Nat.ltb Nat.leb];
      try (unfold updateCustomizationRow, withDatabase; rewrite Hcur;
           cbn [set_name];
           try (replace (255 <? String.length n) with false
                  by (symmetry; apply Nat.ltb_ge; exact Hfits));
           cbn [andb];
           destruct (update_pieces data); reflexivity).
    unfold Pg.ret. destruct conn0 as [cur saved]. cbn in Hcur. subst cur.
    rewrite <- (database_eta db) at 1.
    destruct (update_pieces data); reflexivity. }
  unfold Pg.bind at 1. rewrite Hstep1 by reflexivity. cbn [atBegin].
  unfold Pg.bind at 1.
  destruct (update_pieces data) as [ps |] eqn:Hps.
  - unfold Pg.bind at 1, deleteChessPieces, withDatabase. cbn [current atBegin].
    rewrite insertEach_ok.
    + cbn [current atBegin customizations chess_pieces chess_pieces_id_seq].
      unfold Pg.bind at 1, COMMIT. cbn [current].
      rewrite getById_read. cbn [current].
      assert (Hafter :
        mkDatabase (customizations (afterUpdate now id data db))
          (filter (fun p => negb (belongsTo id p)) (chess_pieces db)
           ++ pieceRows (uuid_in id) (chess_pieces_id_seq db) ps)%list
          (chess_pieces_id_seq db + List.length ps)
        = afterUpdate now id data db)
        by (unfold afterUpdate; rewrite Hps; reflexivity).
      rewrite Hafter. reflexivity.
    + cbn [current customizations]. unfold afterUpdate.
      destruct (update_name data), (update_description data), (update_boardSvg data);
        rewrite Hps; cbn [customizations];
        rewrite ?existsb_hasId_assign; exact Hexists.
  - unfold Pg.ret at 1. unfold Pg.bind at 1, COMMIT. cbn [current].
    rewrite getById_read. cbn [current].
    assert (Hafter :
      mkDatabase (customizations (afterUpdate now id data db))
        (chess_pieces db) (chess_pieces_id_seq db)
      = afterUpdate now id data db)
      by (unfold afterUpdate; rewrite Hps; reflexivity).
    rewrite Hafter. reflexivity.
Qed.

End WriteFacts.

Section InvariantFacts.

Import Storage.

Lemma filter_negb_none {A} (f : A -> bool) (l : list A) :
  existsb f l = false -> filter (fun x => negb (f x)) l = l.
Proof.
  induction l as [| x l IH]; [reflexivity |].
  cbn [existsb filter]. intros H. apply orb_false_iff in H as [Hx Hl].
  rewrite Hx, (IH Hl). reflexivity.
Qed.

Lemma update_fails (now : Date) (id : string) (data : UpdateChessCustomizationRequest)
    (db : Database) :
  isValidUUID id = true ->
  existsb (hasId id) (customizations db) = true ->
  ~ nameFits data ->
  update now id data (idle db)
  = (idle db,
     inl (newError ("Failed to update chess customization: "
                    ++ "value too long for type character varying(255)"))).
Proof.
  intros Hvalid Hexists Hfits.
  unfold update. rewrite Hvalid. cbn [negb].
  unfold tryCatch, Pg.bind at 1, BEGIN. cbn [idle current].
  unfold Pg.bind at 1, selectCustomization.
  rewrite (withDatabase_read (fun db => filter (hasId id) (customizations db))).
  cbn [current].
  pose proof Hexists as Hlen. rewrite existsb_filter_length in Hlen.
  destruct (filter (hasId id) (customizations db)) as [| c0 found] eqn:Hfound;
    [discriminate Hlen |].
  cbn [List.length Nat.eqb]. clear Hlen.
  unfold nameFits in Hfits.
  destruct (update_name data) as [n |] eqn:Hn; [| exfalso; apply Hfits; exact I].
  assert (Hlong : (255 <? String.length n) = true) by (apply Nat.ltb_lt; lia).
  unfold Pg.bind at 1.
  assert (Hstep :
    (if 0 <? List.length
               (pushField (update_boardSvg data)
                  (pushField (update_description data)
                     (pushField (Some n) [] "name") "description") "board_svg")
     then updateCustomizationRow now
            (mkAssignments (Some n) (update_description data) (update_boardSvg data)) id
     else Pg.ret tt) (mkConnection db (Some db))
    = (mkConnection db (Some db),
       inl (databaseError "value too long for type character varying(255)"))).
  { destruct (update_description data), (update_boardSvg data);
      cbn [pushField List.length app Nat.ltb Nat.leb];
      unfold updateCustomizationRow, withDatabase; cbn [current atBegin set_name];
      rewrite Hlong, Hexists; reflexivity. }
  rewrite Hstep. cbn. rewrite database_eta. reflexivity.
Qed.

Lemma delete_spec (id : string) (db : Database) :
  delete id (idle db)
  = if isValidUUID id && existsb (hasId id) (customizations db)
    then (idle (afterDelete id db), inr true)
    else (idle db, inr false).
Proof.
  unfold delete, tryCatch.
  destruct (isValidUUID id); cbn [negb andb]; [| reflexivity].
  unfold Pg.bind, deleteCustomization, withDatabase. cbn [idle current atBegin].
  rewrite <- existsb_filter_length.
  destruct (existsb (hasId id) (customizations db)) eqn:Hexists.
  - reflexivity.
  - rewrite (filter_negb_none _ _ Hexists), database_eta. reflexivity.
Qed.

Lemma clear_spec (db : Database) :
  foreignKeyHolds db ->
  clear (idle db) = (idle (mkDatabase [] [] (chess_pieces_id_seq db)), inr tt).
Proof.
  intros Hfk. unfold clear, tryCatch, deleteAllCustomizations, withDatabase.
  cbn [idle current atBegin].
  rewrite filter_none; [reflexivity |].
  destruct (existsb _ (chess_pieces db)) eqn:Hex; [| reflexivity].
  apply existsb_exists in Hex as (p & Hin & Horphan).
  apply negb_true_iff in Horphan.
  destruct (Hfk p Hin) as (c & Hc & Hid).
  assert (Hparent : existsb (fun c => String.eqb (c_id c) (cp_customization_id p))
                      (customizations db) = true).
  { apply existsb_exists. exists c. split; [exact Hc | apply String.eqb_eq; exact Hid]. }
  congruence.
Qed.

Lemma wellFormed_afterCreate (uuid : string) (now : Date)
    (data : CreateChessCustomizationRequest) (db : Database) :
  wellFormed db ->
  existsb (hasId uuid) (customizations db) = false ->
  wellFormed (afterCreate uuid now data db).
Proof.
  intros [Hpk Hfk] Hfresh. split.
  - unfold primaryKeyHolds, afterCreate in *. cbn [customizations].
    rewrite map_app. cbn [map]. apply NoDup_app; [exact Hpk | repeat constructor; intros [] |].
    intros k Hk [<- | []].
    apply in_map_iff in Hk as (c & Hid & Hc).
    assert (Htaken : existsb (hasId uuid) (customizations db) = true).
    { apply existsb_exists. exists c. split; [exact Hc |].
      unfold hasId. apply String.eqb_eq. exact Hid. }
    congruence.
  - intros p Hp. unfold afterCreate in *. cbn [customizations chess_pieces] in *.
    apply in_app_or in Hp as [Hold | Hnew].
    + destruct (Hfk p Hold) as (c & Hc & Hid).
      exists c. split; [apply in_or_app; left; exact Hc | exact Hid].
    + exists (createdRow uuid now data).
      split; [apply in_or_app; right; left; reflexivity |].
      pose proof (pieceRows_belong (uuid_in uuid) (create_pieces data)
                    (chess_pieces_id_seq db)) as Hall.
      rewrite forallb_forall in Hall. apply Hall in Hnew.
      apply String.eqb_eq in Hnew. exact Hnew.
Qed.

Lemma map_c_id_assign (id : string) (now : Date) (a : Assignments)
    (cs : list CustomizationRow) :
  map c_id (map (fun row => if hasId id row then assign now a row else row) cs)
  = map c_id cs.
Proof.
  rewrite map_map. apply map_ext. intros row. destruct (hasId id row); reflexivity.
Qed.

Lemma customizations_afterUpdate (now : Date) (id : string)
    (data : UpdateChessCustomizationRequest) (db : Database) :
  map c_id (customizations (afterUpdate now id data db)) = map c_id (customizations db).
Proof.
  unfold afterUpdate.
  destruct (update_name data), (update_description data), (update_boardSvg data),
    (update_pieces data); cbn [customizations];
    rewrite ?map_c_id_assign; reflexivity.
Qed.

Lemma has_parent_by_ids (cs cs' : list CustomizationRow) (key : string) :
  map c_id cs = map c_id cs' ->
  (exists c, In c cs /\ c_id c = key) -> exists c, In c cs' /\ c_id c = key.
Proof.
  intros Hids (c & Hc & Hid).
  assert (Hk : In key (map c_id cs')).
  { rewrite <- Hids, <- Hid. apply in_map. exact Hc. }
  apply in_map_iff in Hk as (c' & Hid' & Hc'). eauto.
Qed.

Lemma wellFormed_afterUpdate (now : Date) (id : string)
    (data : UpdateChessCustomizationRequest) (db : Database) :
  wellFormed db ->
  existsb (hasId id) (customizations db) = true ->
  wellFormed (afterUpdate now id data db).
Proof.
  intros [Hpk Hfk] Hexists.
  pose proof (customizations_afterUpdate now id data db) as Hids.
  split.
  - unfold primaryKeyHolds in *. rewrite Hids. exact Hpk.
  - intros p Hp.
    apply (has_parent_by_ids (customizations db)); [symmetry; exact Hids |].
    unfold afterUpdate in Hp.
    destruct (update_pieces data) as [ps |]; cbn [chess_pieces] in Hp.
    + apply in_app_or in Hp as [Hold | Hnew].
      * apply filter_In in Hold as [Hold _]. exact (Hfk p Hold).
      * apply existsb_exists in Hexists as (c & Hc & Hid).
        exists c. split; [exact Hc |].
        unfold hasId in Hid. apply String.eqb_eq in Hid. rewrite Hid.
        pose proof (pieceRows_belong (uuid_in id) ps (chess_pieces_id_seq db)) as Hall.
        rewrite forallb_forall in Hall. apply Hall in Hnew.
        apply String.eqb_eq in Hnew. exact Hnew.
    + exact (Hfk p Hp).
Qed.

(** Taking rows out of [customizations] keeps its primary key. *)
Lemma primaryKey_kept (keep : CustomizationRow -> bool) (rows : list CustomizationRow) :
  NoDup (map c_id rows) -> NoDup (map c_id (filter keep rows)).
Proof.
  intros Hpk. induction rows as [| row rows IH]; [exact Hpk |].
  apply NoDup_cons_iff in Hpk as [Hnew Hpk]. cbn [filter].
  destruct (keep row); [| exact (IH Hpk)].
  cbn [map]. apply NoDup_cons; [| exact (IH Hpk)].
  rewrite in_map_iff. intros (other & Hsame & Hother).
  apply Hnew. rewrite <- Hsame. apply in_map.
  apply filter_In in Hother. tauto.
Qed.

Lemma wellFormed_afterDelete (id : string) (db : Database) :
  wellFormed db -> wellFormed (afterDelete id db).
Proof.
  intros [Hpk Hfk]. split.
  - unfold primaryKeyHolds, afterDelete in *. cbn [customizations].
    apply primaryKey_kept. exact Hpk.
  - intros p Hp. unfold afterDelete in *. cbn [customizations chess_pieces] in *.
    apply filter_In in Hp as [Hp Hother]. apply negb_true_iff in Hother.
    destruct (Hfk p Hp) as (c & Hc & Hid).
    exists c. split; [| exact Hid].
    apply filter_In. split; [exact Hc |].
    apply negb_true_iff. unfold hasId. unfold belongsTo in Hother.
    rewrite Hid. exact Hother.
Qed.

(** X8.  The primary key of [customizations] and the foreign key of
    [chess_pieces] survive every operation of the gateway, whether it
    succeeds or fails, and each operation leaves the connection outside any
    transaction. *)
Theorem wellFormed_preserved (db : Database) :
  wellFormed db ->
  (forall uuid now data,
      exists db', fst (create uuid now data (idle db)) = idle db' /\ wellFormed db')
  /\ (forall now id data,
         exists db', fst (update now id data (idle db)) = idle db' /\ wellFormed db')
  /\ (forall id, exists db', fst (delete id (idle db)) = idle db' /\ wellFormed db')
  /\ (exists db', fst (clear (idle db)) = idle db' /\ wellFormed db').
Proof.
  intros Hwf. split; [| split; [| split]].
  - intros uuid now data.
    destruct (Nat.le_gt_cases (String.length (create_name data)) 255) as [Hfit | Hlong].
    + destruct (existsb (hasId uuid) (customizations db)) eqn:Hfresh.
      * destruct (create_fails uuid now data db (or_intror Hfresh)) as [reason ->].
        exists db. split; [reflexivity | exact Hwf].
      * rewrite (create_ok uuid now data db Hfit Hfresh).
        exists (afterCreate uuid now data db).
        split; [reflexivity | apply wellFormed_afterCreate; assumption].
    + destruct (create_fails uuid now data db (or_introl Hlong)) as [reason ->].
      exists db. split; [reflexivity | exact Hwf].
  - intros now id data.
    destruct (isValidUUID id) eqn:Hvalid.
    + destruct (existsb (hasId id) (customizations db)) eqn:Hexists.
      * assert (Hdec : nameFits data \/ ~ nameFits data).
        { unfold nameFits. destruct (update_name data) as [n |]; [| left; exact I].
          destruct (Nat.le_gt_cases (String.length n) 255); [left | right]; lia. }
        destruct Hdec as [Hfits | Hlong].
        -- rewrite (update_ok now id data db Hvalid Hexists Hfits).
           exists (afterUpdate now id data db).
           split; [reflexivity | apply wellFormed_afterUpdate; assumption].
        -- rewrite (update_fails now id data db Hvalid Hexists Hlong).
           exists db. split; [reflexivity | exact Hwf].
      * rewrite (update_absent now id data db Hexists).
        exists db. split; [reflexivity | exact Hwf].
    + unfold update. rewrite Hvalid. exists db. split; [reflexivity | exact Hwf].
  - intros id. rewrite delete_spec.
    destruct (isValidUUID id && existsb (hasId id) (customizations db)).
    + exists (afterDelete id db). split; [reflexivity | apply wellFormed_afterDelete; exact Hwf].
    + exists db. split; [reflexivity | exact Hwf].
  - rewrite (clear_spec db (proj2 Hwf)).
    eexists. split; [reflexivity |].
    split; [constructor | intros p []].
Qed.

Lemma wellFormed_sampleDatabase : wellFormed sampleDatabase.
Proof.
  split.
  - unfold primaryKeyHolds. cbn. constructor; [intros [] | constructor].
  - intros p [<- | []]. eexists. split; [left; reflexivity | reflexivity].
Qed.

Lemma wellFormed_preserved_witness :
  exists db',
    fst (update 9 sampleId (mkUpdateRequest (Some "Renamed") None None (Some [blackKing]))
           (idle sampleDatabase)) = idle db'
    /\ wellFormed db'.
Proof.
  destruct (wellFormed_preserved sampleDatabase wellFormed_sampleDatabase)
    as (_ & Hupdate & _).
  exact (Hupdate 9 sampleId (mkUpdateRequest (Some "Renamed") None None (Some [blackKing]))).
Defined.

End InvariantFacts.

Section CountFacts.

Import Storage Globals.

Lemma parseDigits_decimal (d : Decimal.uint) :
  forall (acc : nat) (seen : bool),
    d <> Decimal.Nil \/ seen = true ->
    parseDigits 10 (NilEmpty.string_of_uint d) (Z.of_nat acc) seen
    = Some (Z.of_nat (Nat.of_uint_acc d acc)).
Proof.
  induction d as [| d IH | d IH | d IH | d IH | d IH | d IH | d IH | d IH | d IH | d IH];
    intros acc seen Hseen;
    [ destruct Hseen as [Hnil | ->]; [congruence | reflexivity] | .. ];
    cbn [NilEmpty.string_of_uint Nat.of_uint_acc parseDigits];
    match goal with
    | |- context [digitValue ?c] =>
        let v := eval vm_compute in (digitValue c) in
        change (digitValue c) with v
    end;
    cbn [Z.ltb Z.compare Pos.compare Pos.compare_cont];
    match goal with
    | |- context [Nat.of_uint_acc d ?a] =>
        rewrite <- (IH a true (or_intror eq_refl))
    end;
    f_equal; rewrite Nat.tail_mul_spec; lia.
Qed.

Lemma to_uint_not_nil (n : nat) : Nat.to_uint n <> Decimal.Nil.
Proof.
  rewrite <- (DecimalNat.Unsigned.of_to n) at 1.
  rewrite DecimalNat.Unsigned.to_of. unfold Decimal.unorm.
  destruct (Decimal.nzhead (Nat.to_uint n)); discriminate.
Qed.

Lemma string_of_uint_digits (d : Decimal.uint) :
  match NilEmpty.string_of_uint d with
  | String c0 (String c1 _) => isDecimalDigit c0 = true /\ isDecimalDigit c1 = true
  | String c0 EmptyString => isDecimalDigit c0 = true
  | EmptyString => d = Decimal.Nil
  end.
Proof.
  destruct d as [| d | d | d | d | d | d | d | d | d | d]; [reflexivity | ..];
    destruct d; cbn; auto.
Qed.

Lemma parseInt_digits (c0 : ascii) (rest : string) :
  isDecimalDigit c0 = true ->
  match rest with
  | String c1 _ => isDecimalDigit c1 = true
  | EmptyString => True
  end ->
  parseInt (String c0 rest) = parseDigits 10 (String c0 rest) 0 false.
Proof.
  intros H0 H1. unfold parseInt.
  assert (Hws : isWhiteSpace c0 = false).
  { destruct c0 as [[] [] [] [] [] [] [] []]; try discriminate H0; reflexivity. }
  cbn [trimStart]. rewrite Hws.
  assert (Hminus : Ascii.eqb c0 "-" = false).
  { destruct c0 as [[] [] [] [] [] [] [] []]; try discriminate H0; reflexivity. }
  assert (Hplus : Ascii.eqb c0 "+" = false).
  { destruct c0 as [[] [] [] [] [] [] [] []]; try discriminate H0; reflexivity. }
  rewrite Hminus, Hplus.
  assert (Hmagnitude :
    match String c0 rest with
    | String a (String b tail) =>
        if Ascii.eqb a "0" && (Ascii.eqb b "x" || Ascii.eqb b "X")
        then parseDigits 16 tail 0 false
        else parseDigits 10 (String c0 rest) 0 false
    | _ => parseDigits 10 (String c0 rest) 0 false
    end = parseDigits 10 (String c0 rest) 0 false).
  { destruct rest as [| c1 tail]; [reflexivity |].
    assert (Hx : Ascii.eqb c1 "x" || Ascii.eqb c1 "X" = false).
    { destruct c1 as [[] [] [] [] [] [] [] []]; try discriminate H1; reflexivity. }
    rewrite Hx, andb_false_r. reflexivity. }
  rewrite Hmagnitude.
  destruct (parseDigits 10 (String c0 rest) 0 false) as [z |]; cbn [option_map];
    [destruct z; reflexivity | reflexivity].
Qed.

(** [parseInt] reads back the decimal text of a natural number. *)
Lemma parseInt_showNat (n : nat) : parseInt (showNat n) = Some (Z.of_nat n).
Proof.
  unfold showNat.
  pose proof (string_of_uint_digits (Nat.to_uint n)) as Hdigits.
  pose proof (parseDigits_decimal (Nat.to_uint n) 0 false
                (or_introl (to_uint_not_nil n))) as Hparse.
  change (Nat.of_uint_acc (Nat.to_uint n) 0) with (Nat.of_uint (Nat.to_uint n)) in Hparse.
  rewrite DecimalNat.Unsigned.of_to in Hparse.
  destruct (NilEmpty.string_of_uint (Nat.to_uint n)) as [| c0 [| c1 rest]].
  - exfalso. exact (to_uint_not_nil n Hdigits).
  - rewrite parseInt_digits by (exact Hdigits || exact I). exact Hparse.
  - rewrite parseInt_digits by tauto. exact Hparse.
Qed.

Lemma count_spec (conn : Connection) :
  count conn = (conn, inr (Some (Z.of_nat (List.length (customizations (current conn)))))).
Proof.
  unfold count, tryCatch, Pg.bind, selectCount.
  rewrite (withDatabase_read (fun db => showNat (List.length (customizations db)))).
  unfold Pg.ret. rewrite parseInt_showNat. reflexivity.
Qed.



End CountFacts.

Section DeleteFacts.

Import Storage.

Lemma existsb_after_filter {A} (f : A -> bool) (l : list A) :
  existsb f (filter (fun x => negb (f x)) l) = false.
Proof.
  induction l as [| x l IH]; [reflexivity |].
  cbn [filter]. destruct (f x) eqn:Hx; cbn [negb]; [exact IH |].
  cbn [existsb]. rewrite Hx, IH. reflexivity.
Qed.

Lemma filter_partition_length {A} (f : A -> bool) (l : list A) :
  List.length (filter f l) + List.length (filter (fun x => negb (f x)) l) = List.length l.
Proof.
  induction l as [| x l IH]; [reflexivity |].
  cbn [filter]. destruct (f x); cbn [negb List.length]; lia.
Qed.

Lemma readAggregate_absent (id : string) (db : Database) :
  existsb (hasId id) (customizations db) = false -> readAggregate id db = None.
Proof.
  intros Habsent. unfold readAggregate.
  destruct (isValidUUID id); cbn [negb]; [| reflexivity].
  rewrite (filter_none _ _ Habsent). reflexivity.
Qed.

(** [delete] of an existing aggregate, step by step. *)
Lemma delete_existing (id : string) (db : Database) :
  wellFormed db ->
  snd (exists_ id (idle db)) = inr true ->
  exists conn,
    delete id (idle db) = (conn, inr true)
    /\ exists_ id conn = (conn, inr false)
    /\ getById id conn = (conn, inr None)
    /\ delete id conn = (conn, inr false)
    /\ filter (belongsTo id) (chess_pieces (current conn)) = []
    /\ snd (count conn)
       = inr (Some (Z.of_nat (List.length (customizations db)) - 1)%Z).
Proof.
  intros [Hpk _] Hexists.
  destruct (existing_row id db Hpk Hexists) as (Hvalid & c & Hrow & _).
  assert (Hfound : existsb (hasId id) (customizations db) = true)
    by (rewrite existsb_filter_length, Hrow; reflexivity).
  assert (Hgone : existsb (hasId id) (customizations (afterDelete id db)) = false)
    by apply existsb_after_filter.
  exists (idle (afterDelete id db)).
  split; [rewrite delete_spec, Hvalid, Hfound; reflexivity |].
  split.
  { rewrite exists_spec. cbn [idle current].
    rewrite <- existsb_filter_length, Hgone, andb_false_r. reflexivity. }
  split; [rewrite getById_read; cbn [idle current];
          rewrite (readAggregate_absent _ _ Hgone); reflexivity |].
  split.
  { rewrite delete_spec, Hgone, andb_false_r. reflexivity. }
  split.
  { cbn [idle current afterDelete chess_pieces]. apply filter_none.
    apply existsb_after_filter. }
  rewrite count_spec. cbn [snd idle current afterDelete customizations].
  pose proof (filter_partition_length (hasId id) (customizations db)) as Hlen.
  rewrite Hrow in Hlen. cbn [List.length] in Hlen.
  do 2 f_equal. lia.
Qed.

(** X10.  [delete] of an existing aggregate answers [true] and removes the parent
    row with all its child rows: afterwards [exists] answers [false],
    [getById] answers [undefined], a second [delete] answers [false], and
    [count] is one less. *)
Theorem delete_removes (id : string) (db : Database) :
  wellFormed db ->
  snd (exists_ id (idle db)) = inr true ->
  exists conn,
    delete id (idle db) = (conn, inr true)
    /\ exists_ id conn = (conn, inr false)
    /\ getById id conn = (conn, inr None)
    /\ delete id conn = (conn, inr false)
    /\ filter (belongsTo id) (chess_pieces (current conn)) = []
    /\ snd (count conn)
       = inr (Some (Z.of_nat (List.length (customizations db)) - 1)%Z).
Proof. exact (delete_existing id db). Qed.

Lemma delete_removes_witness :
  exists conn,
    delete sampleId (idle sampleDatabase) = (conn, inr true)
    /\ exists_ sampleId conn = (conn, inr false)
    /\ getById sampleId conn = (conn, inr None)
    /\ delete sampleId conn = (conn, inr false)
    /\ filter (belongsTo sampleId) (chess_pieces (current conn)) = []
    /\ snd (count conn)
       = inr (Some (Z.of_nat (List.length (customizations sampleDatabase)) - 1)%Z).
Proof.
  apply (delete_removes sampleId sampleDatabase).
  - exact wellFormed_sampleDatabase.
  - reflexivity.
Defined.

(** X11.  [delete] of an identifier for which [exists] answers [false] -- never
    created, already deleted, or malformed -- answers [false], raises
    nothing and leaves the store as it was. *)
Theorem delete_absent (id : string) (db : Database) :
  snd (exists_ id (idle db)) = inr false ->
  delete id (idle db) = (idle db, inr false).
Proof.
  intros Hexists. rewrite exists_spec in Hexists. cbn [snd idle current] in Hexists.
  rewrite delete_spec, existsb_filter_length.
  destruct (isValidUUID id
            && (0 <? List.length (filter (hasId id) (customizations db))));
    [discriminate Hexists | reflexivity].
Qed.

Lemma delete_absent_witness :
  delete "9b2e4567-e89b-42d3-a456-426614174999" (idle sampleDatabase)
  = (idle sampleDatabase, inr false).
Proof.
  apply (delete_absent "9b2e4567-e89b-42d3-a456-426614174999" sampleDatabase).
  reflexivity.
Defined.

(** X12.  [clear] empties both tables of a store whose foreign key holds:
    afterwards [count] is 0, [getAll] is the empty list, and no identifier
    exists or can be read. *)
Theorem clear_empties (db : Database) :
  foreignKeyHolds db ->
  exists conn,
    clear (idle db) = (conn, inr tt)
    /\ customizations (current conn) = []
    /\ chess_pieces (current conn) = []
    /\ snd (count conn) = inr (Some 0%Z)
    /\ snd (getAll conn) = inr []
    /\ (forall id, snd (getById id conn) = inr None
                   /\ snd (exists_ id conn) = inr false).
Proof.
  intros Hfk. exists (idle (mkDatabase [] [] (chess_pieces_id_seq db))).
  split; [apply clear_spec; exact Hfk |].
  split; [reflexivity |]. split; [reflexivity |].
  split; [rewrite count_spec; reflexivity |].
  split; [reflexivity |].
  intros id. split.
  - rewrite getById_read. cbn [snd idle current].
    rewrite readAggregate_absent; reflexivity.
  - rewrite exists_spec. cbn [snd idle current customizations filter List.length].
    rewrite andb_false_r. reflexivity.
Qed.

Lemma clear_empties_witness :
  exists conn,
    clear (idle sampleDatabase) = (conn, inr tt)
    /\ customizations (current conn) = []
    /\ chess_pieces (current conn) = []
    /\ snd (count conn) = inr (Some 0%Z)
    /\ snd (getAll conn) = inr []
    /\ (forall id, snd (getById id conn) = inr None
                   /\ snd (exists_ id conn) = inr false).
Proof.
  apply (clear_empties sampleDatabase).
  exact (proj2 wellFormed_sampleDatabase).
Defined.

End DeleteFacts.

Section GeneralRead.

Import Storage.

Lemma transformRow_first (c : CustomizationRow) (cp : option ChessPieceRow) :
  transformRow [] (project (c, cp)) = [(c_id c, aggregate c (piecesRead [(c, cp)]))].
Proof.
  unfold transformRow, piecesRead.
  cbn [project r_id r_name r_description r_board_svg r_created_at r_updated_at
       r_type r_color r_svg_data mapHas existsb negb mapSet flat_map snd].
  destruct cp as [p |]; cbn [option_map]; [| reflexivity].
  rewrite truthyColumn_pieceTypeName, truthyColumn_pieceColorName. cbn [andb truthyColumn].
  destruct (truthy (JStr (cp_svg_data p))); [| reflexivity].
  cbn [pushPiece]. rewrite String.eqb_refl. reflexivity.
Qed.

Lemma transformRow_next (c : CustomizationRow) (acc : list ChessPiece)
    (cp : option ChessPieceRow) :
  transformRow [(c_id c, aggregate c acc)] (project (c, cp))
  = [(c_id c, aggregate c (acc ++ piecesRead [(c, cp)]))].
Proof.
  unfold transformRow, piecesRead.
  cbn [project r_id r_type r_color r_svg_data mapHas existsb fst flat_map snd].
  rewrite String.eqb_refl. cbn [orb negb].
  destruct cp as [p |]; cbn [option_map]; [| rewrite !app_nil_r; reflexivity].
  rewrite truthyColumn_pieceTypeName, truthyColumn_pieceColorName. cbn [andb truthyColumn].
  destruct (truthy (JStr (cp_svg_data p))); [| rewrite !app_nil_r; reflexivity].
  cbn [pushPiece]. rewrite String.eqb_refl. rewrite app_nil_r. reflexivity.
Qed.

Lemma piecesRead_cons (j : Joined) (rows : list Joined) :
  piecesRead (j :: rows) = (piecesRead [j] ++ piecesRead rows)%list.
Proof. unfold piecesRead. cbn [flat_map]. rewrite app_nil_r. reflexivity. Qed.

Lemma fold_transformRow_same (c : CustomizationRow) (rows : list Joined) :
  Forall (fun j => fst j = c) rows ->
  forall acc,
    fold_left transformRow (map project rows) [(c_id c, aggregate c acc)]
    = [(c_id c, aggregate c (acc ++ piecesRead rows))].
Proof.
  induction 1 as [| [c' cp] rest Hc _ IH]; intros acc.
  - cbn. rewrite app_nil_r. reflexivity.
  - cbn [fst] in Hc. subst c'. cbn [map fold_left].
    rewrite transformRow_next, IH, <- app_assoc, <- piecesRead_cons. reflexivity.
Qed.

Lemma transformRows_same (c : CustomizationRow) (cp : option ChessPieceRow)
    (rows : list Joined) :
  Forall (fun j => fst j = c) rows ->
  transformRowsToCustomizations (map project ((c, cp) :: rows))
  = [aggregate c (piecesRead ((c, cp) :: rows))].
Proof.
  intros Hsame. unfold transformRowsToCustomizations. cbn [map fold_left].
  rewrite transformRow_first, (fold_transformRow_same c rows Hsame).
  rewrite <- piecesRead_cons. reflexivity.
Qed.

Lemma Forall_insertOrdered (P : Joined -> Prop) (x : Joined) (rows : list Joined) :
  P x -> Forall P rows -> Forall P (insertOrdered x rows).
Proof.
  intros Hx. induction 1 as [| y rest Hy Hrest IH]; cbn [insertOrdered].
  - repeat constructor. exact Hx.
  - destruct (pieceIdLe x y); repeat constructor; assumption.
Qed.

Lemma Forall_orderByPieceId (P : Joined -> Prop) (rows : list Joined) :
  Forall P rows -> Forall P (orderByPieceId rows).
Proof.
  induction 1 as [| x rest Hx _ IH]; cbn [orderByPieceId]; [constructor |].
  apply Forall_insertOrdered; assumption.
Qed.

Lemma insertOrdered_not_nil (x : Joined) (rows : list Joined) : insertOrdered x rows <> [].
Proof. destruct rows as [| y rest]; cbn; [| destruct (pieceIdLe x y)]; discriminate. Qed.

Lemma leftJoin_same (db : Database) (c : CustomizationRow) :
  Forall (fun j => fst j = c) (leftJoin db c) /\ leftJoin db c <> [].
Proof.
  unfold leftJoin.
  destruct (filter _ (chess_pieces db)) as [| p matching]; [split; [| discriminate] |].
  - repeat constructor.
  - split; [| discriminate].
    generalize (p :: matching). intros l. induction l; cbn; constructor; auto.
Qed.

(** What [getById] reads for a customization present once: its columns,
    and the pieces of its joined rows in the order of the piece ids. *)
Lemma readAggregate_found (id : string) (db : Database) (c : CustomizationRow) :
  isValidUUID id = true ->
  filter (hasId id) (customizations db) = [c] ->
  readAggregate id db
  = Some (aggregate c (piecesRead (orderByPieceId (leftJoin db c)))).
Proof.
  intros Hvalid Hrow. unfold readAggregate. rewrite Hvalid, Hrow. cbn [negb flat_map].
  rewrite app_nil_r.
  destruct (leftJoin_same db c) as [Hsame Hne].
  apply Forall_orderByPieceId in Hsame.
  destruct (orderByPieceId (leftJoin db c)) as [| [c' cp] rows] eqn:Hrows.
  - exfalso. destruct (leftJoin db c) as [| x rest]; [congruence |].
    cbn [orderByPieceId] in Hrows. exact (insertOrdered_not_nil _ _ Hrows).
  - apply Forall_cons_iff in Hsame as [Hc Hrest]. cbn [fst] in Hc. subst c'.
    pose proof (transformRows_same c cp rows Hrest) as Hread.
    unfold Joined in *. rewrite Hread. reflexivity.
Qed.





End GeneralRead.

Section UpdateFacts.

Import Storage.



End UpdateFacts.

Section IsolationFacts.

Import Storage.

Lemma flat_map_ext_in {A B} (f g : A -> list B) (l : list A) :
  (forall x, In x l -> f x = g x) -> flat_map f l = flat_map g l.
Proof.
  induction l as [| x l IH]; intros H; [reflexivity |].
  cbn [flat_map]. rewrite (H x (or_introl eq_refl)), IH; [reflexivity |].
  intros y Hy. apply H. right. exact Hy.
Qed.

Lemma readAggregate_ext (id : string) (db db' : Database) :
  filter (hasId id) (customizations db') = filter (hasId id) (customizations db) ->
  (forall c, hasId id c = true -> leftJoin db' c = leftJoin db c) ->
  readAggregate id db' = readAggregate id db.
Proof.
  intros Hrows Hjoin. unfold readAggregate. rewrite Hrows.
  rewrite (flat_map_ext_in (leftJoin db') (leftJoin db)); [reflexivity |].
  intros c Hc. apply filter_In in Hc as [_ Hc]. exact (Hjoin c Hc).
Qed.

Lemma leftJoin_ext (db db' : Database) (c : CustomizationRow) :
  filter (fun p => String.eqb (c_id c) (cp_customization_id p)) (chess_pieces db')
  = filter (fun p => String.eqb (c_id c) (cp_customization_id p)) (chess_pieces db) ->
  leftJoin db' c = leftJoin db c.
Proof. intros H. unfold leftJoin. rewrite H. reflexivity. Qed.

Lemma filter_other_pieceRows (key cid : string) (ps : list ChessPiece) :
  key <> cid ->
  forall next,
    filter (fun p => String.eqb key (cp_customization_id p)) (pieceRows cid next ps) = [].
Proof.
  intros Hne. induction ps as [| p rest IH]; intros next; [reflexivity |].
  cbn [pieceRows filter cp_customization_id].
  destruct (String.eqb_spec key cid); [contradiction | apply IH].
Qed.

Lemma filter_other_kept (id key : string) (cps : list ChessPieceRow) :
  key <> uuid_in id ->
  filter (fun p => String.eqb key (cp_customization_id p))
    (filter (fun p => negb (belongsTo id p)) cps)
  = filter (fun p => String.eqb key (cp_customization_id p)) cps.
Proof.
  intros Hne. induction cps as [| p rest IH]; [reflexivity |].
  cbn [filter]. unfold belongsTo at 1.
  destruct (String.eqb_spec (cp_customization_id p) (uuid_in id)) as [Hp | Hp];
    cbn [negb filter].
  - rewrite IH. destruct (String.eqb_spec key (cp_customization_id p)); [| reflexivity].
    congruence.
  - rewrite IH. reflexivity.
Qed.

Lemma hasId_other (id other : string) (c : CustomizationRow) :
  uuid_in other <> uuid_in id -> hasId other c = true -> hasId id c = false.
Proof.
  unfold hasId. intros Hne Hother. apply String.eqb_eq in Hother.
  apply String.eqb_neq. congruence.
Qed.

Lemma filter_other_assign (id other : string) (now : Date) (a : Assignments)
    (cs : list CustomizationRow) :
  uuid_in other <> uuid_in id ->
  filter (hasId other) (map (fun row => if hasId id row then assign now a row else row) cs)
  = filter (hasId other) cs.
Proof.
  intros Hne. induction cs as [| c cs IH]; [reflexivity |].
  cbn [map filter]. rewrite hasId_assign, IH.
  destruct (hasId other c) eqn:Hc; [| reflexivity].
  rewrite (hasId_other id other c Hne Hc). reflexivity.
Qed.

Lemma filter_other_deleted (id other : string) (cs : list CustomizationRow) :
  uuid_in other <> uuid_in id ->
  filter (hasId other) (filter (fun row => negb (hasId id row)) cs)
  = filter (hasId other) cs.
Proof.
  intros Hne. induction cs as [| c cs IH]; [reflexivity |].
  cbn [filter]. destruct (hasId id c) eqn:Hc; cbn [negb filter]; rewrite IH.
  - destruct (hasId other c) eqn:Ho; [| reflexivity].
    rewrite (hasId_other id other c Hne Ho) in Hc. discriminate Hc.
  - reflexivity.
Qed.

Lemma readAggregate_afterCreate (uuid other : string) (now : Date)
    (data : CreateChessCustomizationRequest) (db : Database) :
  uuid_in other <> uuid_in uuid ->
  readAggregate other (afterCreate uuid now data db) = readAggregate other db.
Proof.
  intros Hne. apply readAggregate_ext.
  - unfold afterCreate. cbn [customizations]. rewrite filter_app. cbn [filter].
    replace (hasId other (createdRow uuid now data)) with false; [apply app_nil_r |].
    symmetry. unfold hasId, createdRow. cbn [c_id]. apply String.eqb_neq. congruence.
  - intros c Hc. apply leftJoin_ext. unfold afterCreate. cbn [chess_pieces].
    rewrite filter_app, filter_other_pieceRows; [apply app_nil_r |].
    unfold hasId in Hc. apply String.eqb_eq in Hc. congruence.
Qed.

Lemma readAggregate_afterUpdate (id other : string) (now : Date)
    (data : UpdateChessCustomizationRequest) (db : Database) :
  uuid_in other <> uuid_in id ->
  readAggregate other (afterUpdate now id data db) = readAggregate other db.
Proof.
  intros Hne. apply readAggregate_ext.
  - unfold afterUpdate.
    destruct (update_name data), (update_description data), (update_boardSvg data),
      (update_pieces data); cbn [customizations];
      rewrite ?filter_other_assign by exact Hne; reflexivity.
  - intros c Hc. apply leftJoin_ext.
    unfold hasId in Hc. apply String.eqb_eq in Hc.
    unfold afterUpdate. destruct (update_pieces data) as [ps |]; cbn [chess_pieces];
      [| reflexivity].
    rewrite filter_app, filter_other_pieceRows by congruence.
    rewrite app_nil_r. apply filter_other_kept. congruence.
Qed.

Lemma readAggregate_afterDelete (id other : string) (db : Database) :
  uuid_in other <> uuid_in id ->
  readAggregate other (afterDelete id db) = readAggregate other db.
Proof.
  intros Hne. apply readAggregate_ext.
  - unfold afterDelete. cbn [customizations]. apply filter_other_deleted. exact Hne.
  - intros c Hc. apply leftJoin_ext.
    unfold hasId in Hc. apply String.eqb_eq in Hc.
    unfold afterDelete. cbn [chess_pieces]. apply filter_other_kept. congruence.
Qed.

(** X14.  No write to one aggregate shows in another: whatever [create] (with
    the generated identifier [id]), [update] and [delete] of [id] do,
    succeeding or failing, [getById] of an identifier that denotes another
    UUID answers afterwards what it answered before. *)
Theorem other_aggregates_untouched (id other : string) (db : Database) :
  uuid_in other <> uuid_in id ->
  (forall now data,
      snd (getById other (fst (create id now data (idle db))))
      = snd (getById other (idle db)))
  /\ (forall now data,
         snd (getById other (fst (update now id data (idle db))))
         = snd (getById other (idle db)))
  /\ snd (getById other (fst (delete id (idle db)))) = snd (getById other (idle db)).
Proof.
  intros Hne.
  split; [| split].
  - intros now data. rewrite !getById_read. cbn [snd idle current]. f_equal.
    destruct (Nat.le_gt_cases (String.length (create_name data)) 255) as [Hfit | Hlong].
    + destruct (existsb (hasId id) (customizations db)) eqn:Hfresh.
      * destruct (create_fails id now data db (or_intror Hfresh)) as [reason ->].
        reflexivity.
      * rewrite (create_ok id now data db Hfit Hfresh). cbn [fst idle current].
        apply readAggregate_afterCreate. exact Hne.
    + destruct (create_fails id now data db (or_introl Hlong)) as [reason ->].
      reflexivity.
  - intros now data. rewrite !getById_read. cbn [snd idle current]. f_equal.
    destruct (isValidUUID id) eqn:Hvalid.
    + destruct (existsb (hasId id) (customizations db)) eqn:Hexists.
      * assert (Hdec : nameFits data \/ ~ nameFits data).
        { unfold nameFits. destruct (update_name data) as [n |]; [| left; exact I].
          destruct (Nat.le_gt_cases (String.length n) 255); [left | right]; lia. }
        destruct Hdec as [Hfits | Hlong].
        -- rewrite (update_ok now id data db Hvalid Hexists Hfits). cbn [fst idle current].
           apply readAggregate_afterUpdate. exact Hne.
        -- rewrite (update_fails now id data db Hvalid Hexists Hlong). reflexivity.
      * rewrite (update_absent now id data db Hexists). reflexivity.
    + unfold update. rewrite Hvalid. reflexivity.
  - rewrite !getById_read. cbn [snd idle current]. f_equal. rewrite delete_spec.
    destruct (isValidUUID id && existsb (hasId id) (customizations db));
      cbn [fst idle current]; [apply readAggregate_afterDelete; exact Hne | reflexivity].
Qed.

Lemma other_aggregates_untouched_witness :
  snd (getById sampleId
         (fst (create "9b2e4567-e89b-42d3-a456-426614174999" 7 requestWithEmptyDescription
                 (idle sampleDatabase))))
  = snd (getById sampleId (idle sampleDatabase)).
Proof.
  apply (other_aggregates_untouched "9b2e4567-e89b-42d3-a456-426614174999" sampleId
           sampleDatabase).
  discriminate.
Defined.

End IsolationFacts.

Section HandlerFacts.

Import Storage Controller.

Lemma idRejected_nonempty (id : string) :
  id <> EmptyString -> idRejected id = false.
Proof.
  intros Hne. unfold idRejected. cbn [truthy typeof].
  apply String.eqb_neq in Hne. rewrite Hne. reflexivity.
Qed.

(** X15.  A PUT for an identifier that does not exist -- malformed ones included
    -- is answered 404 with a message naming it, whatever the body: the body
    is not validated first, and the store is not touched. *)
Theorem updateCustomization_missing (now : Date) (req : Request) (db : Database) :
  params_id req <> EmptyString ->
  snd (exists_ (params_id req) (idle db)) = inr false ->
  updateCustomization now req (idle db) = (idle db, notFound (params_id req)).
Proof.
  intros Hid Hexists.
  rewrite exists_spec in Hexists. cbn [snd] in Hexists.
  assert (Hfound : isValidUUID (params_id req)
                   && (0 <? List.length (filter (hasId (params_id req))
                                           (customizations (current (idle db))))) = false)
    by congruence.
  unfold updateCustomization.
  fold (idRejected (params_id req)). rewrite (idRejected_nonempty _ Hid).
  unfold Pg.bind at 1. rewrite exists_spec, Hfound. reflexivity.
Qed.

Lemma updateCustomization_missing_witness :
  updateCustomization 7 (mkRequest "PUT" "/api/customizations/42" "42" (JNum 5))
    (idle sampleDatabase)
  = (idle sampleDatabase, notFound "42").
Proof.
  apply (updateCustomization_missing 7
           (mkRequest "PUT" "/api/customizations/42" "42" (JNum 5)) sampleDatabase).
  - discriminate.
  - reflexivity.
Defined.

(** X16.  A POST whose body the validator rejects is answered 400 with the
    validator's error list, all of it, as [details]; nothing is written to
    the store. *)
Theorem createCustomization_rejected
    (uuid : string) (now : Date) (req : Request) (db : Database)
    (result : Validation.ValidationResult) :
  Validation.validateCreateCustomization (req_body req) = inr result ->
  Validation.isValid result = false ->
  createCustomization uuid now req (idle db)
  = (idle db, validationFailed (Validation.errors result)).
Proof.
  intros Hrun Hinvalid.
  unfold createCustomization, respond, Pg.bind at 1.
  rewrite Hrun. cbn [liftExc]. unfold Pg.ret at 1. rewrite Hinvalid. reflexivity.
Qed.

Lemma createCustomization_rejected_witness :
  createCustomization sampleId 7
    (mkRequest "POST" "/api/customizations" EmptyString
       (JObj [("name", JStr "   "); ("pieces", JArr [])]))
    (idle sampleDatabase)
  = (idle sampleDatabase,
     validationFailed ["Name is required and must be a non-empty string";
                       "At least one chess piece is required"]).
Proof.
  apply (createCustomization_rejected sampleId 7
           (mkRequest "POST" "/api/customizations" EmptyString
              (JObj [("name", JStr "   "); ("pieces", JArr [])]))
           sampleDatabase
           (Validation.mkResult false
              ["Name is required and must be a non-empty string";
               "At least one chess piece is required"]));
    reflexivity.
Defined.




End HandlerFacts.

Section HandlerRoundTrips.

Import Storage Controller.


Lemma getCustomizationById_read (req : Request) (conn : Connection) :
  params_id req <> EmptyString ->
  getCustomizationById req conn
  = (conn,
     match readAggregate (params_id req) (current conn) with
     | Some found =>
         mkResponse 200 (SuccessBody found "Customization retrieved successfully")
     | None => notFound (params_id req)
     end).
Proof.
  intros Hid. unfold getCustomizationById, respond.
  rewrite (idRejected_nonempty _ Hid).
  unfold Pg.bind. rewrite getById_read.
  destruct (readAggregate (params_id req) (current conn)); reflexivity.
Qed.

(** X18.  A GET for an identifier that does not exist, malformed ones included,
    is answered 404 with a message naming the identifier -- never 400. *)
Theorem getCustomizationById_missing (req : Request) (db : Database) :
  params_id req <> EmptyString ->
  snd (exists_ (params_id req) (idle db)) = inr false ->
  getCustomizationById req (idle db) = (idle db, notFound (params_id req)).
Proof.
  intros Hid Hexists.
  rewrite (getCustomizationById_read req (idle db) Hid). cbn [idle current].
  rewrite exists_spec in Hexists. cbn [snd idle current] in Hexists.
  assert (Hnone : readAggregate (params_id req) db = None).
  { unfold readAggregate.
    destruct (isValidUUID (params_id req)); cbn [negb]; [| reflexivity].
    cbn [andb] in Hexists.
    destruct (filter (hasId (params_id req)) (customizations db)); [reflexivity |].
    discriminate Hexists. }
  rewrite Hnone. reflexivity.
Qed.

Lemma getCustomizationById_missing_witness :
  getCustomizationById (mkRequest "GET" "/api/customizations/nope" "nope" JUndefined)
    (idle sampleDatabase)
  = (idle sampleDatabase, notFound "nope").
Proof.
  apply (getCustomizationById_missing
           (mkRequest "GET" "/api/customizations/nope" "nope" JUndefined) sampleDatabase).
  - discriminate.
  - reflexivity.
Defined.



(** X20.  A DELETE for an existing aggregate is answered 204 without a body and
    removes it: a GET or a second DELETE for the same identifier is then
    answered 404.  A DELETE for an identifier that does not exist is
    answered 404 and leaves the store as it was. *)
Theorem deleteCustomization_outcomes (req : Request) (db : Database) :
  params_id req <> EmptyString ->
  (snd (exists_ (params_id req) (idle db)) = inr false ->
   deleteCustomization req (idle db) = (idle db, notFound (params_id req)))
  /\ (wellFormed db ->
      snd (exists_ (params_id req) (idle db)) = inr true ->
      exists conn,
        deleteCustomization req (idle db) = (conn, mkResponse 204 NoBody)
        /\ deleteCustomization req conn = (conn, notFound (params_id req))
        /\ getCustomizationById req conn = (conn, notFound (params_id req))).
Proof.
  intros Hid.
  assert (Hhead : forall conn,
    deleteCustomization req conn
    = let (conn1, found) := exists_ (params_id req) conn in
      match found with
      | inl error => (conn1, next req error)
      | inr false => (conn1, notFound (params_id req))
      | inr true =>
          let (conn2, deleted) := delete (params_id req) conn1 in
          match deleted with
          | inl error => (conn2, next req error)
          | inr false =>
              (conn2, mkResponse 500
                        (ErrorBody (mkErrorResponse "Delete failed"
                                      "Failed to delete customization" None)))
          | inr true => (conn2, mkResponse 204 NoBody)
          end
      end).
  { intros conn. unfold deleteCustomization, respond.
    rewrite (idRejected_nonempty _ Hid). unfold Pg.bind at 1.
    destruct (exists_ (params_id req) conn) as [conn1 [e | [|]]]; cbn [negb];
      try reflexivity.
    unfold Pg.bind.
    destruct (delete (params_id req) conn1) as [conn2 [e | [|]]]; reflexivity. }
  split.
  - intros Hexists. rewrite Hhead.
    rewrite exists_spec in *. cbn [snd idle current] in *.
    injection Hexists as ->. reflexivity.
  - intros Hwf Hexists.
    destruct (delete_existing _ db Hwf Hexists) as (conn & Hdel & Hgone & Hread & _).
    exists conn.
    rewrite !Hhead.
    rewrite (exists_spec _ (idle db)) in Hexists |- *. cbn [snd idle current] in *.
    injection Hexists as ->. rewrite Hdel, Hgone.
    split; [reflexivity |]. split; [reflexivity |].
    rewrite (getCustomizationById_read req conn Hid).
    rewrite getById_read in Hread. injection Hread as ->. reflexivity.
Qed.

Lemma deleteCustomization_outcomes_witness :
  exists conn,
    deleteCustomization (mkRequest "DELETE" "/api/customizations/x" sampleId JUndefined)
      (idle sampleDatabase) = (conn, mkResponse 204 NoBody)
    /\ deleteCustomization (mkRequest "DELETE" "/api/customizations/x" sampleId JUndefined)
         conn = (conn, notFound sampleId)
    /\ getCustomizationById (mkRequest "DELETE" "/api/customizations/x" sampleId JUndefined)
         conn = (conn, notFound sampleId).
Proof.
  destruct (deleteCustomization_outcomes
              (mkRequest "DELETE" "/api/customizations/x" sampleId JUndefined)
              sampleDatabase) as [_ Hexisting].
  - discriminate.
  - apply Hexisting; [exact wellFormed_sampleDatabase | reflexivity].
Defined.

End HandlerRoundTrips.

Section SortFacts.

Variable le : Joined -> Joined -> bool.
Hypothesis le_trans : forall x y z, le x y = true -> le y z = true -> le x z = true.
Hypothesis le_total : forall x y, le x y = false -> le y x = true.

Let lep (x y : Joined) : Prop := le x y = true.

Lemma insertBy_In (x y : Joined) (l : list Joined) :
  In y (insertBy le x l) <-> y = x \/ In y l.
Proof.
  induction l as [| z l IH]; cbn [insertBy].
  - cbn. intuition congruence.
  - destruct (le x z); cbn [In]; [intuition congruence |].
    rewrite IH. intuition congruence.
Qed.

Lemma sortBy_In (y : Joined) (l : list Joined) : In y (sortBy le l) <-> In y l.
Proof.
  induction l as [| x l IH]; cbn [sortBy]; [reflexivity |].
  rewrite insertBy_In, IH. cbn. intuition congruence.
Qed.

Lemma insertBy_sorted (x : Joined) (l : list Joined) :
  StronglySorted lep l -> StronglySorted lep (insertBy le x l).
Proof.
  induction 1 as [| y l Hsorted IH Hall]; cbn [insertBy].
  - repeat constructor.
  - destruct (le x y) eqn:Hxy.
    + constructor; [constructor; assumption |].
      constructor; [exact Hxy |].
      rewrite Forall_forall in *. intros z Hz. exact (le_trans x y z Hxy (Hall z Hz)).
    + constructor; [exact IH |].
      rewrite Forall_forall in *. intros z Hz. apply insertBy_In in Hz as [-> | Hz].
      * exact (le_total x y Hxy).
      * exact (Hall z Hz).
Qed.

Lemma sortBy_sorted (l : list Joined) : StronglySorted lep (sortBy le l).
Proof.
  induction l as [| x l IH]; cbn [sortBy]; [constructor | apply insertBy_sorted; exact IH].
Qed.

(** Selecting rows commutes with the stable sort. *)
Lemma filter_insertBy (p : Joined -> bool) (x : Joined) (l : list Joined) :
  StronglySorted lep l ->
  filter p (insertBy le x l)
  = if p x then insertBy le x (filter p l) else filter p l.
Proof.
  induction 1 as [| y l Hsorted IH Hall]; cbn [insertBy filter].
  - destruct (p x); reflexivity.
  - destruct (le x y) eqn:Hxy.
    + cbn [filter]. destruct (p x) eqn:Hpx; [| reflexivity].
      destruct (p y) eqn:Hpy.
      * cbn [insertBy]. rewrite Hxy. reflexivity.
      * destruct (filter p l) as [| z rest] eqn:Hf; [reflexivity |].
        cbn [insertBy].
        assert (Hz : In z l).
        { assert (Hin : In z (filter p l)) by (rewrite Hf; left; reflexivity).
          apply filter_In in Hin. tauto. }
        rewrite Forall_forall in Hall.
        rewrite (le_trans x y z Hxy (Hall z Hz)). reflexivity.
    + cbn [filter]. rewrite IH.
      destruct (p y) eqn:Hpy, (p x) eqn:Hpx; try reflexivity.
      cbn [insertBy]. rewrite Hxy. reflexivity.
Qed.

Lemma filter_sortBy (p : Joined -> bool) (l : list Joined) :
  filter p (sortBy le l) = sortBy le (filter p l).
Proof.
  induction l as [| x l IH]; [reflexivity |].
  cbn [sortBy filter]. rewrite (filter_insertBy p x _ (sortBy_sorted l)), IH.
  destruct (p x); reflexivity.
Qed.

End SortFacts.

Section OrderFacts.

Lemma pieceIdLe_trans (x y z : Joined) :
  pieceIdLe x y = true -> pieceIdLe y z = true -> pieceIdLe x z = true.
Proof.
  unfold pieceIdLe.
  destruct (snd x), (snd y), (snd z); try reflexivity; try discriminate.
  rewrite !Nat.leb_le. lia.
Qed.

Lemma pieceIdLe_total (x y : Joined) : pieceIdLe x y = false -> pieceIdLe y x = true.
Proof.
  unfold pieceIdLe.
  destruct (snd x), (snd y); try reflexivity; try discriminate.
  rewrite Nat.leb_le, Nat.leb_gt. lia.
Qed.

Lemma newestFirstLe_trans (x y z : Joined) :
  newestFirstLe x y = true -> newestFirstLe y z = true -> newestFirstLe x z = true.
Proof.
  unfold newestFirstLe. rewrite !orb_true_iff, !andb_true_iff, !Nat.ltb_lt, !Nat.eqb_eq.
  intros [Hxy | [Hxy Pxy]] [Hyz | [Hyz Pyz]]; try (left; lia).
  right. split; [lia |]. exact (pieceIdLe_trans x y z Pxy Pyz).
Qed.

Lemma newestFirstLe_total (x y : Joined) :
  newestFirstLe x y = false -> newestFirstLe y x = true.
Proof.
  unfold newestFirstLe. rewrite orb_false_iff, andb_false_iff, orb_true_iff, andb_true_iff.
  rewrite !Nat.ltb_lt, Nat.ltb_ge, Nat.eqb_neq, Nat.eqb_eq.
  intros [Hle [Hne | Hp]]; [left; lia |].
  destruct (Nat.eq_dec (c_created_at (fst x)) (c_created_at (fst y))) as [Heq | Hne].
  - right. split; [lia |]. exact (pieceIdLe_total x y Hp).
  - left. lia.
Qed.

Lemma newestFirstLe_created (x y : Joined) :
  newestFirstLe x y = true -> c_created_at (fst y) <= c_created_at (fst x).
Proof.
  unfold newestFirstLe. rewrite orb_true_iff, andb_true_iff, Nat.ltb_lt, Nat.eqb_eq.
  intros [H | [H _]]; lia.
Qed.

Lemma insertBy_same_parent (c : CustomizationRow) (x : Joined) (sorted : list Joined) :
  fst x = c -> Forall (fun j => fst j = c) sorted ->
  insertBy newestFirstLe x sorted = insertOrdered x sorted.
Proof.
  intros Hx. induction 1 as [| y sorted Hy _ IH]; [reflexivity |].
  cbn [insertBy insertOrdered].
  assert (Hle : newestFirstLe x y = pieceIdLe x y).
  { unfold newestFirstLe. rewrite Hx, Hy, Nat.ltb_irrefl, Nat.eqb_refl. reflexivity. }
  rewrite Hle, IH. reflexivity.
Qed.

(** On the rows of one parent the two orders are the same. *)
Lemma sortBy_same_parent (c : CustomizationRow) (l : list Joined) :
  Forall (fun j => fst j = c) l -> sortBy newestFirstLe l = orderByPieceId l.
Proof.
  induction 1 as [| x l Hx Hl IH]; [reflexivity |].
  cbn [sortBy orderByPieceId]. rewrite IH.
  apply (insertBy_same_parent c); [exact Hx |].
  apply Forall_orderByPieceId. exact Hl.
Qed.

End OrderFacts.

Section FoldFacts.

Import Storage.

Lemma mapHas_keys (m : CustomizationMap) (key : string) :
  existsb (String.eqb key) (map fst m) = mapHas m key.
Proof.
  unfold mapHas. induction m as [| [k v] m IH]; [reflexivity |].
  cbn [map existsb fst]. rewrite IH, String.eqb_sym. reflexivity.
Qed.

Lemma mapHas_In (m : CustomizationMap) (key : string) :
  mapHas m key = false -> ~ In key (map fst m).
Proof.
  rewrite <- mapHas_keys. intros Hnone Hin.
  assert (H : existsb (String.eqb key) (map fst m) = true).
  { apply existsb_exists. exists key. split; [exact Hin | apply String.eqb_refl]. }
  congruence.
Qed.

Lemma mapSet_new (m : CustomizationMap) (key : string) (v : ChessCustomization) :
  mapHas m key = false -> mapSet m key v = (m ++ [(key, v)])%list.
Proof.
  unfold mapHas. induction m as [| [k w] m IH]; intros H; [reflexivity |].
  cbn [existsb fst] in H. apply orb_false_iff in H as [Hk Hm].
  cbn [mapSet app]. rewrite Hk, (IH Hm). reflexivity.
Qed.

Lemma pushPiece_new (m : CustomizationMap) (key : string) (v : ChessCustomization)
    (p : ChessPiece) :
  mapHas m key = false ->
  pushPiece (m ++ [(key, v)])%list key p
  = (m ++ [(key, mkCustomization (id v) (name v) (description v) (boardSvg v)
                   (pieces v ++ [p])%list (createdAt v) (updatedAt v))])%list.
Proof.
  unfold mapHas. induction m as [| [k w] m IH]; intros H.
  - cbn. rewrite String.eqb_refl. reflexivity.
  - cbn [existsb fst] in H. apply orb_false_iff in H as [Hk Hm].
    cbn [pushPiece app]. rewrite Hk, (IH Hm). reflexivity.
Qed.

Lemma rowsOf_cons (key : string) (j : Joined) (rows : list Joined) :
  rowsOf key (j :: rows) = (rowsOf key [j] ++ rowsOf key rows)%list.
Proof.
  unfold rowsOf. cbn [filter]. destruct (String.eqb (c_id (fst j)) key); reflexivity.
Qed.

Lemma rowsOf_other (key : string) (j : Joined) (rows : list Joined) :
  c_id (fst j) <> key -> rowsOf key (j :: rows) = rowsOf key rows.
Proof.
  intros Hne. unfold rowsOf. cbn [filter].
  apply String.eqb_neq in Hne. rewrite Hne. reflexivity.
Qed.

Lemma piecesRead_app (a b : list Joined) :
  piecesRead (a ++ b)%list = (piecesRead a ++ piecesRead b)%list.
Proof. unfold piecesRead. apply flat_map_app. Qed.

Lemma withPieces_nil (entry : string * ChessCustomization) : withPieces [] entry = entry.
Proof.
  destruct entry as [k [i n d b ps ca ua]]. cbn. rewrite app_nil_r. reflexivity.
Qed.

Lemma withPieces_cons (j : Joined) (rows : list Joined) (entry : string * ChessCustomization) :
  withPieces rows (withPieces [j] entry) = withPieces (j :: rows) entry.
Proof.
  destruct entry as [k v]. cbn [withPieces id name description boardSvg pieces
                                createdAt updatedAt].
  rewrite (rowsOf_cons k j rows), piecesRead_app, app_assoc. reflexivity.
Qed.

Lemma withPieces_other (j : Joined) (rows : list Joined) (entry : string * ChessCustomization) :
  c_id (fst j) <> fst entry -> withPieces (j :: rows) entry = withPieces rows entry.
Proof.
  destruct entry as [k v]. cbn [fst]. intros Hne. cbn [withPieces].
  rewrite (rowsOf_other k j rows Hne). reflexivity.
Qed.

(** A row of a parent already in the map: its piece, if it has one, goes
    to the entry of that parent. *)
Lemma transformRow_has (m : CustomizationMap) (c : CustomizationRow)
    (cp : option ChessPieceRow) :
  NoDup (map fst m) ->
  mapHas m (c_id c) = true ->
  transformRow m (project (c, cp)) = map (withPieces [(c, cp)]) m.
Proof.
  intros Hnodup Hhas. unfold transformRow.
  cbn [project r_id r_type r_color r_svg_data]. rewrite Hhas. cbn [negb].
  assert (Hnone : piecesRead [(c, cp)] = [] -> map (withPieces [(c, cp)]) m = m).
  { intros Hp. rewrite <- (map_id m) at 2. apply map_ext. intros [k v].
    cbn [withPieces]. unfold rowsOf. cbn [filter fst].
    destruct (String.eqb (c_id c) k); [rewrite Hp | cbn]; rewrite app_nil_r;
      destruct v; reflexivity. }
  destruct cp as [p |]; cbn [option_map]; [| symmetry; apply Hnone; reflexivity].
  rewrite truthyColumn_pieceTypeName, truthyColumn_pieceColorName. cbn [andb truthyColumn].
  destruct (truthy (JStr (cp_svg_data p))) eqn:Hsvg.
  - clear Hnone Hhas. induction m as [| [k v] m IH]; [reflexivity |].
    inversion Hnodup as [| ? ? Hnotin Hrest]; subst.
    cbn [pushPiece map withPieces]. unfold rowsOf at 1. cbn [filter fst].
    rewrite (String.eqb_sym k (c_id c)).
    destruct (String.eqb_spec (c_id c) k) as [Heq | Hne].
    + unfold piecesRead at 1. cbn [flat_map snd]. rewrite Hsvg. cbn [app].
      f_equal.
      rewrite <- (map_id m) at 1. apply map_ext_in. intros [k' v'] Hin.
      cbn [withPieces]. unfold rowsOf. cbn [filter fst].
      destruct (String.eqb_spec (c_id c) k') as [Heq' | _].
      * exfalso. apply Hnotin. cbn [fst]. rewrite <- Heq, Heq'.
        apply (in_map fst) in Hin. exact Hin.
      * cbn. rewrite app_nil_r. destruct v'; reflexivity.
    + cbn. rewrite app_nil_r. rewrite (IH Hrest). destruct v; reflexivity.
  - symmetry. apply Hnone. unfold piecesRead. cbn [flat_map snd]. rewrite Hsvg. reflexivity.
Qed.

(** A row of a parent not yet in the map: a new entry at the end. *)
Lemma transformRow_new (m : CustomizationMap) (c : CustomizationRow)
    (cp : option ChessPieceRow) :
  mapHas m (c_id c) = false ->
  transformRow m (project (c, cp)) = (m ++ [freshEntry [(c, cp)] c])%list.
Proof.
  intros Hnew. unfold transformRow, freshEntry.
  cbn [project r_id r_name r_description r_board_svg r_created_at r_updated_at
       r_type r_color r_svg_data].
  rewrite Hnew. cbn [negb]. rewrite (mapSet_new _ _ _ Hnew).
  unfold rowsOf. cbn [filter fst]. rewrite String.eqb_refl.
  unfold piecesRead. cbn [flat_map snd].
  destruct cp as [p |]; cbn [option_map]; [| reflexivity].
  rewrite truthyColumn_pieceTypeName, truthyColumn_pieceColorName. cbn [andb truthyColumn].
  destruct (truthy (JStr (cp_svg_data p))); [| reflexivity].
  rewrite (pushPiece_new _ _ _ _ Hnew). reflexivity.
Qed.

Lemma firstSeen_fresh (rows : list Joined) :
  forall seen c, In c (firstSeen seen rows) -> ~ In (c_id c) seen.
Proof.
  induction rows as [| j rest IH]; intros seen c Hin; [contradiction |].
  cbn [firstSeen] in Hin.
  destruct (existsb (String.eqb (c_id (fst j))) seen) eqn:Hseen.
  - exact (IH seen c Hin).
  - destruct Hin as [<- | Hin].
    + intros Hc.
      assert (H : existsb (String.eqb (c_id (fst j))) seen = true).
      { apply existsb_exists. exists (c_id (fst j)). split; [exact Hc | apply String.eqb_refl]. }
      congruence.
    + intros Hc. apply (IH _ c Hin). apply in_or_app. left. exact Hc.
Qed.

Lemma map_fst_withPieces (rows : list Joined) (m : CustomizationMap) :
  map fst (map (withPieces rows) m) = map fst m.
Proof.
  rewrite map_map. apply map_ext. intros [k v]. reflexivity.
Qed.

(** The fold over joined rows, in closed form: the entries at hand, each
    with the pieces of its rows appended, then one entry for each parent met
    for the first time, with the pieces of its rows. *)
Lemma fold_transformRow_spec (rows : list Joined) :
  forall m : CustomizationMap,
    NoDup (map fst m) ->
    fold_left transformRow (map project rows) m
    = (map (withPieces rows) m ++ map (freshEntry rows) (firstSeen (map fst m) rows))%list.
Proof.
  induction rows as [| [c cp] rest IH]; intros m Hnodup.
  - cbn [map fold_left firstSeen]. rewrite app_nil_r.
    rewrite <- (map_id m) at 1. apply map_ext. intros e. symmetry. apply withPieces_nil.
  - cbn [map fold_left firstSeen fst].
    rewrite mapHas_keys.
    destruct (mapHas m (c_id c)) eqn:Hhas.
    + rewrite (transformRow_has m c cp Hnodup Hhas).
      rewrite IH by (rewrite map_fst_withPieces; exact Hnodup).
      rewrite map_fst_withPieces, map_map. f_equal.
      * apply map_ext. intros e. apply withPieces_cons.
      * apply map_ext_in. intros c' Hc'. unfold freshEntry.
        rewrite rowsOf_other; [reflexivity |]. cbn [fst].
        intros Heq. apply (firstSeen_fresh _ _ _ Hc'). rewrite <- Heq.
        rewrite <- mapHas_keys in Hhas. apply existsb_exists in Hhas as (k & Hk & Hkeq).
        apply String.eqb_eq in Hkeq. subst k. exact Hk.
    + rewrite (transformRow_new m c cp Hhas).
      rewrite IH.
      * rewrite !map_app. cbn [map fst freshEntry]. rewrite <- app_assoc. cbn [app].
        f_equal; [| f_equal].
        -- apply map_ext_in. intros [k v] Hin. symmetry. apply withPieces_other.
           cbn [fst]. intros Heq. apply (mapHas_In _ _ Hhas). rewrite Heq.
           apply (in_map fst) in Hin. exact Hin.
        -- unfold freshEntry, aggregate.
           cbn [withPieces id name description boardSvg pieces createdAt updatedAt].
           rewrite (rowsOf_cons (c_id c) (c, cp) rest), piecesRead_app. reflexivity.
        -- apply map_ext_in. intros c' Hc'. unfold freshEntry.
           rewrite rowsOf_other; [reflexivity |]. cbn [fst].
           intros Heq. apply (firstSeen_fresh _ _ _ Hc'). rewrite <- Heq.
           apply in_or_app. right. left. reflexivity.
      * rewrite map_app. cbn [map fst freshEntry].
        apply NoDup_app; [exact Hnodup | repeat constructor; intros [] |].
        intros k Hk [<- | []]. exact (mapHas_In _ _ Hhas Hk).
Qed.

End FoldFacts.

Section ListingFacts.

Import Storage.

Lemma firstSeen_In (rows : list Joined) :
  forall seen c, In c (firstSeen seen rows) -> exists j, In j rows /\ fst j = c.
Proof.
  induction rows as [| j rest IH]; intros seen c Hin; [contradiction |].
  cbn [firstSeen] in Hin.
  destruct (existsb (String.eqb (c_id (fst j))) seen).
  - destruct (IH _ _ Hin) as (j' & Hj' & Hc). exists j'. split; [right |]; assumption.
  - destruct Hin as [<- | Hin].
    + exists j. split; [left |]; reflexivity.
    + destruct (IH _ _ Hin) as (j' & Hj' & Hc). exists j'. split; [right |]; assumption.
Qed.

Lemma firstSeen_NoDup (rows : list Joined) :
  forall seen, NoDup (map c_id (firstSeen seen rows)).
Proof.
  induction rows as [| j rest IH]; intros seen; [constructor |].
  cbn [firstSeen].
  destruct (existsb (String.eqb (c_id (fst j))) seen); [apply IH |].
  cbn [map]. constructor; [| apply IH].
  intros Hin. apply in_map_iff in Hin as (c & Hid & Hc).
  apply (firstSeen_fresh _ _ _ Hc). rewrite Hid.
  apply in_or_app. right. left. reflexivity.
Qed.

Lemma firstSeen_complete (rows : list Joined) :
  forall seen j, In j rows -> ~ In (c_id (fst j)) seen ->
                 In (c_id (fst j)) (map c_id (firstSeen seen rows)).
Proof.
  induction rows as [| j' rest IH]; intros seen j Hin Hnew; [contradiction |].
  cbn [firstSeen].
  destruct (existsb (String.eqb (c_id (fst j'))) seen) eqn:Hseen.
  - destruct Hin as [-> | Hin]; [| exact (IH _ _ Hin Hnew)].
    exfalso. apply existsb_exists in Hseen as (k & Hk & Heq).
    apply String.eqb_eq in Heq. subst k. exact (Hnew Hk).
  - cbn [map].
    destruct (String.eqb_spec (c_id (fst j')) (c_id (fst j))) as [Heq | Hne];
      [left; exact Heq | right].
    destruct Hin as [-> | Hin]; [contradiction Hne; reflexivity |].
    apply (IH _ _ Hin). intros Hold. apply in_app_or in Hold as [Hold | [Hold | []]].
    + exact (Hnew Hold).
    + exact (Hne Hold).
Qed.

Lemma firstSeen_sorted (R : Joined -> Joined -> Prop) (R' : CustomizationRow -> CustomizationRow -> Prop)
    (rows : list Joined) :
  (forall x y, R x y -> R' (fst x) (fst y)) ->
  StronglySorted R rows -> forall seen, StronglySorted R' (firstSeen seen rows).
Proof.
  intros Hfst. induction 1 as [| j rest Hrest IH Hall]; intros seen; [constructor |].
  cbn [firstSeen].
  destruct (existsb (String.eqb (c_id (fst j))) seen); [apply IH |].
  constructor; [apply IH |].
  apply Forall_forall. intros c Hc.
  destruct (firstSeen_In _ _ _ Hc) as (j' & Hj' & <-).
  apply Hfst. rewrite Forall_forall in Hall. exact (Hall j' Hj').
Qed.

Lemma joinedRows_In (db : Database) (j : Joined) :
  In j (joinedRows db) <-> In (fst j) (customizations db) /\ In j (leftJoin db (fst j)).
Proof.
  unfold joinedRows.
  rewrite (sortBy_In newestFirstLe), in_flat_map. split.
  - intros (c & Hc & Hj).
    destruct (leftJoin_same db c) as [Hsame _]. rewrite Forall_forall in Hsame.
    pose proof (Hsame j Hj) as Hfst. subst c. split; assumption.
  - intros [Hc Hj]. exists (fst j). split; assumption.
Qed.

Lemma rowsOf_leftJoin_other (db : Database) (key : string) (cs : list CustomizationRow) :
  (forall c, In c cs -> c_id c <> key) ->
  rowsOf key (flat_map (leftJoin db) cs) = [].
Proof.
  intros Hother. unfold rowsOf. apply filter_none.
  destruct (existsb _ _) eqn:Hex; [| reflexivity].
  apply existsb_exists in Hex as (j & Hj & Heq). apply String.eqb_eq in Heq.
  apply in_flat_map in Hj as (c & Hc & Hj).
  destruct (leftJoin_same db c) as [Hsame _]. rewrite Forall_forall in Hsame.
  rewrite (Hsame j Hj) in Heq. exfalso. exact (Hother c Hc Heq).
Qed.

Lemma rowsOf_leftJoin_same (db : Database) (c : CustomizationRow) :
  rowsOf (c_id c) (leftJoin db c) = leftJoin db c.
Proof.
  unfold rowsOf. apply filter_all. apply forallb_forall. intros j Hj.
  destruct (leftJoin_same db c) as [Hsame _]. rewrite Forall_forall in Hsame.
  rewrite (Hsame j Hj). apply String.eqb_refl.
Qed.

Lemma rowsOf_app (key : string) (a b : list Joined) :
  rowsOf key (a ++ b)%list = (rowsOf key a ++ rowsOf key b)%list.
Proof. unfold rowsOf. apply filter_app. Qed.

Lemma rowsOf_flat_map (db : Database) (cs : list CustomizationRow) :
  NoDup (map c_id cs) ->
  forall c, In c cs -> rowsOf (c_id c) (flat_map (leftJoin db) cs) = leftJoin db c.
Proof.
  induction cs as [| x rest IH]; intros Hnodup c Hin; [contradiction |].
  inversion Hnodup as [| ? ? Hnotin Hrest]; subst.
  cbn [flat_map]. rewrite rowsOf_app.
  destruct Hin as [Hin | Hin].
  - subst x. rewrite rowsOf_leftJoin_same, rowsOf_leftJoin_other; [apply app_nil_r |].
    intros c' Hc' Heq. apply Hnotin. rewrite <- Heq. apply in_map. exact Hc'.
  - rewrite (IH Hrest c Hin).
    assert (Hx : rowsOf (c_id c) (leftJoin db x) = []).
    { rewrite <- (app_nil_r (leftJoin db x)).
      change (leftJoin db x ++ [])%list with (flat_map (leftJoin db) [x]).
      apply rowsOf_leftJoin_other. intros c' [<- | []] Heq.
      apply Hnotin. rewrite Heq. apply in_map. exact Hin. }
    rewrite Hx. reflexivity.
Qed.

(** Among the rows of [getAll] those of one customization are the rows
    [getById] reads for it, in the same order. *)
Lemma rowsOf_joinedRows (db : Database) (c : CustomizationRow) :
  primaryKeyHolds db -> In c (customizations db) ->
  rowsOf (c_id c) (joinedRows db) = orderByPieceId (leftJoin db c).
Proof.
  intros Hpk Hc. unfold joinedRows, rowsOf.
  rewrite (filter_sortBy newestFirstLe newestFirstLe_trans newestFirstLe_total).
  change (sortBy newestFirstLe (rowsOf (c_id c) (flat_map (leftJoin db) (customizations db)))
          = orderByPieceId (leftJoin db c)).
  rewrite (rowsOf_flat_map db _ Hpk c Hc).
  apply (sortBy_same_parent c). apply leftJoin_same.
Qed.

(** What [getAll] answers, in closed form; the connection is left as it
    was. *)
Lemma getAll_read (conn : Connection) :
  getAll conn
  = (conn,
     inr (map (fun c => aggregate c (piecesRead (rowsOf (c_id c) (joinedRows (current conn)))))
            (firstSeen [] (joinedRows (current conn))))).
Proof.
  unfold getAll, tryCatch, Pg.bind, selectAllWithPieces.
  rewrite (withDatabase_read
             (fun db => map project
                          (sortBy newestFirstLe (flat_map (leftJoin db) (customizations db))))).
  cbn [ret]. unfold ret. f_equal. f_equal.
  unfold transformRowsToCustomizations, mapValues.
  fold (joinedRows (current conn)).
  rewrite (fold_transformRow_spec (joinedRows (current conn)) [] (NoDup_nil _)).
  cbn [map app]. rewrite map_map. reflexivity.
Qed.

End ListingFacts.

Section ListingTheorems.

Import Storage.

Lemma StronglySorted_aggregates (ps : CustomizationRow -> list ChessPiece)
    (cs : list CustomizationRow) :
  StronglySorted (fun c c' => c_created_at c' <= c_created_at c) cs ->
  StronglySorted newerOrSame (map (fun c => aggregate c (ps c)) cs).
Proof.
  induction 1 as [| c rest Hrest IH Hall]; cbn [map]; constructor; [exact IH |].
  apply Forall_forall. intros a Ha. apply in_map_iff in Ha as (c' & <- & Hc').
  rewrite Forall_forall in Hall. exact (Hall c' Hc').
Qed.

Lemma leftJoin_inhabited (db : Database) (c : CustomizationRow) :
  exists j, In j (leftJoin db c) /\ fst j = c.
Proof.
  destruct (leftJoin_same db c) as [Hsame Hne].
  destruct (leftJoin db c) as [| j rest]; [contradiction Hne; reflexivity |].
  exists j. split; [left; reflexivity |].
  apply Forall_cons_iff in Hsame as [Hj _]. exact Hj.
Qed.

(** X21.  [getAll] raises nothing and leaves the store as it was.  On a
    store whose primary key holds and whose identifiers are canonical valid
    UUIDs, the list it answers has one entry for each stored customization
    and no other, as many as there are rows in the table, the entry of a
    customization is what [getById] answers for its identifier, and the
    entries come newest first. *)
Theorem getAll_lists_each_once (db : Database) :
  primaryKeyHolds db ->
  identifiersValid db ->
  exists all,
    getAll (idle db) = (idle db, inr all)
    /\ NoDup (map id all)
    /\ (forall key, In key (map id all) <-> In key (map c_id (customizations db)))
    /\ List.length all = List.length (customizations db)
    /\ (forall a, In a all -> snd (getById (id a) (idle db)) = inr (Some a))
    /\ StronglySorted newerOrSame all.
Proof.
  intros Hpk Hids.
  set (rows := joinedRows db).
  set (entry := fun c => aggregate c (piecesRead (rowsOf (c_id c) rows))).
  assert (Hkeys : map id (map entry (firstSeen [] rows)) = map c_id (firstSeen [] rows)).
  { rewrite map_map. apply map_ext. reflexivity. }
  assert (Hstored : forall c, In c (firstSeen [] rows) -> In c (customizations db)).
  { intros c Hc. destruct (firstSeen_In _ _ _ Hc) as (j & Hj & <-).
    apply (joinedRows_In db j). exact Hj. }
  assert (Hsame : forall key, In key (map c_id (firstSeen [] rows))
                              <-> In key (map c_id (customizations db))).
  { intros key. split; intros Hin; apply in_map_iff in Hin as (c & <- & Hc).
    - apply in_map. exact (Hstored c Hc).
    - destruct (leftJoin_inhabited db c) as (j & Hj & Hfst). rewrite <- Hfst.
      apply firstSeen_complete; [| intros []].
      apply (joinedRows_In db j). rewrite Hfst. split; assumption. }
  exists (map entry (firstSeen [] rows)). repeat apply conj.
  - rewrite getAll_read. reflexivity.
  - rewrite Hkeys. apply firstSeen_NoDup.
  - intros key. rewrite Hkeys. apply Hsame.
  - rewrite length_map, <- (length_map c_id (firstSeen [] rows)),
      <- (length_map c_id (customizations db)).
    apply Nat.le_antisymm; apply NoDup_incl_length;
      [apply firstSeen_NoDup | | exact Hpk |]; intros key Hkey; apply Hsame; exact Hkey.
  - intros a Ha. apply in_map_iff in Ha as (c & <- & Hc).
    apply Hstored in Hc. destruct (Hids c Hc) as [Hvalid Hcanon].
    rewrite getById_read. cbn [snd idle current]. f_equal.
    change (id (entry c)) with (c_id c).
    rewrite (readAggregate_found (c_id c) db c Hvalid).
    + unfold entry, rows. rewrite (rowsOf_joinedRows db c Hpk Hc). reflexivity.
    + unfold hasId. rewrite Hcanon. apply (filter_primary_key _ _ Hpk c Hc eq_refl).
  - apply StronglySorted_aggregates.
    apply (firstSeen_sorted (fun x y => newestFirstLe x y = true)).
    + intros x y. apply newestFirstLe_created.
    + apply (sortBy_sorted newestFirstLe newestFirstLe_trans newestFirstLe_total).
Qed.

Lemma getAll_lists_each_once_witness :
  exists all,
    getAll (idle sampleDatabase) = (idle sampleDatabase, inr all)
    /\ NoDup (map id all)
    /\ (forall key, In key (map id all) <-> In key (map c_id (customizations sampleDatabase)))
    /\ List.length all = List.length (customizations sampleDatabase)
    /\ (forall a, In a all -> snd (getById (id a) (idle sampleDatabase)) = inr (Some a))
    /\ StronglySorted newerOrSame all.
Proof.
  apply (getAll_lists_each_once sampleDatabase).
  - exact (proj1 wellFormed_sampleDatabase).
  - intros c [<- | []]. split; reflexivity.
Defined.

End ListingTheorems.

Section UpdateHandler.

Import Validation Storage Controller.








End UpdateHandler.
